(** * dev-agents: the repository walker and the commit publisher of [src/lib/git.ts]

  A shallow embedding of [fetchAllRepositoryFiles], [fetchSourceCodeFiles],
  [createBlob], [createTree], [createCommit], [updateBranch], [createBranch]
  and [pushFilesAsCommit], with the properties their specification states;
  then of the rest of that file and of the task file of [src/lib/tasks.ts],
  with properties read off the code.

  Conventions.
  - A JavaScript string is a [string]: a sequence of code units, here the
    code units 0..255.  Every string function below is the JavaScript
    function restricted to that range.
  - An [async] function that may throw is a computation returning
    [result A]; [Throw e] is a rejected promise.
  - The hosting service is not part of the repository.  The walker only
    reads, and sees the service as a function from request to reply; the
    publisher writes, and sees it as a state machine. *)

From Stdlib Require Import List String Ascii Bool NArith Arith Lia.
Import ListNotations.
Open Scope string_scope.
Open Scope list_scope.

Set Implicit Arguments.

(* ===================================================================== *)
(** ** JavaScript strings                                                 *)
(* ===================================================================== *)

Module JsString.

Definition code (c : ascii) : N := N_of_ascii c.

(** [String.prototype.trim] strips WhiteSpace and LineTerminator code
    points; those below 256 are TAB, LF, VT, FF, CR, SPACE and NBSP. *)
Definition is_whitespace (c : ascii) : bool :=
  let n := code c in
  ((9 <=? n) && (n <=? 13) || (n =? 32) || (n =? 160))%N.

Fixpoint str_exists (p : ascii -> bool) (s : string) : bool :=
  match s with
  | EmptyString => false
  | String c s' => p c || str_exists p s'
  end.

Fixpoint str_forall (p : ascii -> bool) (s : string) : bool :=
  match s with
  | EmptyString => true
  | String c s' => p c && str_forall p s'
  end.

(** [c] occurs in [s]. *)
Fixpoint occurs (c : ascii) (s : string) : Prop :=
  match s with
  | EmptyString => False
  | String d s' => d = c \/ occurs c s'
  end.

Fixpoint trimStart (s : string) : string :=
  match s with
  | EmptyString => EmptyString
  | String c s' => if is_whitespace c then trimStart s' else s
  end.

Fixpoint trimEnd (s : string) : string :=
  match s with
  | EmptyString => EmptyString
  | String c s' =>
      match trimEnd s' with
      | EmptyString => if is_whitespace c then EmptyString else String c EmptyString
      | t => String c t
      end
  end.

(** [s.trim()] *)
Definition trim (s : string) : string := trimEnd (trimStart s).

(** [s.replace(/c/g, by)] for a one-character pattern [c]. *)
Fixpoint replaceAll (c : ascii) (by_ : string) (s : string) : string :=
  match s with
  | EmptyString => EmptyString
  | String d s' =>
      if Ascii.eqb d c then by_ ++ replaceAll c by_ s'
      else String d (replaceAll c by_ s')
  end.

(** [s.toLowerCase()] on code units below 256: A-Z, and the Latin-1
    capitals U+00C0..U+00DE without the multiplication sign U+00D7. *)
Definition lower_char (c : ascii) : ascii :=
  let n := code c in
  if ((65 <=? n) && (n <=? 90)
      || (192 <=? n) && (n <=? 222) && negb (n =? 215))%N
  then ascii_of_N (n + 32) else c.

Fixpoint toLowerCase (s : string) : string :=
  match s with
  | EmptyString => EmptyString
  | String c s' => String (lower_char c) (toLowerCase s')
  end.

(** [s.split(sep)] for a one-character separator: never the empty list. *)
Fixpoint split (sep : ascii) (s : string) : list string :=
  match s with
  | EmptyString => [EmptyString]
  | String c s' =>
      if Ascii.eqb c sep then EmptyString :: split sep s'
      else match split sep s' with
           | [] => [String c EmptyString]
           | w :: ws => String c w :: ws
           end
  end.

(** [a.pop()] read as an expression: the last element, [undefined] on []. *)
Fixpoint pop {A} (l : list A) : option A :=
  match l with
  | [] => None
  | [x] => Some x
  | _ :: l' => pop l'
  end.

(** [a.join(sep)] *)
Fixpoint join (sep : string) (l : list string) : string :=
  match l with
  | [] => EmptyString
  | [x] => x
  | x :: l' => x ++ sep ++ join sep l'
  end.

(** [a.includes(x)] on an array of strings *)
Definition includes (l : list string) (x : string) : bool :=
  existsb (String.eqb x) l.

End JsString.
Import JsString.

(* ===================================================================== *)
(** ** Thrown values and results                                          *)
(* ===================================================================== *)

(** One element of [error.response.data.errors] of a 422 reply.
    [err_json] is [JSON.stringify(e)]. *)
Record api_error_detail := {
  err_resource : option string;
  err_message : option string;
  err_code : option string;
  err_json : string
}.

(** [error.response] of a rejected axios request. *)
Record http_response := {
  status : N;
  data_message : option string;          (* response.data.message *)
  data_errors : option (list api_error_detail)  (* response.data.errors *)
}.

(** What a [throw] carries.  [AxiosError] has [response = None] when the
    request got no reply at all (network failure). *)
Inductive exn :=
| AxiosError (message : string) (response : option http_response)
| Error (message : string)
| TypeError (message : string)
| SyntaxError (message : string).

Definition exn_message (e : exn) : string :=
  match e with
  | AxiosError m _ | Error m | TypeError m | SyntaxError m => m
  end.

(** [error.response?.status] *)
Definition response_status (e : exn) : option N :=
  match e with
  | AxiosError _ (Some r) => Some (status r)
  | _ => None
  end.

(** [error.response?.status === n] *)
Definition status_is (e : exn) (n : N) : bool :=
  match response_status e with
  | Some m => N.eqb m n
  | None => false
  end.

Inductive result (A : Type) :=
| Ok (a : A)
| Throw (e : exn).
Arguments Ok {A} a.
Arguments Throw {A} e.

(* ===================================================================== *)
(** ** The File Validator (inside [pushFilesAsCommit])                    *)
(* ===================================================================== *)

Record FileRecord := { path : string; content : string }.

Module Validator.

(** The character class of [invalidChars]: less-than, greater-than,
    colon, double quote, bar, question mark, star, and the range
    x00-x1F. *)
Definition invalidChars (c : ascii) : bool :=
  let n := code c in
  ((n =? 60) || (n =? 62) || (n =? 58) || (n =? 34) || (n =? 124)
   || (n =? 63) || (n =? 42) || (n <=? 31))%N.

Definition is_empty (s : string) : bool :=
  match s with EmptyString => true | _ => false end.

(** The callback of [files.filter]. *)
Definition keep (file : FileRecord) : bool :=
  if is_empty (content file) || Nat.eqb (String.length (trim (content file))) 0
  then false
  else if is_empty (path file) || Nat.eqb (String.length (trim (path file))) 0
  then false
  else if str_exists invalidChars (path file)
  then false
  else true.

Definition backslash : ascii := ascii_of_N 92.

(** The callback of [.map]. *)
Definition normalize (file : FileRecord) : FileRecord :=
  {| path := trim (replaceAll backslash "/" (path file));
     content := content file |}.

Definition validate (files : list FileRecord) : list FileRecord :=
  map normalize (filter keep files).

End Validator.

(** The characters the specification names for a path, stated apart from
    the code: the seven punctuation marks, and the control characters
    (U+0000..U+001F, DEL and U+0080..U+009F), of which [is_c0_control]
    is the first range. *)
Module PathCharacters.

Definition invalid_punctuation : list ascii :=
  [ascii_of_N 60; ascii_of_N 62; ascii_of_N 58; ascii_of_N 34;
   ascii_of_N 124; ascii_of_N 63; ascii_of_N 42].

Definition is_c0_control (c : ascii) : bool := (code c <=? 31)%N.

Definition is_control (c : ascii) : bool :=
  ((code c <=? 31) || (127 <=? code c) && (code c <=? 159))%N.

End PathCharacters.

(* ===================================================================== *)
(** ** The Repository Tree Walker                                         *)
(* ===================================================================== *)

Definition bind_result {A B} (c : result A) (k : A -> result B) : result B :=
  match c with
  | Ok a => k a
  | Throw e => Throw e
  end.

Notation "'let?' x ':=' c 'in' k" := (bind_result c (fun x => k))
  (at level 10, x name, c at level 100, k at level 200).

(** What a [catch] clause can receive: JavaScript lets any value be
    thrown.  The runtime and axios throw objects; a caller's function may
    throw anything. *)
Inductive thrown :=
| Object (e : exn)
| Primitive                (* a thrown string, number, boolean, ... *)
| Null
| Undefined.

(** The result of code that a caller's function takes part in. *)
Inductive attempt (A : Type) :=
| Done (a : A)
| Raised (t : thrown).
Arguments Done {A} a.
Arguments Raised {A} t.

Definition attempt_of {A} (r : result A) : attempt A :=
  match r with
  | Ok a => Done a
  | Throw e => Raised (Object e)
  end.

Definition bind_attempt {A B} (c : attempt A) (k : A -> attempt B)
    : attempt B :=
  match c with
  | Done a => k a
  | Raised t => Raised t
  end.

Notation "'let!' x ':=' c 'in' k" := (bind_attempt c (fun x => k))
  (at level 10, x name, c at level 100, k at level 200).

(** [error.message] in a [catch (error)]: reading a property of [null] or
    [undefined] throws a TypeError. *)
Definition message_of (t : thrown) : result (option string) :=
  match t with
  | Object e => Ok (Some (exn_message e))
  | Primitive => Ok None
  | Null =>
      Throw (TypeError "Cannot read properties of null (reading 'message')")
  | Undefined =>
      Throw (TypeError
               "Cannot read properties of undefined (reading 'message')")
  end.

(** [a || d] on a possibly undefined string: [undefined] and [''] are falsy. *)
Definition or_else (a : option string) (d : string) : string :=
  match a with
  | Some (String _ _ as s) => s
  | _ => d
  end.

Module Walker.

(** An element of [res.data.tree]. *)
Record tree_item := {
  item_path : string;
  item_type : string;
  item_url : string
}.

(** [contentRes.data] of a blob read. *)
Record blob_data := {
  blob_size : N;
  blob_content : string
}.

Record FetchRepositoryConfig := {
  includeExtensions : option (list string);
  excludePatterns : option (list string);
  maxFileSize : option N;
  includeBinary : option bool;
  customFilter : option (string -> string -> attempt bool)
}.

(** [config || {}] *)
Definition no_config : FetchRepositoryConfig :=
  {| includeExtensions := None; excludePatterns := None;
     maxFileSize := None; includeBinary := None; customFilter := None |}.

(** The branch of the loop body that an entry leaves through; each one
    is a distinct [console.log] line of the source. *)
Inductive skip_reason :=
| Excluded
| NonMatchingExtension
| LargeFile
| BinaryFile
| CustomFilter.

Inductive entry_outcome :=
| Skipped (why : skip_reason)
| Fetched (file : FileRecord).

Record walk_state := {
  files : list FileRecord;
  skippedCount : nat
}.

Definition star : ascii := ascii_of_N 42.
Definition question : ascii := ascii_of_N 63.
Definition dot : ascii := ascii_of_N 46.

(** [pattern.replace(/\*/g, '.*').replace(/\?/g, '.')] *)
Definition glob_to_regex_source (pattern : string) : string :=
  replaceAll question "." (replaceAll star ".*" pattern).

(** [item.path.split('.').pop()?.toLowerCase()] *)
Definition fileExtension (p : string) : option string :=
  option_map toLowerCase (pop (split dot p)).

(** The negation of
    [!fileExtension || !includeExtensions.includes(fileExtension)]. *)
Definition extension_allowed (exts : list string) (p : string) : bool :=
  match fileExtension p with
  | None => false
  | Some e => negb (Validator.is_empty e) && includes exts e
  end.

Section WithRuntime.

(** What the walker gets from outside the repository:
    - [axios_get_tree url token]: the GET of a recursive tree listing;
    - [axios_get_blob url token]: the GET of one entry's [url];
    - [RegExp_test src s]: [new RegExp(src).test(s)], which throws a
      SyntaxError on a source that is not a regular expression;
    - [Buffer_decode c]: [Buffer.from(c, 'base64').toString('utf-8')]. *)
Variable axios_get_tree : string -> string -> result (list tree_item).
Variable axios_get_blob : string -> string -> result blob_data.
Variable RegExp_test : string -> string -> result bool.
Variable Buffer_decode : string -> result string.

(** [excludePatterns.some(pattern => new RegExp(...).test(p))] *)
Fixpoint some_pattern_matches (patterns : list string) (p : string) : result bool :=
  match patterns with
  | [] => Ok false
  | pattern :: rest =>
      let? hit := RegExp_test (glob_to_regex_source pattern) p in
      if hit then Ok true else some_pattern_matches rest p
  end.

Section WithConfig.

Variable token : string.
Variable config : FetchRepositoryConfig.

Definition maxFileSize_or_default : N :=
  match maxFileSize config with Some n => n | None => 1024 * 1024 end.

Definition includeBinary_or_default : bool :=
  match includeBinary config with Some b => b | None => false end.

(** The custom filter and the push, after [content] is known. *)
Definition filter_and_keep (item : tree_item) (content : string)
    : attempt entry_outcome :=
  match customFilter config with
  | Some f =>
      let! keep := f (item_path item) content in
      if keep
      then Done (Fetched {| path := item_path item; content := content |})
      else Done (Skipped CustomFilter)
  | None => Done (Fetched {| path := item_path item; content := content |})
  end.

(** [excludePatterns && excludePatterns.some(...)] *)
Definition excluded_by_pattern (item : tree_item) : result bool :=
  match excludePatterns config with
  | Some patterns => some_pattern_matches patterns (item_path item)
  | None => Ok false
  end.

(** [includeExtensions && includeExtensions.length > 0] and the test
    under it. *)
Definition skipped_for_extension (item : tree_item) : bool :=
  match includeExtensions config with
  | Some ((_ :: _) as exts) => negb (extension_allowed exts (item_path item))
  | _ => false
  end.

(** The body of the inner [try] for one blob entry. *)
Definition try_entry (item : tree_item) : attempt entry_outcome :=
  let! excluded := attempt_of (excluded_by_pattern item) in
  if excluded then Done (Skipped Excluded) else
  if skipped_for_extension item
  then Done (Skipped NonMatchingExtension) else
  let! contentRes := attempt_of (axios_get_blob (item_url item) token) in
  if (maxFileSize_or_default <? blob_size contentRes)%N
  then Done (Skipped LargeFile) else
  match Buffer_decode (blob_content contentRes) with
  | Ok content => filter_and_keep item content
  | Throw _ =>
      if negb includeBinary_or_default then Done (Skipped BinaryFile)
      else filter_and_keep item (blob_content contentRes)
  end.

(** One iteration of [for (const item of tree)], with the inner [catch]:
    the clause logs [error.message] and then counts a skip, so it throws
    itself when what it caught is [null] or [undefined]. *)
Definition walk_step (acc : walk_state) (item : tree_item)
    : result walk_state :=
  if String.eqb (item_type item) "blob" then
    match try_entry item with
    | Done (Fetched f) =>
        Ok {| files := files acc ++ [f]; skippedCount := skippedCount acc |}
    | Done (Skipped _) =>
        Ok {| files := files acc; skippedCount := S (skippedCount acc) |}
    | Raised t =>
        let? _ := message_of t in
        Ok {| files := files acc; skippedCount := S (skippedCount acc) |}
    end
  else Ok acc.

(** The loop from [acc] on; a throw leaves it. *)
Fixpoint walk_from (tree : list tree_item) (acc : walk_state)
    : result walk_state :=
  match tree with
  | [] => Ok acc
  | item :: rest =>
      let? acc' := walk_step acc item in
      walk_from rest acc'
  end.

Definition walk (tree : list tree_item) : result walk_state :=
  walk_from tree {| files := []; skippedCount := 0 |}.

(** What one entry adds to the files and to the skip count, when the
    loop goes on after it. *)
Definition contribution (item : tree_item) : list FileRecord * nat :=
  if String.eqb (item_type item) "blob" then
    match try_entry item with
    | Done (Fetched f) => ([f], 0)
    | _ => ([], 1)
    end
  else ([], 0).

(** The error with which the loop stops at [item], if it does. *)
Definition stops_at (item : tree_item) : option exn :=
  if String.eqb (item_type item) "blob" then
    match try_entry item with
    | Raised t =>
        match message_of t with
        | Throw e => Some e
        | Ok _ => None
        end
    | Done _ => None
    end
  else None.

(** The error with which the loop over [tree] stops, if it does. *)
Fixpoint first_stop (tree : list tree_item) : option exn :=
  match tree with
  | [] => None
  | item :: rest =>
      match stops_at item with
      | Some e => Some e
      | None => first_stop rest
      end
  end.

End WithConfig.

Definition tree_url (owner repo branch : string) : string :=
  "https://api.github.com/repos/" ++ owner ++ "/" ++ repo
    ++ "/git/trees/" ++ branch ++ "?recursive=1".

(** The whole function, returning what it returns ([files]) together
    with the count it logs ([skippedCount]). *)
Definition fetchAllRepositoryFiles_run
    (owner repo token : string) (branch : option string)
    (config : option FetchRepositoryConfig) : result walk_state :=
  let branch := match branch with Some b => b | None => "main" end in
  let config := match config with Some c => c | None => no_config end in
  match (let? tree := axios_get_tree (tree_url owner repo branch) token in
         walk token config tree) with
  | Ok w => Ok w
  | Throw error =>
      if status_is error 404 then
        Throw (Error ("Repository " ++ owner ++ "/" ++ repo
                      ++ " or branch " ++ branch ++ " not found"))
      else if status_is error 409 then
        Throw (Error ("Repository " ++ owner ++ "/" ++ repo ++ " is empty"))
      else Throw error
  end.

Definition fetchAllRepositoryFiles
    (owner repo token : string) (branch : option string)
    (config : option FetchRepositoryConfig) : result (list FileRecord) :=
  let? w := fetchAllRepositoryFiles_run owner repo token branch config in
  Ok (files w).

Definition sourceExtensions : list string :=
  [ "js"; "jsx"; "ts"; "tsx"; "vue"; "svelte";
    "py"; "java"; "cpp"; "c"; "h"; "hpp";
    "cs"; "php"; "rb"; "go"; "rs"; "swift";
    "kt"; "scala"; "clj"; "hs"; "ml"; "sh";
    "sql"; "html"; "css"; "scss"; "less"; "sass";
    "json"; "xml"; "yaml"; "yml"; "toml"; "ini";
    "md"; "txt"; "dockerfile"; "gitignore" ].

Definition source_config : FetchRepositoryConfig :=
  {| includeExtensions := Some sourceExtensions;
     excludePatterns :=
       Some [ "node_modules/*"; "dist/*"; "build/*"; "*.min.js";
              "*.min.css"; "package-lock.json"; "yarn.lock" ];
     maxFileSize := None; includeBinary := None; customFilter := None |}.

Definition fetchSourceCodeFiles
    (owner repo token : string) (branch : option string)
    : result (list FileRecord) :=
  let branch := match branch with Some b => b | None => "main" end in
  fetchAllRepositoryFiles owner repo token (Some branch) (Some source_config).

End WithRuntime.

End Walker.

(* ===================================================================== *)
(** ** The regular expressions the glob conversion can produce            *)
(* ===================================================================== *)

(** The engine behind [new RegExp(src).test(s)] belongs to the JavaScript
    runtime.  This module gives its behaviour on a fragment of the pattern
    syntax: an atom is [.] or a character without special meaning, and an
    atom may carry one [*].  A source outside the fragment is not given a
    meaning here ([parse] answers [None]). *)
Module RegExpFragment.

Inductive atom :=
| AnyChar                (* [.] *)
| Char (c : ascii).

Inductive piece :=
| One (a : atom)
| Many (a : atom).       (* [a*] *)

(** Characters with a syntactic role in a pattern:
    backslash ^ $ . * + ? ( ) [ ] { } | *)
Definition is_syntax_char (c : ascii) : bool :=
  let n := code c in
  ((n =? 92) || (n =? 94) || (n =? 36) || (n =? 46) || (n =? 42)
   || (n =? 43) || (n =? 63) || (n =? 40) || (n =? 41) || (n =? 91)
   || (n =? 93) || (n =? 123) || (n =? 125) || (n =? 124))%N.

(** [.] matches every character but a line terminator (LF and CR below
    256). *)
Definition is_line_terminator (c : ascii) : bool :=
  let n := code c in ((n =? 10) || (n =? 13))%N.

Definition atom_of (c : ascii) : option atom :=
  if Ascii.eqb c Walker.dot then Some AnyChar
  else if is_syntax_char c then None
  else Some (Char c).

Fixpoint parse (src : string) : option (list piece) :=
  match src with
  | EmptyString => Some []
  | String c rest =>
      match atom_of c with
      | None => None
      | Some a =>
          match rest with
          | String q rest' =>
              if Ascii.eqb q Walker.star
              then option_map (cons (Many a)) (parse rest')
              else option_map (cons (One a)) (parse rest)
          | EmptyString => Some [One a]
          end
      end
  end.

Definition atom_accepts (a : atom) (c : ascii) : bool :=
  match a with
  | AnyChar => negb (is_line_terminator c)
  | Char d => Ascii.eqb d c
  end.

(** [matches r s]: the pattern [r] matches exactly the string [s]. *)
Inductive matches : list piece -> string -> Prop :=
| matches_nil : matches [] ""
| matches_one a r c s :
    atom_accepts a c = true -> matches r s ->
    matches (One a :: r) (String c s)
| matches_many_stop a r s :
    matches r s -> matches (Many a :: r) s
| matches_many_step a r c s :
    atom_accepts a c = true -> matches (Many a :: r) s ->
    matches (Many a :: r) (String c s).

(** A backtracking matcher: does [r] match a prefix of [s]? *)
Fixpoint match_here (r : list piece) (s : string) {struct r} : bool :=
  match r with
  | [] => true
  | One a :: r' =>
      match s with
      | String c s' => atom_accepts a c && match_here r' s'
      | EmptyString => false
      end
  | Many a :: r' =>
      (fix many (s : string) : bool :=
         match_here r' s
         || match s with
            | String c s' => atom_accepts a c && many s'
            | EmptyString => false
            end) s
  end.

(** [test]: a pattern without anchors is tried at every position. *)
Fixpoint search (r : list piece) (s : string) : bool :=
  match_here r s
  || match s with
     | String _ s' => search r s'
     | EmptyString => false
     end.

Definition test (src s : string) : option bool :=
  option_map (fun r => search r s) (parse src).

(** An engine agrees with the fragment wherever the fragment has an
    answer. *)
Definition agrees_on_fragment (engine : string -> string -> result bool) : Prop :=
  forall src s b, test src s = Some b -> engine src s = Ok b.

(** The fragment as an engine; a source outside the fragment is refused. *)
Definition engine (src s : string) : result bool :=
  match test src s with
  | Some b => Ok b
  | None => Throw (SyntaxError ("Invalid regular expression: /" ++ src ++ "/"))
  end.

End RegExpFragment.

(* ===================================================================== *)
(** ** Globs, as the specification words them                             *)
(* ===================================================================== *)

Module Glob.

(** [glob_matches any p s]: the glob [p] matches the whole of [s], where
    [*] matches any run of characters and [?] any single character, the
    characters that count being those accepted by [any]. *)
Inductive glob_matches (any : ascii -> bool) : string -> string -> Prop :=
| glob_empty : glob_matches any "" ""
| glob_star_none p s :
    glob_matches any p s -> glob_matches any (String Walker.star p) s
| glob_star_more p c s :
    any c = true -> glob_matches any (String Walker.star p) s ->
    glob_matches any (String Walker.star p) (String c s)
| glob_question p c s :
    any c = true -> glob_matches any p s ->
    glob_matches any (String Walker.question p) (String c s)
| glob_literal c p s :
    c <> Walker.star -> c <> Walker.question -> glob_matches any p s ->
    glob_matches any (String c p) (String c s).

Definition every_char (c : ascii) : bool := true.

Definition not_line_terminator (c : ascii) : bool :=
  negb (RegExpFragment.is_line_terminator c).

(** The glob matches a contiguous part of [s]. *)
Definition matches_within (any : ascii -> bool) (p s : string) : Prop :=
  exists before middle after,
    s = (before ++ middle ++ after)%string /\ glob_matches any p middle.

(** A glob whose literal characters mean themselves in a regular
    expression too. *)
Definition plain_char (c : ascii) : bool :=
  Ascii.eqb c Walker.star || Ascii.eqb c Walker.question
  || negb (RegExpFragment.is_syntax_char c).

Definition plain (p : string) : bool := str_forall plain_char p.

(** The pattern a plain glob stands for. *)
Fixpoint pieces (p : string) : list RegExpFragment.piece :=
  match p with
  | EmptyString => []
  | String c p' =>
      (if Ascii.eqb c Walker.star
       then RegExpFragment.Many RegExpFragment.AnyChar
       else if Ascii.eqb c Walker.question
       then RegExpFragment.One RegExpFragment.AnyChar
       else RegExpFragment.One (RegExpFragment.Char c)) :: pieces p'
  end.

End Glob.

(* ===================================================================== *)
(** ** Requests, replies and the publisher's computations                 *)
(* ===================================================================== *)

Inductive http_method := GET | POST | PATCH.

(** An element of the [tree] array posted by [createTree]. *)
Record TreeEntry := {
  entry_path : string;
  entry_mode : string;
  entry_type : string;
  entry_sha : string
}.

(** The JSON bodies the publisher sends. *)
Inductive request_body :=
| NoBody
| RepositoryBody (name : string) (description : string)
                 (private : bool) (auto_init : bool)
| BlobBody (content : string) (encoding : string)
| TreeBody (base_tree : string) (tree : list TreeEntry)
| CommitBody (message : string) (parents : list string) (tree : string)
| RefUpdateBody (sha : string) (force : bool)
| RefCreateBody (ref : string) (sha : string).

Record request := {
  req_method : http_method;
  req_url : string;
  req_body : request_body;
  req_token : string                 (* Authorization: token ... *)
}.

(** The fields the publisher reads from a successful reply [res].  A
    reply has all of them, so that no property read fails. *)
Record response := {
  data_sha : string;                 (* res.data.sha *)
  data_object_sha : string;          (* res.data.object.sha *)
  data_tree_sha : string;            (* res.data.tree.sha *)
  data_login : string;               (* res.data.login *)
  data_name : string;                (* res.data.name *)
  data_full_name : string;           (* res.data.full_name *)
  data_html_url : string;            (* res.data.html_url *)
  data_clone_url : string;           (* res.data.clone_url *)
  data_owner_login : string;         (* res.data.owner.login *)
  header_oauth_scopes : option string  (* res.headers['x-oauth-scopes'] *)
}.

(** What a run leaves behind, in order. *)
Inductive event :=
| Called (rq : request) (rs : result response)
| Slept (ms : N).                    (* setTimeout(resolve, ms) *)

Section Publisher.

(** The hosting service: a state and its reaction to a request. *)
Variable service_state : Type.
Variable respond : request -> service_state -> result response * service_state.

(** A computation runs against the service and yields a result, the
    service's new state and the events of the run. *)
Definition M (A : Type) : Type :=
  service_state -> result A * service_state * list event.

Definition ret {A} (a : A) : M A := fun st => (Ok a, st, []).

Definition throw {A} (e : exn) : M A := fun st => (Throw e, st, []).

Definition bind {A B} (c : M A) (k : A -> M B) : M B :=
  fun st =>
    match c st with
    | (Ok a, st', t) =>
        match k a st' with
        | (r, st'', t') => (r, st'', t ++ t')
        end
    | (Throw e, st', t) => (Throw e, st', t)
    end.

(** [try { c } catch (error) { handler error }] *)
Definition try_catch {A} (c : M A) (handler : exn -> M A) : M A :=
  fun st =>
    match c st with
    | (Ok a, st', t) => (Ok a, st', t)
    | (Throw e, st', t) =>
        match handler e st' with
        | (r, st'', t') => (r, st'', t ++ t')
        end
    end.

Definition axios (rq : request) : M response :=
  fun st =>
    match respond rq st with
    | (rs, st') => (rs, st', [Called rq rs])
    end.

Definition sleep (ms : N) : M unit := fun st => (Ok tt, st, [Slept ms]).

Notation "x <- c ;; k" := (bind c (fun x => k))
  (at level 61, c at next level, right associativity).

Definition api (owner repo rest : string) : string :=
  "https://api.github.com/repos/" ++ owner ++ "/" ++ repo ++ rest.

Definition repositoryExists (owner repo token : string) : M bool :=
  try_catch
    (_ <- axios {| req_method := GET; req_url := api owner repo "";
                   req_body := NoBody; req_token := token |} ;;
     ret true)
    (fun error =>
       if status_is error 404 then ret false else throw error).

Definition getBranchSHA (owner repo branch token : string) : M string :=
  res <- axios {| req_method := GET;
                  req_url := api owner repo ("/git/refs/heads/" ++ branch);
                  req_body := NoBody; req_token := token |} ;;
  ret (data_object_sha res).

Definition createBlob (owner repo content token : string) : M string :=
  res <- axios {| req_method := POST;
                  req_url := api owner repo "/git/blobs";
                  req_body := BlobBody content "utf-8";
                  req_token := token |} ;;
  ret (data_sha res).

(** The loop of [createTree]: one blob per file, in order. *)
Fixpoint createTree_entries (owner repo : string) (files : list FileRecord)
    (token : string) (tree : list TreeEntry) : M (list TreeEntry) :=
  match files with
  | [] => ret tree
  | file :: rest =>
      blobSHA <- createBlob owner repo (content file) token ;;
      createTree_entries owner repo rest token
        (tree ++ [{| entry_path := path file; entry_mode := "100644";
                     entry_type := "blob"; entry_sha := blobSHA |}])
  end.

Definition createTree (owner repo baseTreeSHA : string)
    (files : list FileRecord) (token : string) : M string :=
  tree <- createTree_entries owner repo files token [] ;;
  res <- axios {| req_method := POST;
                  req_url := api owner repo "/git/trees";
                  req_body := TreeBody baseTreeSHA tree;
                  req_token := token |} ;;
  ret (data_sha res).

Definition createCommit (owner repo parentSHA treeSHA message token : string)
    : M string :=
  res <- axios {| req_method := POST;
                  req_url := api owner repo "/git/commits";
                  req_body := CommitBody message [parentSHA] treeSHA;
                  req_token := token |} ;;
  ret (data_sha res).

Definition updateBranch (owner repo branch commitSHA token : string) : M unit :=
  _ <- axios {| req_method := PATCH;
                req_url := api owner repo ("/git/refs/heads/" ++ branch);
                req_body := RefUpdateBody commitSHA true;
                req_token := token |} ;;
  ret tt.

Definition createBranch (owner repo newBranch baseSHA token : string) : M unit :=
  try_catch
    (_ <- axios {| req_method := POST;
                   req_url := api owner repo "/git/refs";
                   req_body := RefCreateBody ("refs/heads/" ++ newBranch) baseSHA;
                   req_token := token |} ;;
     ret tt)
    (fun error =>
       if status_is error 422 then ret tt else throw error).

Record repository_info := {
  name : string;
  fullName : string;
  htmlUrl : string;
  cloneUrl : string;
  owner : string
}.

Definition createRepository (name : string) (isPrivate : bool)
    (description : string) (token : string) (org : option string)
    : M repository_info :=
  let endpoint :=
    match org with
    | Some (String _ _ as o) =>
        ("https://api.github.com/orgs/" ++ o ++ "/repos")%string
    | _ => "https://api.github.com/user/repos"
    end in
  try_catch
    (res <- axios {| req_method := POST; req_url := endpoint;
                     req_body := RepositoryBody name description isPrivate true;
                     req_token := token |} ;;
     ret {| name := data_name res; fullName := data_full_name res;
            htmlUrl := data_html_url res; cloneUrl := data_clone_url res;
            owner := data_owner_login res |})
    (fun error => throw error).

Record token_info := {
  login : string;
  scopes : list string
}.

Definition comma : ascii := ascii_of_N 44.

Definition verifyToken (token : string) : M token_info :=
  try_catch
    (res <- axios {| req_method := GET;
                     req_url := "https://api.github.com/user";
                     req_body := NoBody; req_token := token |} ;;
     let scopes := or_else (header_oauth_scopes res) "" in
     ret {| login := data_login res;
            scopes := map trim (split comma scopes) |})
    (fun error =>
       throw (Error ("GitHub token verification failed: " ++ exn_message error))).

Record push_result := {
  commitSHA : string;
  repoUrl : string;
  branchUrl : string
}.

(** What the steps before validation hand to the rest. *)
Record base_info := {
  base_sha : string;                 (* baseSHA *)
  target_branch : string;            (* baseBranch, after reassignment *)
  base_tree_sha : string             (* baseTreeSHA *)
}.

(** Steps 0 and 1 of [pushFilesAsCommit]: token, repository. *)
Definition ensure_repository (owner repo token : string)
    (repoDescription : option string) : M unit :=
  _ <- verifyToken token ;;
  exists_ <- repositoryExists owner repo token ;;
  if negb exists_ then
    _ <- createRepository repo false
           (or_else repoDescription "Generated repository from v0")
           token None ;;
    sleep 2000
  else ret tt.

(** Steps 2 and 3, with the branch creation between them. *)
Definition resolve_base (owner repo baseBranch : string)
    (newBranch : option string) (token : string) : M base_info :=
  baseSHA <- getBranchSHA owner repo baseBranch token ;;
  baseBranch' <-
    match newBranch with
    | Some (String _ _ as nb) =>
        _ <- createBranch owner repo nb baseSHA token ;;
        ret nb
    | _ => ret baseBranch
    end ;;
  res <- axios {| req_method := GET;
                  req_url := api owner repo ("/git/commits/" ++ baseSHA);
                  req_body := NoBody; req_token := token |} ;;
  ret {| base_sha := baseSHA; target_branch := baseBranch';
         base_tree_sha := data_tree_sha res |}.

(** Validation and steps 4 to 6. *)
Definition commit_files (owner repo : string) (base : base_info)
    (files : list FileRecord) (commitMessage token : string) : M push_result :=
  let validatedFiles := Validator.validate files in
  match validatedFiles with
  | [] => throw (Error "No valid files to commit after validation")
  | _ =>
      newTreeSHA <- createTree owner repo (base_tree_sha base)
                      validatedFiles token ;;
      commitSHA <- createCommit owner repo (base_sha base) newTreeSHA
                     commitMessage token ;;
      _ <- updateBranch owner repo (target_branch base) commitSHA token ;;
      ret {| commitSHA := commitSHA;
             repoUrl := "https://github.com/" ++ owner ++ "/" ++ repo;
             branchUrl := "https://github.com/" ++ owner ++ "/" ++ repo
                          ++ "/tree/" ++ target_branch base |}
  end.

(** One entry of the [Details:] line of a 422. *)
Definition describe_detail (e : api_error_detail) : string :=
  (or_else (err_resource e) "unknown" ++ ": "
   ++ or_else (err_message e) (or_else (err_code e) (err_json e)))%string.

(** The outer [catch] of [pushFilesAsCommit]. *)
Definition push_catch {A} (error : exn) : M A :=
  match error with
  | AxiosError _ (Some r) =>
      if status_is error 422 then
        let errorMsg := or_else (data_message r) "Validation failed" in
        let errors := match data_errors r with Some l => l | None => [] end in
        let detailedError :=
          ("GitHub API validation error: " ++ errorMsg)%string in
        let detailedError :=
          match errors with
          | [] => detailedError
          | _ => (detailedError ++ String (ascii_of_N 10) "Details: "
                    ++ join ", " (map describe_detail errors))%string
          end in
        throw (Error detailedError)
      else throw error
  | _ => throw error
  end.

Definition pushFilesAsCommit (owner repo baseBranch : string)
    (newBranch : option string) (files : list FileRecord)
    (commitMessage token : string) (repoDescription : option string)
    : M push_result :=
  try_catch
    (_ <- ensure_repository owner repo token repoDescription ;;
     base <- resolve_base owner repo baseBranch newBranch token ;;
     commit_files owner repo base files commitMessage token)
    push_catch.

(** Every event of every run of [c] satisfies [P]. *)
Definition emits_only {A} (P : event -> Prop) (c : M A) : Prop :=
  forall st, Forall P (snd (c st)).

(** A computation that never returns normally. *)
Definition always_throws {A} (c : M A) : Prop :=
  forall st, exists e, fst (fst (c st)) = Throw e.

End Publisher.

(** Events by what they do to the object graph. *)
Definition posts_blob (ev : event) : bool :=
  match ev with
  | Called rq _ => match req_body rq with BlobBody _ _ => true | _ => false end
  | Slept _ => false
  end.

Definition posts_tree (ev : event) : bool :=
  match ev with
  | Called rq _ => match req_body rq with TreeBody _ _ => true | _ => false end
  | Slept _ => false
  end.

Definition posts_commit (ev : event) : bool :=
  match ev with
  | Called rq _ =>
      match req_body rq with CommitBody _ _ _ => true | _ => false end
  | Slept _ => false
  end.

Definition updates_ref (ev : event) : bool :=
  match ev with
  | Called rq _ =>
      match req_body rq with RefUpdateBody _ _ => true | _ => false end
  | Slept _ => false
  end.

Definition writes_object (ev : event) : bool :=
  posts_blob ev || posts_tree ev || posts_commit ev || updates_ref ev.

(** A blob is posted as utf-8, if [ev] posts a blob at all. *)
Definition blob_is_utf8 (ev : event) : bool :=
  match ev with
  | Called rq _ =>
      match req_body rq with
      | BlobBody _ encoding => String.eqb encoding "utf-8"
      | _ => true
      end
  | Slept _ => true
  end.

(** [hay.includes(needle)] *)
Fixpoint contains (needle hay : string) : bool :=
  String.prefix needle hay
  || match hay with
     | String _ hay' => contains needle hay'
     | EmptyString => false
     end.

(** An error of the core's own whose message says the repository is
    empty, as opposed to the error of the transport. *)
Definition says_repository_is_empty (e : exn) : bool :=
  match e with
  | Error message => contains "empty" message
  | _ => false
  end.

Arguments ret {service_state A} a.
Arguments throw {service_state A} e.

(* ===================================================================== *)
(** ** Small services to run the code against                             *)
(* ===================================================================== *)

Module Example.

Definition ok_response : response :=
  {| data_sha := "5ha"; data_object_sha := "head0"; data_tree_sha := "tree0";
     data_login := "octo"; data_name := "demo"; data_full_name := "octo/demo";
     data_html_url := "https://github.com/octo/demo";
     data_clone_url := "https://github.com/octo/demo.git";
     data_owner_login := "octo"; header_oauth_scopes := Some "repo, gist" |}.

Definition rejected (code : N) (message : string) : exn :=
  AxiosError ("Request failed with status code " ++ message)
    (Some {| status := code; data_message := None; data_errors := None |}).

(** A service that remembers which refs exist: creating a ref that exists
    is refused with 422 and changes nothing, everything else succeeds. *)
Definition ref_store (rq : request) (refs : list string)
    : result response * list string :=
  match req_method rq, req_body rq with
  | POST, RefCreateBody ref _ =>
      if includes refs ref then (Throw (rejected 422 "422"), refs)
      else (Ok ok_response, ref :: refs)
  | _, _ => (Ok ok_response, refs)
  end.

(** A service for a repository without commits: reading a branch head is
    refused with 409. *)
Definition empty_repository (rq : request) (st : unit)
    : result response * unit :=
  match req_method rq with
  | GET =>
      if String.eqb (req_url rq)
           "https://api.github.com/repos/octo/demo/git/refs/heads/main"
      then (Throw (rejected 409 "409"), st)
      else (Ok ok_response, st)
  | _ => (Ok ok_response, st)
  end.

Definition blob_item (p : string) : Walker.tree_item :=
  {| Walker.item_path := p; Walker.item_type := "blob";
     Walker.item_url := "https://api.github.com/repos/octo/demo/git/blobs/" ++ p |}.

Definition three_files : list Walker.tree_item :=
  [blob_item "a.ts"; blob_item "b.py"; blob_item "c.md"].

Definition get_tree (tree : list Walker.tree_item) (url token : string)
    : result (list Walker.tree_item) := Ok tree.

(** Every blob read succeeds, except the one of [broken]. *)
Definition get_blob (broken : string) (url token : string)
    : result Walker.blob_data :=
  if String.eqb url (Walker.item_url (blob_item broken))
  then Throw (rejected 500 "500")
  else Ok {| Walker.blob_size := 7; Walker.blob_content := "Y29udGVudA==" |}.

(** A decoder that answers [content] whatever it is given. *)
Definition decode (c : string) : result string := Ok "content".

Definition only_extensions (exts : list string) : Walker.FetchRepositoryConfig :=
  {| Walker.includeExtensions := Some exts; Walker.excludePatterns := None;
     Walker.maxFileSize := None; Walker.includeBinary := None;
     Walker.customFilter := None |}.

Definition filtered_by (f : string -> string -> attempt bool)
    : Walker.FetchRepositoryConfig :=
  {| Walker.includeExtensions := None; Walker.excludePatterns := None;
     Walker.maxFileSize := None; Walker.includeBinary := None;
     Walker.customFilter := Some f |}.

Definition only_patterns (patterns : list string) : Walker.FetchRepositoryConfig :=
  {| Walker.includeExtensions := None; Walker.excludePatterns := Some patterns;
     Walker.maxFileSize := None; Walker.includeBinary := None;
     Walker.customFilter := None |}.

End Example.

(* ===================================================================== *)
(** ** The rest of the object store client                                *)
(* ===================================================================== *)

Section Client.

Variable service_state : Type.
Variable respond : request -> service_state -> result response * service_state.

Definition getCommitTreeSHA (owner repo commitSHA token : string)
    : M service_state string :=
  bind (axios respond
          {| req_method := GET;
             req_url := api owner repo ("/git/commits/" ++ commitSHA);
             req_body := NoBody; req_token := token |})
       (fun res => ret (data_tree_sha res)).

Definition commitFilesToBranch (owner repo branch : string)
    (files : list FileRecord) (message token : string)
    : M service_state string :=
  bind (getBranchSHA respond owner repo branch token) (fun baseSHA =>
  bind (getCommitTreeSHA owner repo baseSHA token) (fun baseTreeSHA =>
  bind (createTree respond owner repo baseTreeSHA files token) (fun newTreeSHA =>
  bind (createCommit respond owner repo baseSHA newTreeSHA message token)
       (fun commitSHA =>
  bind (updateBranch respond owner repo branch commitSHA token) (fun _ =>
  ret commitSHA))))).

(** [GITHUB_TOKEN] is [process.env.GITHUB_TOKEN]. *)
Definition getGithubOwner (GITHUB_TOKEN : option string)
    : M service_state string :=
  match GITHUB_TOKEN with
  | Some (String _ _ as token) =>
      try_catch
        (bind (verifyToken respond token) (fun info => ret (login info)))
        (fun error => throw error)
  | _ => throw (Error "GITHUB_TOKEN is not set")
  end.

End Client.

(** ** Requests and events by name *)

Definition user_request (token : string) : request :=
  {| req_method := GET; req_url := "https://api.github.com/user";
     req_body := NoBody; req_token := token |}.

Definition repository_request (owner repo token : string) : request :=
  {| req_method := GET; req_url := api owner repo "";
     req_body := NoBody; req_token := token |}.

Definition head_request (owner repo branch token : string) : request :=
  {| req_method := GET;
     req_url := api owner repo ("/git/refs/heads/" ++ branch);
     req_body := NoBody; req_token := token |}.

Definition commit_request (owner repo commitSHA token : string) : request :=
  {| req_method := GET;
     req_url := api owner repo ("/git/commits/" ++ commitSHA);
     req_body := NoBody; req_token := token |}.

Definition blob_post (owner repo token content : string) : request :=
  {| req_method := POST; req_url := api owner repo "/git/blobs";
     req_body := BlobBody content "utf-8"; req_token := token |}.

Definition tree_post (owner repo token baseTreeSHA : string)
    (tree : list TreeEntry) : request :=
  {| req_method := POST; req_url := api owner repo "/git/trees";
     req_body := TreeBody baseTreeSHA tree; req_token := token |}.

Definition commit_post (owner repo token message parentSHA treeSHA : string)
    : request :=
  {| req_method := POST; req_url := api owner repo "/git/commits";
     req_body := CommitBody message [parentSHA] treeSHA;
     req_token := token |}.

Definition ref_patch (owner repo token branch commitSHA : string) : request :=
  {| req_method := PATCH;
     req_url := api owner repo ("/git/refs/heads/" ++ branch);
     req_body := RefUpdateBody commitSHA true; req_token := token |}.

Definition ref_post (owner repo token newBranch baseSHA : string) : request :=
  {| req_method := POST; req_url := api owner repo "/git/refs";
     req_body := RefCreateBody ("refs/heads/" ++ newBranch) baseSHA;
     req_token := token |}.

Definition repository_post (name description token : string) : request :=
  {| req_method := POST; req_url := "https://api.github.com/user/repos";
     req_body := RepositoryBody name description false true;
     req_token := token |}.

(** The successful blob posts of [files], answered by [replies] in turn,
    and the tree entries they give. *)
Definition blob_calls (owner repo token : string)
    (files : list FileRecord) (replies : list response) : list event :=
  map (fun fr => Called (blob_post owner repo token (content (fst fr)))
                   (Ok (snd fr)))
      (combine files replies).

Definition tree_entries (files : list FileRecord) (replies : list response)
    : list TreeEntry :=
  map (fun fr => {| entry_path := path (fst fr); entry_mode := "100644";
                    entry_type := "blob"; entry_sha := data_sha (snd fr) |})
      (combine files replies).

Definition creates_ref (ev : event) : bool :=
  match ev with
  | Called rq _ =>
      match req_body rq with RefCreateBody _ _ => true | _ => false end
  | Slept _ => false
  end.

Definition creates_repository (ev : event) : bool :=
  match ev with
  | Called rq _ =>
      match req_body rq with RepositoryBody _ _ _ _ => true | _ => false end
  | Slept _ => false
  end.

Definition is_blob_item (item : Walker.tree_item) : bool :=
  String.eqb (Walker.item_type item) "blob".

(* ===================================================================== *)
(** ** The task file of [src/lib/tasks.ts]                                *)
(* ===================================================================== *)

(** What the file parses to is [null] or a value whose [tasks] may be
    missing; the elements of a [tasks] array are taken to be what the
    interfaces [Task] and [Subtask] describe.  The file system, the JSON
    codec and the clock are parameters. *)
Module Tasks.

Inductive task_status := pending | completed | in_progress.

Definition status_eqb (a b : task_status) : bool :=
  match a, b with
  | pending, pending | completed, completed | in_progress, in_progress => true
  | _, _ => false
  end.

Inductive task_group := core | ui | functionality.

(** [string | number]; a number is given by its [toString()]. *)
Inductive task_id :=
| IdString (s : string)
| IdNumber (text : string).

Definition id_toString (i : task_id) : string :=
  match i with IdString s => s | IdNumber text => text end.

Record Subtask := {
  sub_id : string;
  sub_title : string;
  sub_status : task_status;
  sub_completedAt : option string;
  sub_notes : option string
}.

Record Task := {
  id : task_id;
  title : string;
  status : task_status;
  subtasks : option (list Subtask);
  createdAt : option string;
  updatedAt : option string;
  description : option string;
  dependencies : option (list task_id);
  group : option task_group;
  notes : option string
}.

Record TasksData := {
  tasks : list Task;
  lastUpdated : option string
}.

(** A value of which [JSON.parse] lets properties be read:
    [parsed_tasks] is [None] when [tasks] is missing, falsy or not an
    array, as for a number, a string, an array or an object without that
    key. *)
Record parsed_file := {
  parsed_tasks : option (list Task);
  parsed_lastUpdated : option string
}.

(** What [JSON.parse] gives for the file: [null], of which no property
    can be read, or another value. *)
Inductive parsed :=
| ParsedNull
| Parsed (file : parsed_file).

Record UpdateSubtaskOptions := {
  tasksPath : option string;
  subtaskId : string;
  completionTime : option string;
  option_notes : option string
}.

Definition DEFAULT_TASKS_PATH : string := "./tasks.json".

(** What a call leaves behind: its result and the writes it attempted. *)
Record run (A : Type) := {
  outcome : result A;
  written : list (string * TasksData)
}.

Definition dquote : ascii := ascii_of_N 34.

(** Whether the update finds something to complete in [task]: one of its
    subtasks when it has any, the task itself otherwise. *)
Definition task_matches (subtaskId : string) (task : Task) : bool :=
  match subtasks task with
  | Some ((_ :: _) as subs) =>
      existsb (fun st => String.eqb (sub_id st) subtaskId) subs
  | _ => String.eqb (id_toString (id task)) subtaskId
  end.

Definition has_subtasks (task : Task) : bool :=
  match subtasks task with
  | Some (_ :: _) => true
  | _ => false
  end.

Section WithFileSystem.

(** - [existsSync p];
    - [read_file p]: [JSON.parse(readFileSync(p, 'utf-8'))];
    - [write_file p d]: [writeFileSync(p, JSON.stringify(d, null, 2), 'utf-8')];
    - [clock n]: the [n]-th [new Date().toISOString()] of the call. *)
Variable existsSync : string -> bool.
Variable read_file : string -> result parsed.
Variable write_file : string -> TasksData -> result unit.
Variable clock : nat -> string.

(** The callback of [task.subtasks.map]. *)
Definition complete_subtask (subtaskId completionTime : string)
    (notes : option string) (subtask : Subtask) : Subtask :=
  if String.eqb (sub_id subtask) subtaskId then
    {| sub_id := sub_id subtask;
       sub_title := sub_title subtask;
       sub_status := completed;
       sub_completedAt := Some completionTime;
       sub_notes := match notes with
                    | Some (String _ _ as n) => Some n
                    | _ => sub_notes subtask
                    end |}
  else subtask.

(** The callback of [tasksData.tasks.map], with the flag [subtaskFound]
    and the number of clock readings so far threaded through. *)
Definition complete_in_task (subtaskId completionTime : string)
    (notes : option string) (task : Task) (found : bool) (ticks : nat)
    : Task * bool * nat :=
  match subtasks task with
  | Some ((_ :: _) as subs) =>
      let updatedSubtasks :=
        map (complete_subtask subtaskId completionTime notes) subs in
      let found' :=
        found || existsb (fun st => String.eqb (sub_id st) subtaskId) subs in
      let allSubtasksCompleted :=
        forallb (fun st => status_eqb (sub_status st) completed)
          updatedSubtasks in
      let anySubtaskInProgress :=
        existsb (fun st => status_eqb (sub_status st) in_progress)
          updatedSubtasks in
      let newTaskStatus :=
        if allSubtasksCompleted && negb (status_eqb (status task) completed)
        then completed
        else if anySubtaskInProgress && status_eqb (status task) pending
        then in_progress
        else status task in
      ({| id := id task; title := title task; status := newTaskStatus;
          subtasks := Some updatedSubtasks; createdAt := createdAt task;
          updatedAt := Some (clock ticks);
          description := description task;
          dependencies := dependencies task; group := group task;
          notes := Tasks.notes task |},
       found', S ticks)
  | _ =>
      if String.eqb (id_toString (id task)) subtaskId then
        ({| id := id task; title := title task; status := completed;
            subtasks := subtasks task; createdAt := createdAt task;
            updatedAt := Some (clock ticks);
            description := description task;
            dependencies := dependencies task; group := group task;
            notes := match notes with
                     | Some (String _ _ as n) =>
                         match Tasks.notes task with
                         | Some (String _ _ as old) =>
                             Some (old ++ String (ascii_of_N 10) n)%string
                         | _ => Some n
                         end
                     | _ => Tasks.notes task
                     end |},
         true, S ticks)
      else (task, found, ticks)
  end.

Fixpoint complete_in_tasks (subtaskId completionTime : string)
    (notes : option string) (l : list Task) (found : bool) (ticks : nat)
    : list Task * bool * nat :=
  match l with
  | [] => ([], found, ticks)
  | task :: rest =>
      match complete_in_task subtaskId completionTime notes task found ticks
      with
      | (task', found', ticks') =>
          match complete_in_tasks subtaskId completionTime notes rest
                  found' ticks' with
          | (rest', found'', ticks'') => (task' :: rest', found'', ticks'')
          end
      end
  end.

Definition updateSubtaskCompleted (options : UpdateSubtaskOptions)
    : run TasksData :=
  let tasksPath :=
    match tasksPath options with Some p => p | None => DEFAULT_TASKS_PATH end in
  let '(completionTime, ticks) :=
    match completionTime options with
    | Some t => (t, 0)
    | None => (clock 0, 1)
    end in
  if negb (existsSync tasksPath) then
    {| outcome := Throw (Error ("Tasks file not found at path: " ++ tasksPath));
       written := [] |}
  else
    match read_file tasksPath with
    | Throw error =>
        {| outcome := Throw (Error ("Failed to parse tasks.json file: "
                                    ++ exn_message error));
           written := [] |}
    | Ok ParsedNull =>
        (* [tasksData.tasks], read outside the [try] *)
        {| outcome :=
             Throw (TypeError "Cannot read properties of null (reading 'tasks')");
           written := [] |}
    | Ok (Parsed tasksData) =>
        match parsed_tasks tasksData with
        | None =>
            {| outcome :=
                 Throw (Error "Invalid tasks.json structure: missing or invalid tasks array");
               written := [] |}
        | Some l =>
            match complete_in_tasks (subtaskId options) completionTime
                    (option_notes options) l false ticks with
            | (updatedTasks, subtaskFound, ticks') =>
                if negb subtaskFound then
                  {| outcome :=
                       Throw (Error ("Task or subtask with ID "
                                     ++ String dquote (subtaskId options)
                                     ++ String dquote " not found"));
                     written := [] |}
                else
                  let updatedTasksData :=
                    {| tasks := updatedTasks;
                       lastUpdated := Some (clock ticks') |} in
                  match write_file tasksPath updatedTasksData with
                  | Throw error =>
                      {| outcome :=
                           Throw (Error ("Failed to write updated tasks.json file: "
                                         ++ exn_message error));
                         written := [(tasksPath, updatedTasksData)] |}
                  | Ok _ =>
                      {| outcome := Ok updatedTasksData;
                         written := [(tasksPath, updatedTasksData)] |}
                  end
            end
        end
    end.

(** [initialData] is a [Partial<TasksData>]: each key may be absent. *)
Definition createTasksFile (tasksPath : option string)
    (initialData : option (option (list Task) * option string))
    : run TasksData :=
  let tasksPath :=
    match tasksPath with Some p => p | None => DEFAULT_TASKS_PATH end in
  let tasksData :=
    {| tasks := match initialData with
                | Some (Some l, _) => l
                | _ => []
                end;
       lastUpdated := match initialData with
                      | Some (_, Some t) => Some t
                      | _ => Some (clock 0)
                      end |} in
  match write_file tasksPath tasksData with
  | Throw error =>
      {| outcome := Throw (Error ("Failed to create tasks.json file: "
                                  ++ exn_message error));
         written := [(tasksPath, tasksData)] |}
  | Ok _ => {| outcome := Ok tasksData; written := [(tasksPath, tasksData)] |}
  end.

Definition readTasksFile (tasksPath : option string) : result parsed :=
  let tasksPath :=
    match tasksPath with Some p => p | None => DEFAULT_TASKS_PATH end in
  if negb (existsSync tasksPath) then
    Throw (Error ("Tasks file not found at path: " ++ tasksPath))
  else
    match read_file tasksPath with
    | Ok d => Ok d
    | Throw error =>
        Throw (Error ("Failed to read or parse tasks.json file: "
                      ++ exn_message error))
    end.

End WithFileSystem.

End Tasks.

(** A small task file to run the code on. *)
Module TasksExample.

Definition install : Tasks.Subtask :=
  {| Tasks.sub_id := "1.1"; Tasks.sub_title := "Install";
     Tasks.sub_status := Tasks.completed;
     Tasks.sub_completedAt := Some "2024-12-31T10:00:00.000Z";
     Tasks.sub_notes := None |}.

Definition configure : Tasks.Subtask :=
  {| Tasks.sub_id := "1.2"; Tasks.sub_title := "Configure";
     Tasks.sub_status := Tasks.pending;
     Tasks.sub_completedAt := None; Tasks.sub_notes := None |}.

Definition setup : Tasks.Task :=
  {| Tasks.id := Tasks.IdNumber "1"; Tasks.title := "Set up";
     Tasks.status := Tasks.pending;
     Tasks.subtasks := Some [install; configure];
     Tasks.createdAt := None; Tasks.updatedAt := None;
     Tasks.description := None; Tasks.dependencies := None;
     Tasks.group := Some Tasks.core; Tasks.notes := None |}.

Definition docs : Tasks.Task :=
  {| Tasks.id := Tasks.IdString "docs"; Tasks.title := "Write the docs";
     Tasks.status := Tasks.pending; Tasks.subtasks := None;
     Tasks.createdAt := None; Tasks.updatedAt := None;
     Tasks.description := None;
     Tasks.dependencies := Some [Tasks.IdNumber "1"];
     Tasks.group := None; Tasks.notes := None |}.

Definition file : Tasks.parsed_file :=
  {| Tasks.parsed_tasks := Some [setup; docs];
     Tasks.parsed_lastUpdated := None |}.

Definition present (p : string) : bool := true.
Definition read (p : string) : result Tasks.parsed :=
  Ok (Tasks.Parsed file).
Definition write (p : string) (d : Tasks.TasksData) : result unit := Ok tt.
Definition clock (n : nat) : string := String (ascii_of_nat (48 + n)) "".

Definition finish (i : string) : Tasks.UpdateSubtaskOptions :=
  {| Tasks.tasksPath := None; Tasks.subtaskId := i;
     Tasks.completionTime := Some "2025-01-01T00:00:00.000Z";
     Tasks.option_notes := None |}.

End TasksExample.

(* ===================================================================== *)
(** * Properties                                                          *)
(* ===================================================================== *)

(** ** Strings *)

Lemma occurs_append c s t :
  occurs c (s ++ t)%string <-> occurs c s \/ occurs c t.
Proof.
  induction s as [|d s IH]; simpl.
  - tauto.
  - rewrite IH. tauto.
Qed.

Lemma str_exists_false p s :
  str_exists p s = false <-> (forall c, occurs c s -> p c = false).
Proof.
  induction s as [|d s IH]; simpl.
  - split; [intros _ c [] | reflexivity].
  - rewrite orb_false_iff, IH. split.
    + intros [Hd Hs] c [<-|Hc]; auto.
    + intros H. split; [apply H; now left | intros c Hc; apply H; now right].
Qed.

Lemma occurs_trimStart c s : occurs c (trimStart s) -> occurs c s.
Proof.
  induction s as [|d s IH]; simpl; auto.
  destruct (is_whitespace d); simpl; auto.
Qed.

Lemma occurs_trimEnd c s : occurs c (trimEnd s) -> occurs c s.
Proof.
  induction s as [|d s IH]; simpl; auto.
  destruct (trimEnd s) as [|e t] eqn:E.
  - destruct (is_whitespace d); simpl; tauto.
  - simpl. intros [H|H]; auto.
Qed.

Lemma occurs_trim c s : occurs c (trim s) -> occurs c s.
Proof.
  intros H. now apply occurs_trimStart, occurs_trimEnd.
Qed.

Lemma occurs_replaceAll_char c b r s :
  occurs c (replaceAll b (String r "") s) ->
  c = r \/ (occurs c s /\ c <> b).
Proof.
  induction s as [|d s IH]; simpl; [tauto|].
  destruct (Ascii.eqb d b) eqn:E; simpl.
  - intros [H|H]; [now left | destruct (IH H); tauto].
  - apply Ascii.eqb_neq in E.
    intros [H|H]; [subst; right; split; auto | destruct (IH H); tauto].
Qed.

Lemma trimEnd_empty s :
  trimEnd s = "" <-> str_forall is_whitespace s = true.
Proof.
  induction s as [|d s IH]; simpl; [tauto|].
  destruct (trimEnd s) as [|e t] eqn:E.
  - destruct (is_whitespace d); simpl.
    + tauto.
    + split; discriminate.
  - split; [discriminate|].
    rewrite andb_true_iff. intros [_ H]. apply IH in H. discriminate.
Qed.

Lemma trimStart_forall s :
  str_forall is_whitespace (trimStart s) = str_forall is_whitespace s.
Proof.
  induction s as [|d s IH]; simpl; auto.
  destruct (is_whitespace d) eqn:E; simpl; auto.
  now rewrite E.
Qed.

Lemma trim_empty s :
  trim s = "" <-> str_forall is_whitespace s = true.
Proof.
  unfold trim. now rewrite trimEnd_empty, trimStart_forall.
Qed.

Lemma trimEnd_idempotent s : trimEnd (trimEnd s) = trimEnd s.
Proof.
  induction s as [|d s IH]; simpl; auto.
  destruct (trimEnd s) as [|e t] eqn:E.
  - destruct (is_whitespace d) eqn:W; simpl; auto. now rewrite W.
  - change (trimEnd (String d (String e t)))
      with (match trimEnd (String e t) with
            | EmptyString =>
                if is_whitespace d then EmptyString else String d EmptyString
            | u => String d u
            end).
    now rewrite IH.
Qed.

(** A string that does not start with whitespace keeps its first
    character through [trimEnd]. *)
Lemma trimStart_trimEnd_trimStart s :
  trimStart (trimEnd (trimStart s)) = trimEnd (trimStart s).
Proof.
  induction s as [|d s IH]; simpl; auto.
  destruct (is_whitespace d) eqn:W; auto.
  simpl. destruct (trimEnd s) as [|e t]; rewrite ?W; simpl; now rewrite W.
Qed.

Lemma trim_idempotent s : trim (trim s) = trim s.
Proof.
  unfold trim.
  now rewrite trimStart_trimEnd_trimStart, trimEnd_idempotent.
Qed.

Lemma length_zero_empty s : String.length s = 0 <-> s = "".
Proof. destruct s; simpl; split; congruence. Qed.

(** ** The File Validator *)

Lemma replace_backslash_keeps_text s :
  str_forall is_whitespace (replaceAll Validator.backslash "/" s) = true ->
  str_forall is_whitespace s = true.
Proof.
  induction s as [|d s IH]; simpl; auto.
  destruct (Ascii.eqb d Validator.backslash) eqn:E; simpl.
  - discriminate.
  - rewrite !andb_true_iff. intros [? ?]; auto.
Qed.

Lemma keep_true file :
  Validator.keep file = true ->
  trim (content file) <> "" /\ trim (path file) <> "" /\
  str_exists Validator.invalidChars (path file) = false.
Proof.
  unfold Validator.keep.
  destruct (Validator.is_empty (content file)
            || Nat.eqb (String.length (trim (content file))) 0) eqn:C;
    [discriminate|].
  destruct (Validator.is_empty (path file)
            || Nat.eqb (String.length (trim (path file))) 0) eqn:P;
    [discriminate|].
  destruct (str_exists Validator.invalidChars (path file)) eqn:I;
    [discriminate|].
  apply orb_false_iff in C as [_ C], P as [_ P].
  apply Nat.eqb_neq in C, P.
  rewrite length_zero_empty in C, P. auto.
Qed.

Lemma invalidChars_spec c :
  Validator.invalidChars c = false ->
  ~ In c PathCharacters.invalid_punctuation
  /\ PathCharacters.is_c0_control c = false.
Proof.
  destruct c as [[] [] [] [] [] [] [] []]; intros H;
    try discriminate H;
    (split; [|reflexivity]);
    intros Hin; simpl in Hin;
    repeat (destruct Hin as [Hin|Hin]; [discriminate Hin|]); exact Hin.
Qed.

(** C4, as the code has it: every record that leaves the validator has a
    non-empty path, content that is not only whitespace, a path without
    any of the seven punctuation marks and without any control character
    of the range x00-x1F, no backslash in its path, and a path that
    trimming leaves as it is.  Control characters above that range are
    not covered. *)
Theorem validated_records_are_well_formed :
  forall files r,
    In r (Validator.validate files) ->
    path r <> "" /\
    content r <> "" /\ trim (content r) <> "" /\
    (forall c, occurs c (path r) ->
               ~ In c PathCharacters.invalid_punctuation
               /\ PathCharacters.is_c0_control c = false) /\
    ~ occurs Validator.backslash (path r) /\
    trim (path r) = path r.
Proof.
  intros files r Hin.
  unfold Validator.validate in Hin.
  apply in_map_iff in Hin as (f & <- & Hf).
  apply filter_In in Hf as [_ Hk].
  apply keep_true in Hk as (Hc & Hp & Hi).
  simpl. repeat split.
  - rewrite trim_empty. intros H.
    apply replace_backslash_keeps_text in H.
    apply Hp. now apply trim_empty.
  - intros E. apply Hc. now rewrite E.
  - exact Hc.
  - apply occurs_trim, occurs_replaceAll_char in H.
    destruct H as [->|[Hoc _]].
    + intros Hin. simpl in Hin.
      repeat (destruct Hin as [Hin|Hin]; [discriminate Hin|]). exact Hin.
    + apply invalidChars_spec.
      now apply (proj1 (str_exists_false _ _) Hi).
  - apply occurs_trim, occurs_replaceAll_char in H.
    destruct H as [->|[Hoc _]]; [reflexivity|].
    apply invalidChars_spec.
    now apply (proj1 (str_exists_false _ _) Hi).
  - intros Hoc. apply occurs_trim, occurs_replaceAll_char in Hoc.
    destruct Hoc as [H|[_ H]]; [discriminate | now apply H].
  - apply trim_idempotent.
Qed.

Lemma validated_records_are_well_formed_witness :
  let r := {| path := "src/lib/git.ts"; content := "export" |} in
  In r (Validator.validate
          [ {| path := " src\lib\git.ts "; content := "export" |};
            {| path := "a?.ts"; content := "x" |} ]) /\
  path r <> "" /\ ~ occurs Validator.backslash (path r).
Proof.
  intros r.
  assert (H : In r (Validator.validate
          [ {| path := " src\lib\git.ts "; content := "export" |};
            {| path := "a?.ts"; content := "x" |} ])) by (left; reflexivity).
  split; [exact H|].
  destruct (validated_records_are_well_formed _ _ H) as (H1 & _ & _ & _ & H5 & _).
  split; assumption.
Defined.

(** C4, as the claim words it, fails: DEL is a control character, and a
    record whose path has it passes the validator with that path. *)
Lemma delete_character_passes_the_validator :
  In {| path := String "a" (String (ascii_of_N 127) ".ts"); content := "x" |}
     (Validator.validate
        [ {| path := String "a" (String (ascii_of_N 127) ".ts");
             content := "x" |} ])
  /\ occurs (ascii_of_N 127) (String "a" (String (ascii_of_N 127) ".ts"))
  /\ PathCharacters.is_control (ascii_of_N 127) = true.
Proof.
  split; [left; reflexivity|].
  split; [right; left; reflexivity | reflexivity].
Qed.

(** So does every control character above the range of the source's
    class, U+007F to U+009F. *)
Lemma higher_control_characters_pass c :
  PathCharacters.is_control c = true ->
  PathCharacters.is_c0_control c = false ->
  Validator.validate
    [ {| path := String "a" (String c ".ts"); content := "x" |} ]
  = [ {| path := String "a" (String c ".ts"); content := "x" |} ].
Proof.
  destruct c as [[] [] [] [] [] [] [] []]; intros H1 H2;
    try discriminate H1; try discriminate H2; reflexivity.
Qed.

(** ** The walker: the loop *)

Section WalkerFacts.

Variable axios_get_blob : string -> string -> result Walker.blob_data.
Variable RegExp_test : string -> string -> result bool.
Variable Buffer_decode : string -> result string.
Variable token : string.
Variable config : Walker.FetchRepositoryConfig.

Abbreviation try_entry :=
  (Walker.try_entry axios_get_blob RegExp_test Buffer_decode token config).
Abbreviation walk_step :=
  (Walker.walk_step axios_get_blob RegExp_test Buffer_decode token config).
Abbreviation contribution :=
  (Walker.contribution axios_get_blob RegExp_test Buffer_decode token config).
Abbreviation stops_at :=
  (Walker.stops_at axios_get_blob RegExp_test Buffer_decode token config).
Abbreviation first_stop :=
  (Walker.first_stop axios_get_blob RegExp_test Buffer_decode token config).
Abbreviation walk_from :=
  (Walker.walk_from axios_get_blob RegExp_test Buffer_decode token config).
Abbreviation walk :=
  (Walker.walk axios_get_blob RegExp_test Buffer_decode token config).

Lemma walk_step_contribution acc item :
  walk_step acc item =
  match stops_at item with
  | Some e => Throw e
  | None =>
      Ok {| Walker.files := Walker.files acc ++ fst (contribution item);
            Walker.skippedCount :=
              Walker.skippedCount acc + snd (contribution item) |}
  end.
Proof.
  unfold Walker.walk_step, Walker.contribution, Walker.stops_at.
  destruct (String.eqb (Walker.item_type item) "blob").
  - destruct (try_entry item) as [[why|f]|[e| | |]]; simpl;
      rewrite ?app_nil_r, ?Nat.add_0_r, ?Nat.add_1_r; reflexivity.
  - destruct acc; simpl. now rewrite app_nil_r, Nat.add_0_r.
Qed.

Lemma walk_from_spec tree :
  forall acc,
    walk_from tree acc =
    match first_stop tree with
    | Some e => Throw e
    | None =>
        Ok {| Walker.files :=
                Walker.files acc
                ++ flat_map (fun i => fst (contribution i)) tree;
              Walker.skippedCount :=
                Walker.skippedCount acc
                + list_sum (map (fun i => snd (contribution i)) tree) |}
    end.
Proof.
  induction tree as [|item tree IH]; intros acc; simpl.
  - destruct acc; simpl. now rewrite app_nil_r, Nat.add_0_r.
  - rewrite walk_step_contribution.
    destruct (stops_at item) as [e|]; simpl; [reflexivity|].
    rewrite IH. destruct (first_stop tree); [reflexivity|]. simpl.
    now rewrite <- app_assoc, Nat.add_assoc.
Qed.

Lemma walk_spec tree :
  walk tree =
  match first_stop tree with
  | Some e => Throw e
  | None =>
      Ok {| Walker.files := flat_map (fun i => fst (contribution i)) tree;
            Walker.skippedCount :=
              list_sum (map (fun i => snd (contribution i)) tree) |}
  end.
Proof. unfold Walker.walk. now rewrite walk_from_spec. Qed.

Lemma walk_ok tree w :
  walk tree = Ok w ->
  Walker.files w = flat_map (fun i => fst (contribution i)) tree
  /\ Walker.skippedCount w
     = list_sum (map (fun i => snd (contribution i)) tree).
Proof.
  rewrite walk_spec. destruct (first_stop tree); [discriminate|].
  intros H. inversion H. auto.
Qed.


(** The loop runs to its end when no entry throws [null] or
    [undefined]. *)
Lemma walk_returns tree :
  (forall item, In item tree ->
                try_entry item <> Raised Null
                /\ try_entry item <> Raised Undefined) ->
  exists w, walk tree = Ok w.
Proof.
  intros H. rewrite walk_spec.
  assert (Hs : first_stop tree = None).
  { induction tree as [|item tree IH]; [reflexivity|]. simpl.
    assert (E : stops_at item = None).
    { unfold Walker.stops_at.
      destruct (String.eqb _ "blob"); [|reflexivity].
      destruct (H item (or_introl eq_refl)) as [Hn Hu].
      destruct (try_entry item) as [o|[e| | |]]; simpl;
        try reflexivity; congruence. }
    rewrite E. apply IH. intros i Hi. apply H. now right. }
  rewrite Hs. eexists. reflexivity.
Qed.

Lemma first_stop_app before after :
  first_stop (before ++ after)
  = match first_stop before with
    | Some e => Some e
    | None => first_stop after
    end.
Proof.
  induction before as [|item before IH]; simpl; [reflexivity|].
  destruct (stops_at item); [reflexivity | exact IH].
Qed.

(** An entry whose failure the inner [catch] can log is a skip, and the
    other entries fare as they would without it. *)
Lemma walk_without before item after t m rest :
  Walker.item_type item = "blob" ->
  try_entry item = Raised t ->
  message_of t = Ok m ->
  walk (before ++ after) = Ok rest ->
  walk (before ++ item :: after)
  = Ok {| Walker.files := Walker.files rest;
          Walker.skippedCount := S (Walker.skippedCount rest) |}.
Proof.
  intros Hb Ht Hm. rewrite !walk_spec, !first_stop_app. simpl.
  assert (Hs : stops_at item = None).
  { unfold Walker.stops_at. now rewrite Hb, Ht, Hm. }
  assert (Hc : contribution item = ([], 1)).
  { unfold Walker.contribution. now rewrite Hb, Ht. }
  rewrite Hs.
  destruct (first_stop before); [discriminate|].
  destruct (first_stop after); [discriminate|].
  intros H. inversion H; subst rest; clear H. simpl.
  rewrite !flat_map_app, !map_app, !list_sum_app. simpl. rewrite Hc. simpl.
  f_equal. f_equal. lia.
Qed.

(** An entry whose failure the inner [catch] cannot log ends the loop. *)
Lemma walk_stops before item after t e wb :
  walk before = Ok wb ->
  Walker.item_type item = "blob" ->
  try_entry item = Raised t ->
  message_of t = Throw e ->
  walk (before ++ item :: after) = Throw e.
Proof.
  intros Hw Hb Ht Hm. rewrite walk_spec in Hw. rewrite walk_spec, first_stop_app.
  destruct (first_stop before); [discriminate|]. simpl.
  unfold Walker.stops_at. now rewrite Hb, Ht, Hm.
Qed.

Lemma filter_and_keep_fetched item c f :
  Walker.filter_and_keep config item c = Done (Walker.Fetched f) ->
  path f = Walker.item_path item.
Proof.
  unfold Walker.filter_and_keep.
  destruct (Walker.customFilter config) as [flt|].
  - destruct (flt (Walker.item_path item) c) as [[|]|t]; simpl;
      intros H; inversion H; reflexivity.
  - intros H; inversion H; reflexivity.
Qed.

Lemma filter_and_keep_not_extension item c :
  Walker.filter_and_keep config item c
  <> Done (Walker.Skipped Walker.NonMatchingExtension)
  /\ Walker.filter_and_keep config item c
     <> Done (Walker.Skipped Walker.Excluded).
Proof.
  unfold Walker.filter_and_keep.
  destruct (Walker.customFilter config) as [flt|].
  - destruct (flt (Walker.item_path item) c) as [[|]|t]; simpl;
      split; discriminate.
  - split; discriminate.
Qed.


(** The extension check is the only way to [NonMatchingExtension]. *)
Lemma try_entry_extension_skip item :
  try_entry item = Done (Walker.Skipped Walker.NonMatchingExtension) ->
  exists exts,
    Walker.includeExtensions config = Some exts /\ exts <> [] /\
    Walker.extension_allowed exts (Walker.item_path item) = false.
Proof.
  unfold Walker.try_entry, Walker.excluded_by_pattern,
    Walker.skipped_for_extension.
  destruct (match Walker.excludePatterns config with
            | Some ps => Walker.some_pattern_matches RegExp_test ps
                           (Walker.item_path item)
            | None => Ok false
            end) as [[|]|e]; simpl; try discriminate.
  destruct (Walker.includeExtensions config) as [[|x exts]|] eqn:Hc.
  3: shelve. 1: shelve.
  - destruct (Walker.extension_allowed (x :: exts) (Walker.item_path item))
      eqn:Ha; simpl.
    + shelve.
    + intros _. exists (x :: exts). repeat split; [discriminate | assumption].
  Unshelve.
  all: destruct (axios_get_blob (Walker.item_url item) token) as [res|e];
    simpl; [|discriminate];
    destruct (_ <? _)%N; [discriminate|];
    destruct (Buffer_decode (Walker.blob_content res)) as [c|e];
    [|destruct (negb _); [discriminate|]];
    intros H; now apply filter_and_keep_not_extension in H.
Qed.

End WalkerFacts.

Lemma stops_at_has_no_status get_blob engine decode token config item e n :
  Walker.stops_at get_blob engine decode token config item = Some e ->
  status_is e n = false.
Proof.
  unfold Walker.stops_at.
  destruct (String.eqb _ "blob"); [|discriminate].
  destruct (Walker.try_entry _ _ _ _ _ item) as [o|[e0| | |]]; simpl;
    try discriminate; intros H; inversion H; reflexivity.
Qed.

Lemma first_stop_has_no_status get_blob engine decode token config tree e n :
  Walker.first_stop get_blob engine decode token config tree = Some e ->
  status_is e n = false.
Proof.
  induction tree as [|item tree IH]; simpl; [discriminate|].
  destruct (Walker.stops_at _ _ _ _ _ item) as [e0|] eqn:E; [|exact IH].
  intros H. inversion H; subst. eapply stops_at_has_no_status; eauto.
Qed.

(** Once the tree is listed, the function ends as the loop does. *)
Lemma run_of_tree get_tree get_blob engine decode owner repo token branch
    config tree :
  get_tree (Walker.tree_url owner repo
              match branch with Some b => b | None => "main" end) token
  = Ok tree ->
  Walker.fetchAllRepositoryFiles_run get_tree get_blob engine decode
    owner repo token branch config
  = Walker.walk get_blob engine decode token
      match config with Some c => c | None => Walker.no_config end tree.
Proof.
  intros Ht. unfold Walker.fetchAllRepositoryFiles_run. rewrite Ht. simpl.
  rewrite walk_spec.
  destruct (Walker.first_stop _ _ _ _ _ tree) as [e|] eqn:E; [|reflexivity].
  now rewrite !(first_stop_has_no_status _ _ _ _ _ _ _ E).
Qed.


(** ** The walker: extensions *)

Lemma split_not_nil sep s : split sep s <> [].
Proof.
  destruct s as [|c s]; simpl; [discriminate|].
  destruct (Ascii.eqb c sep); [discriminate|].
  destruct (split sep s); discriminate.
Qed.

Lemma split_without_separator sep s :
  ~ occurs sep s -> split sep s = [s].
Proof.
  induction s as [|c s IH]; simpl; intros H; [reflexivity|].
  destruct (Ascii.eqb c sep) eqn:E.
  - apply Ascii.eqb_eq in E. tauto.
  - rewrite IH by tauto. reflexivity.
Qed.

Lemma split_at_separator sep s t :
  exists l, l <> [] /\
    split sep (s ++ String sep t)%string = l ++ split sep t.
Proof.
  induction s as [|c s (l & Hl & IH)]; simpl.
  - exists [""]. rewrite Ascii.eqb_refl. split; [discriminate | reflexivity].
  - destruct (Ascii.eqb c sep).
    + exists ("" :: l). rewrite IH. split; [discriminate | reflexivity].
    + rewrite IH. destruct l as [|w l]; [congruence|].
      exists (String c w :: l). split; [discriminate | reflexivity].
Qed.

Lemma pop_app {A} (l m : list A) : m <> [] -> pop (l ++ m) = pop m.
Proof.
  intros Hm. induction l as [|x l IH]; [reflexivity|].
  simpl. destruct (l ++ m) eqn:E; [|assumption].
  apply app_eq_nil in E as [_ ->]. congruence.
Qed.

(** [fileExtension] is the lowercase text after the last dot. *)
Lemma fileExtension_after_last_dot stem suffix :
  ~ occurs Walker.dot suffix ->
  Walker.fileExtension (stem ++ String Walker.dot suffix)
  = Some (toLowerCase suffix).
Proof.
  intros H. unfold Walker.fileExtension.
  destruct (split_at_separator Walker.dot stem suffix) as (l & _ & ->).
  rewrite pop_app by apply split_not_nil.
  now rewrite split_without_separator.
Qed.

Lemma fileExtension_without_dot p :
  ~ occurs Walker.dot p -> Walker.fileExtension p = Some (toLowerCase p).
Proof.
  intros H. unfold Walker.fileExtension.
  now rewrite split_without_separator.
Qed.

Lemma includes_In l x : includes l x = true <-> In x l.
Proof.
  unfold includes. rewrite existsb_exists. split.
  - intros (y & Hy & E). apply String.eqb_eq in E. now subst.
  - intros H. exists x. split; [assumption | apply String.eqb_refl].
Qed.

Lemma occurs_toLowerCase_dot s :
  occurs Walker.dot s -> occurs Walker.dot (toLowerCase s).
Proof.
  induction s as [|c s IH]; simpl; [tauto|].
  intros [->|H]; [left; reflexivity | right; auto].
Qed.



(** What the inner [catch] can log, and what makes it throw. *)
Lemma message_of_throws t e :
  message_of t = Throw e <->
  (t = Null /\ e = TypeError "Cannot read properties of null (reading 'message')")
  \/ (t = Undefined
      /\ e = TypeError
               "Cannot read properties of undefined (reading 'message')").
Proof.
  destruct t; simpl; split; intros H;
    try discriminate;
    try (destruct H as [[H1 H2]|[H1 H2]]; try discriminate; subst;
         reflexivity);
    inversion H; auto.
Qed.

(** The failures the walker's inner [catch] receives: a failed read of an
    entry's content and a custom filter that throws. *)
Lemma failed_read_throws get_blob engine decode token config item e :
  Walker.excludePatterns config = None ->
  Walker.includeExtensions config = None ->
  get_blob (Walker.item_url item) token = Throw e ->
  Walker.try_entry get_blob engine decode token config item
  = Raised (Object e).
Proof.
  intros Hx Hi Hg. unfold Walker.try_entry, Walker.excluded_by_pattern,
    Walker.skipped_for_extension. rewrite Hx, Hi. simpl.
  now rewrite Hg.
Qed.

Lemma throwing_filter_throws get_blob engine decode token config item
    res c flt t :
  Walker.excludePatterns config = None ->
  Walker.includeExtensions config = None ->
  get_blob (Walker.item_url item) token = Ok res ->
  (Walker.blob_size res <= Walker.maxFileSize_or_default config)%N ->
  decode (Walker.blob_content res) = Ok c ->
  Walker.customFilter config = Some flt ->
  flt (Walker.item_path item) c = Raised t ->
  Walker.try_entry get_blob engine decode token config item = Raised t.
Proof.
  intros Hx Hi Hg Hs Hd Hf He. unfold Walker.try_entry, Walker.excluded_by_pattern,
    Walker.skipped_for_extension. rewrite Hx, Hi. simpl.
  rewrite Hg. simpl. apply N.ltb_ge in Hs. rewrite Hs, Hd.
  unfold Walker.filter_and_keep. now rewrite Hf, He.
Qed.

(** C8 (a defect of the code): the inner [catch] of the walk logs
    [error.message] before it counts the skip.  When what one blob entry
    threw is [null] or [undefined], which a custom filter can throw, that
    read is itself a TypeError: the loop ends there, the outer [catch]
    rethrows the TypeError, and the function rejects although the entries
    before it were processed and the tree was listed.  A custom filter
    that throws [undefined] at an entry whose read succeeded is such a
    case. *)
Theorem null_thrown_at_an_entry_aborts_the_walk :
  forall get_tree get_blob engine decode owner repo token branch config
         before item after wb t,
    get_tree (Walker.tree_url owner repo
                match branch with Some b => b | None => "main" end) token
    = Ok (before ++ item :: after) ->
    Walker.walk get_blob engine decode token
      match config with Some c => c | None => Walker.no_config end before
    = Ok wb ->
    Walker.item_type item = "blob" ->
    Walker.try_entry get_blob engine decode token
      match config with Some c => c | None => Walker.no_config end item
    = Raised t ->
    t = Null \/ t = Undefined ->
    exists what,
      Walker.fetchAllRepositoryFiles_run get_tree get_blob engine decode
        owner repo token branch config
      = Throw (TypeError what)
      /\ Walker.fetchAllRepositoryFiles get_tree get_blob engine decode
           owner repo token branch config
         = Throw (TypeError what).
Proof.
  intros get_tree get_blob engine decode owner repo token branch config
    before item after wb t Ht Hw Hb He Hn.
  assert (Hm : exists what, message_of t = Throw (TypeError what)).
  { destruct Hn as [-> | ->]; eexists; reflexivity. }
  destruct Hm as [what Hm]. exists what.
  assert (Hrun : Walker.fetchAllRepositoryFiles_run get_tree get_blob engine
                   decode owner repo token branch config
                 = Throw (TypeError what)).
  { rewrite (run_of_tree _ get_blob engine decode _ _ _ _ config Ht).
    eapply walk_stops; eauto. }
  split; [exact Hrun|].
  unfold Walker.fetchAllRepositoryFiles. now rewrite Hrun.
Qed.

Lemma null_thrown_at_an_entry_aborts_the_walk_witness :
  exists what,
    Walker.fetchAllRepositoryFiles_run
      (Example.get_tree Example.three_files) (Example.get_blob "none")
      RegExpFragment.engine Example.decode "octo" "demo" "t0ken" None
      (Some (Example.filtered_by
               (fun p _ => if String.eqb p "b.py" then Raised Undefined
                           else Done true)))
    = Throw (TypeError what)
    /\ Walker.fetchAllRepositoryFiles
         (Example.get_tree Example.three_files) (Example.get_blob "none")
         RegExpFragment.engine Example.decode "octo" "demo" "t0ken" None
         (Some (Example.filtered_by
                  (fun p _ => if String.eqb p "b.py" then Raised Undefined
                              else Done true)))
       = Throw (TypeError what).
Proof.
  refine (@null_thrown_at_an_entry_aborts_the_walk
            (Example.get_tree Example.three_files) (Example.get_blob "none")
            RegExpFragment.engine Example.decode "octo" "demo" "t0ken" None
            (Some (Example.filtered_by
                     (fun p _ => if String.eqb p "b.py" then Raised Undefined
                                 else Done true)))
            [Example.blob_item "a.ts"] (Example.blob_item "b.py")
            [Example.blob_item "c.md"]
            {| Walker.files := [ {| path := "a.ts"; content := "content" |} ];
               Walker.skippedCount := 0 |}
            Undefined _ _ _ _ _);
    try reflexivity.
  right; reflexivity.
Defined.

(** The same run, evaluated: nothing is returned, not even the file that
    was read before the filter threw. *)
Lemma undefined_thrown_by_the_filter :
  Walker.fetchAllRepositoryFiles
    (Example.get_tree Example.three_files) (Example.get_blob "none")
    RegExpFragment.engine Example.decode "octo" "demo" "t0ken" None
    (Some (Example.filtered_by
             (fun p _ => if String.eqb p "b.py" then Raised Undefined
                         else Done true)))
  = Throw (TypeError
             "Cannot read properties of undefined (reading 'message')").
Proof. reflexivity. Qed.

(** X27: when the processing of one blob entry throws an error object or
    a primitive value (a failed read of its content, a custom filter that
    throws an Error, a pattern the engine refuses), the function ends as
    it would on the tree without that entry, with the same files in the
    same order and a skip count that is one more. *)
Theorem failing_entry_is_skipped :
  forall get_tree get_blob engine decode owner repo token branch config
         before item after t rest,
    get_tree (Walker.tree_url owner repo
                match branch with Some b => b | None => "main" end) token
    = Ok (before ++ item :: after) ->
    Walker.item_type item = "blob" ->
    Walker.try_entry get_blob engine decode token
      match config with Some c => c | None => Walker.no_config end item
    = Raised t ->
    (t = Primitive \/ exists e, t = Object e) ->
    Walker.walk get_blob engine decode token
      match config with Some c => c | None => Walker.no_config end
      (before ++ after)
    = Ok rest ->
    Walker.fetchAllRepositoryFiles_run get_tree get_blob engine decode
      owner repo token branch config
    = Ok {| Walker.files := Walker.files rest;
            Walker.skippedCount := S (Walker.skippedCount rest) |}.
Proof.
  intros get_tree get_blob engine decode owner repo token branch config
    before item after t rest Ht Hb He Hk Hr.
  rewrite (run_of_tree _ get_blob engine decode _ _ _ _ config Ht).
  assert (Hm : exists m, message_of t = Ok m).
  { destruct Hk as [-> | [e ->]]; eexists; reflexivity. }
  destruct Hm as [m Hm].
  eapply walk_without; eauto.
Qed.

Lemma failing_entry_is_skipped_witness :
  Walker.fetchAllRepositoryFiles_run
    (Example.get_tree Example.three_files) (Example.get_blob "b.py")
    RegExpFragment.engine Example.decode "octo" "demo" "t0ken" None None
  = Ok {| Walker.files := [ {| path := "a.ts"; content := "content" |};
                            {| path := "c.md"; content := "content" |} ];
          Walker.skippedCount := 1 |}.
Proof.
  refine (@failing_entry_is_skipped
            (Example.get_tree Example.three_files) (Example.get_blob "b.py")
            RegExpFragment.engine Example.decode "octo" "demo" "t0ken" None
            None [Example.blob_item "a.ts"] (Example.blob_item "b.py")
            [Example.blob_item "c.md"]
            (Object (Example.rejected 500 "500"))
            {| Walker.files := [ {| path := "a.ts"; content := "content" |};
                                 {| path := "c.md"; content := "content" |} ];
               Walker.skippedCount := 0 |}
            _ _ _ _ _);
    try reflexivity.
  right. eexists. reflexivity.
Defined.

(** C9, as the claim words it, fails for a file named [dockerfile] that
    is in a sub-directory: its path has no dot, so the whole path is taken
    for its extension, and with [dockerfile] in the list the entry is
    skipped for its extension. *)
Lemma nested_dockerfile_is_skipped :
  Walker.try_entry (Example.get_blob "none") RegExpFragment.engine
    Example.decode "t0ken" (Example.only_extensions ["dockerfile"])
    (Example.blob_item "services/api/Dockerfile")
  = Done (Walker.Skipped Walker.NonMatchingExtension)
  /\ Walker.fetchAllRepositoryFiles
       (Example.get_tree [Example.blob_item "services/api/Dockerfile"])
       (Example.get_blob "none") RegExpFragment.engine Example.decode
       "octo" "demo" "t0ken" None
       (Some (Example.only_extensions ["dockerfile"]))
     = Ok []
  /\ Walker.fetchSourceCodeFiles
       (Example.get_tree [Example.blob_item "Dockerfile";
                          Example.blob_item "services/api/Dockerfile"])
       (Example.get_blob "none") RegExpFragment.engine Example.decode
       "octo" "demo" "t0ken" None
     = Ok [ {| path := "Dockerfile"; content := "content" |} ].
Proof. repeat split. Qed.

(** C9, amended: a path without a dot is its own extension, in lower
    case: the extension check of such a non-empty path asks whether the
    whole lowercased path is in the list.  So an entry whose whole path is
    [dockerfile] in any casing passes the check of every list that has
    [dockerfile], that of [fetchSourceCodeFiles] among them, is never
    skipped for its extension, and is kept, with the content read, when no exclude pattern matches it, its
    read succeeds within the size limit, its content decodes and the
    custom filter, if there is one, accepts it.  An entry without a dot
    whose lowercased path is not in the list, as a Dockerfile in a
    sub-directory, is skipped for its extension. *)
Theorem dotless_path_is_its_own_extension :
  (forall p,
      ~ occurs Walker.dot p ->
      Walker.fileExtension p = Some (toLowerCase p) /\
      forall exts,
        Walker.extension_allowed exts p
        = negb (Validator.is_empty p) && includes exts (toLowerCase p))
  /\ (forall get_blob engine decode token config item exts res c,
         Walker.includeExtensions config = Some exts ->
         In "dockerfile" exts ->
         toLowerCase (Walker.item_path item) = "dockerfile" ->
         Walker.excluded_by_pattern engine config item = Ok false ->
         get_blob (Walker.item_url item) token = Ok res ->
         (Walker.blob_size res <= Walker.maxFileSize_or_default config)%N ->
         decode (Walker.blob_content res) = Ok c ->
         (forall flt, Walker.customFilter config = Some flt ->
                      flt (Walker.item_path item) c = Done true) ->
         Walker.extension_allowed exts (Walker.item_path item) = true
         /\ Walker.try_entry get_blob engine decode token config item
            = Done (Walker.Fetched {| path := Walker.item_path item;
                                      content := c |})
         /\ (Walker.item_type item = "blob" ->
             forall acc,
               Walker.walk_step get_blob engine decode token config acc item
               = Ok {| Walker.files :=
                         Walker.files acc
                         ++ [ {| path := Walker.item_path item;
                                 content := c |} ];
                       Walker.skippedCount := Walker.skippedCount acc |}))
  /\ (forall get_blob engine decode token config item exts,
         Walker.includeExtensions config = Some exts ->
         exts <> [] ->
         ~ occurs Walker.dot (Walker.item_path item) ->
         ~ In (toLowerCase (Walker.item_path item)) exts ->
         Walker.excluded_by_pattern engine config item = Ok false ->
         Walker.try_entry get_blob engine decode token config item
         = Done (Walker.Skipped Walker.NonMatchingExtension))
  /\ (forall get_blob engine decode token config item exts,
         Walker.includeExtensions config = Some exts ->
         In "dockerfile" exts ->
         toLowerCase (Walker.item_path item) = "dockerfile" ->
         Walker.try_entry get_blob engine decode token config item
         <> Done (Walker.Skipped Walker.NonMatchingExtension))
  /\ In "dockerfile" Walker.sourceExtensions.
Proof.
  assert (H1 : forall p,
      ~ occurs Walker.dot p ->
      Walker.fileExtension p = Some (toLowerCase p) /\
      forall exts,
        Walker.extension_allowed exts p
        = negb (Validator.is_empty p) && includes exts (toLowerCase p)).
  { intros p Hp. split; [now apply fileExtension_without_dot|].
    intros exts. unfold Walker.extension_allowed.
    rewrite fileExtension_without_dot by assumption.
    destruct p; reflexivity. }
  assert (H2 : forall item exts,
             In "dockerfile" exts ->
             toLowerCase (Walker.item_path item) = "dockerfile" ->
             ~ occurs Walker.dot (Walker.item_path item)
             /\ Walker.extension_allowed exts (Walker.item_path item) = true).
  { intros item exts Hin Hl.
    assert (Hp : ~ occurs Walker.dot (Walker.item_path item)).
    { intros H. apply occurs_toLowerCase_dot in H. rewrite Hl in H.
      simpl in H. repeat (destruct H as [H|H]; [discriminate|]). exact H. }
    split; [exact Hp|].
    rewrite (proj2 (H1 _ Hp)), Hl.
    apply andb_true_iff. split.
    - destruct (Walker.item_path item); [discriminate | reflexivity].
    - now apply includes_In. }
  split; [exact H1|]. split; [|split; [|split]].
  - intros get_blob engine decode token config item exts res c
      Hc Hin Hl Hx Hg Hs Hd Hf.
    destruct (H2 item exts Hin Hl) as [Hp Ha].
    assert (Ht : Walker.try_entry get_blob engine decode token config item
                 = Done (Walker.Fetched {| path := Walker.item_path item;
                                           content := c |})).
    { unfold Walker.try_entry. rewrite Hx. simpl.
      unfold Walker.skipped_for_extension. rewrite Hc.
      destruct exts as [|x exts]; [destruct Hin|]. rewrite Ha. simpl.
      rewrite Hg. simpl. apply N.ltb_ge in Hs. rewrite Hs, Hd.
      unfold Walker.filter_and_keep.
      destruct (Walker.customFilter config) as [flt|]; [|reflexivity].
      now rewrite (Hf flt eq_refl). }
    split; [exact Ha|]. split; [exact Ht|].
    intros Hb acc. unfold Walker.walk_step. now rewrite Hb, Ht.
  - intros get_blob engine decode token config item exts Hc Hne Hp Hin Hx.
    unfold Walker.try_entry. rewrite Hx. simpl.
    unfold Walker.skipped_for_extension. rewrite Hc.
    destruct exts as [|x exts]; [congruence|].
    rewrite (proj2 (H1 _ Hp)).
    destruct (includes (x :: exts) (toLowerCase (Walker.item_path item)))
      eqn:E.
    + apply includes_In in E. contradiction.
    + now rewrite andb_false_r.
  - intros get_blob engine decode token config item exts Hc Hin Hl Hs.
    apply try_entry_extension_skip in Hs as (exts' & Hc' & _ & Hf).
    rewrite Hc in Hc'. inversion Hc'; subst exts'.
    destruct (H2 item exts Hin Hl) as [_ Ha]. congruence.
  - unfold Walker.sourceExtensions. simpl. tauto.
Qed.

Lemma dotless_path_is_its_own_extension_witness :
  Walker.fileExtension "Dockerfile" = Some "dockerfile"
  /\ Walker.try_entry (Example.get_blob "none") RegExpFragment.engine
       Example.decode "t0ken" Walker.source_config
       (Example.blob_item "DOCKERFILE")
     = Done (Walker.Fetched {| path := "DOCKERFILE"; content := "content" |})
  /\ Walker.try_entry (Example.get_blob "none") RegExpFragment.engine
       Example.decode "t0ken" Walker.source_config
       (Example.blob_item "services/api/Dockerfile")
     = Done (Walker.Skipped Walker.NonMatchingExtension).
Proof.
  split; [|split].
  - refine (proj1 (proj1 dotless_path_is_its_own_extension "Dockerfile" _)).
    simpl. intros H.
    repeat (destruct H as [H|H]; [discriminate|]). exact H.
  - refine (proj1 (proj2 (proj1 (proj2 dotless_path_is_its_own_extension)
              (Example.get_blob "none") RegExpFragment.engine Example.decode
              "t0ken" Walker.source_config (Example.blob_item "DOCKERFILE")
              Walker.sourceExtensions
              {| Walker.blob_size := 7;
                 Walker.blob_content := "Y29udGVudA==" |}
              "content" eq_refl
              (proj2 (proj2 (proj2 (proj2 dotless_path_is_its_own_extension))))
              eq_refl eq_refl eq_refl _ eq_refl _))).
    + vm_compute. discriminate.
    + intros flt H. discriminate H.
  - refine (proj1 (proj2 (proj2 dotless_path_is_its_own_extension))
              (Example.get_blob "none") RegExpFragment.engine Example.decode
              "t0ken" Walker.source_config
              (Example.blob_item "services/api/Dockerfile")
              Walker.sourceExtensions eq_refl _ _ _ eq_refl).
    + discriminate.
    + simpl. intros H.
      repeat (destruct H as [H|H]; [discriminate|]). exact H.
    + simpl. intros H.
      repeat (destruct H as [H|H]; [discriminate|]). exact H.
Defined.

(** ** The walker: exclude patterns *)

Import RegExpFragment.

Lemma match_here_many a r s :
  match_here (Many a :: r) s
  = match_here r s
    || match s with
       | String c s' => atom_accepts a c && match_here (Many a :: r) s'
       | EmptyString => false
       end.
Proof. destruct s; reflexivity. Qed.

Lemma match_here_complete r s1 :
  matches r s1 -> forall s2, match_here r (s1 ++ s2)%string = true.
Proof.
  induction 1 as [|a r c s Ha _ IH|a r s _ IH|a r c s Ha _ IH]; intros s2.
  - reflexivity.
  - simpl. now rewrite Ha, IH.
  - rewrite match_here_many, IH. reflexivity.
  - simpl String.append. rewrite match_here_many, Ha, IH.
    apply orb_true_r.
Qed.

Lemma match_here_sound r :
  forall s, match_here r s = true ->
            exists s1 s2, s = (s1 ++ s2)%string /\ matches r s1.
Proof.
  induction r as [|[a|a] r IH]; intros s H.
  - exists "", s. split; [reflexivity | constructor].
  - destruct s as [|c s]; [discriminate|]. simpl in H.
    apply andb_true_iff in H as [Ha H].
    destruct (IH _ H) as (s1 & s2 & -> & Hm).
    exists (String c s1), s2. split; [reflexivity | now constructor].
  - induction s as [|c s IHs]; rewrite match_here_many in H;
      apply orb_true_iff in H as [H|H].
    + destruct (IH _ H) as (s1 & s2 & E & Hm).
      exists s1, s2. split; [assumption | now constructor].
    + discriminate.
    + destruct (IH _ H) as (s1 & s2 & E & Hm).
      exists s1, s2. split; [assumption | now constructor].
    + apply andb_true_iff in H as [Ha H].
      destruct (IHs H) as (s1 & s2 & -> & Hm).
      exists (String c s1), s2. split; [reflexivity | now constructor].
Qed.

Lemma search_spec r s :
  search r s = true <->
  exists s0 s1 s2, s = (s0 ++ s1 ++ s2)%string /\ matches r s1.
Proof.
  induction s as [|c s IH].
  - simpl. rewrite orb_false_r. split.
    + intros H. apply match_here_sound in H as (s1 & s2 & E & Hm).
      exists "", s1, s2. auto.
    + intros (s0 & s1 & s2 & E & Hm).
      destruct s0; [|discriminate]. simpl in E. rewrite E.
      now apply match_here_complete.
  - simpl. rewrite orb_true_iff, IH. split.
    + intros [H|(s0 & s1 & s2 & -> & Hm)].
      * apply match_here_sound in H as (s1 & s2 & E & Hm).
        exists "", s1, s2. auto.
      * exists (String c s0), s1, s2. auto.
    + intros (s0 & s1 & s2 & E & Hm). destruct s0 as [|d s0].
      * left. simpl in E. rewrite E. now apply match_here_complete.
      * right. simpl in E. inversion E; subst. eauto.
Qed.

(** The source the conversion writes, one glob character at a time. *)
Lemma glob_to_regex_source_cons c p :
  Walker.glob_to_regex_source (String c p)
  = if Ascii.eqb c Walker.star
    then String Walker.dot (String Walker.star (Walker.glob_to_regex_source p))
    else if Ascii.eqb c Walker.question
    then String Walker.dot (Walker.glob_to_regex_source p)
    else String c (Walker.glob_to_regex_source p).
Proof.
  unfold Walker.glob_to_regex_source. simpl.
  destruct (Ascii.eqb c Walker.star) eqn:Es; simpl.
  - reflexivity.
  - destruct (Ascii.eqb c Walker.question); reflexivity.
Qed.

Lemma glob_to_regex_source_head p :
  Glob.plain p = true ->
  match Walker.glob_to_regex_source p with
  | String q _ => Ascii.eqb q Walker.star = false
  | EmptyString => True
  end.
Proof.
  destruct p as [|c p]; [exact (fun _ => I)|].
  rewrite glob_to_regex_source_cons. unfold Glob.plain. simpl.
  intros H. apply andb_true_iff in H as [H _].
  destruct (Ascii.eqb c Walker.star) eqn:Es; [reflexivity|].
  destruct (Ascii.eqb c Walker.question) eqn:Eq; [reflexivity|].
  exact Es.
Qed.

Lemma parse_one c a rest :
  atom_of c = Some a ->
  match rest with
  | String q _ => Ascii.eqb q Walker.star = false
  | EmptyString => True
  end ->
  parse (String c rest) = option_map (cons (One a)) (parse rest).
Proof.
  intros Ha Hr. simpl. rewrite Ha.
  destruct rest as [|q rest]; [reflexivity|]. now rewrite Hr.
Qed.

Lemma parse_glob p :
  Glob.plain p = true ->
  parse (Walker.glob_to_regex_source p) = Some (Glob.pieces p).
Proof.
  induction p as [|c p IH]; [reflexivity|].
  intros H. pose proof H as Hp. unfold Glob.plain in Hp. simpl in Hp.
  apply andb_true_iff in Hp as [Hc Hp]. fold (Glob.plain p) in Hp.
  pose proof (glob_to_regex_source_head p Hp) as Hh.
  rewrite glob_to_regex_source_cons. simpl Glob.pieces.
  destruct (Ascii.eqb c Walker.star) eqn:Es.
  - change (parse (String Walker.dot
                     (String Walker.star (Walker.glob_to_regex_source p))))
      with (option_map (cons (Many AnyChar))
              (parse (Walker.glob_to_regex_source p))).
    now rewrite IH.
  - destruct (Ascii.eqb c Walker.question) eqn:Eq.
    + rewrite (parse_one Walker.dot (a := AnyChar)) by (reflexivity || assumption).
      now rewrite IH.
    + rewrite (parse_one c (a := Char c)); [now rewrite IH| |assumption].
      unfold Glob.plain_char in Hc. rewrite Es, Eq in Hc. simpl in Hc.
      unfold atom_of.
      destruct (Ascii.eqb c Walker.dot) eqn:Ed.
      * apply Ascii.eqb_eq in Ed. subst c. discriminate.
      * apply negb_true_iff in Hc. now rewrite Hc.
Qed.

Lemma pieces_glob p :
  forall s, matches (Glob.pieces p) s
            <-> Glob.glob_matches Glob.not_line_terminator p s.
Proof.
  induction p as [|c p IH]; intros s.
  - simpl. split; intros H; inversion H; constructor.
  - simpl Glob.pieces.
    destruct (Ascii.eqb c Walker.star) eqn:Es;
      [|destruct (Ascii.eqb c Walker.question) eqn:Eq].
    + apply Ascii.eqb_eq in Es. subst c. split.
      * intros H. remember (Many AnyChar :: Glob.pieces p) as R eqn:ER.
        induction H as [|a r d s Ha _ _|a r s H _|a r d s Ha H IHm];
          try discriminate; inversion ER; subst.
        -- apply Glob.glob_star_none. now apply IH.
        -- apply Glob.glob_star_more; [exact Ha | now apply IHm].
      * intros H. remember (String Walker.star p) as P eqn:EP.
        induction H as [|q s H _|q d s Hd H IHg|q d s Hd H _|d q s N1 N2 H _];
          try discriminate; inversion EP; subst.
        -- apply matches_many_stop. now apply IH.
        -- apply matches_many_step; [exact Hd | now apply IHg].
        -- congruence.
    + apply Ascii.eqb_eq in Eq. subst c. split.
      * intros H. inversion H; subst.
        apply Glob.glob_question; [assumption | now apply IH].
      * intros H. inversion H; subst; try congruence.
        apply matches_one; [assumption | now apply IH].
    + apply Ascii.eqb_neq in Es, Eq. split.
      * intros H. inversion H as [|a r d t Ha Hm| |]; subst.
        simpl in Ha. apply Ascii.eqb_eq in Ha. subst d.
        apply Glob.glob_literal; [assumption | assumption | now apply IH].
      * intros H. inversion H; subst; try congruence.
        apply matches_one; [apply Ascii.eqb_refl | now apply IH].
Qed.

Lemma engine_agrees : agrees_on_fragment engine.
Proof. intros src s b H. unfold engine. now rewrite H. Qed.

Lemma some_pattern_matches_spec engine patterns p :
  agrees_on_fragment engine ->
  Forall (fun g => Glob.plain g = true) patterns ->
  exists b,
    Walker.some_pattern_matches engine patterns p = Ok b /\
    (b = true <->
     exists g, In g patterns /\
               Glob.matches_within Glob.not_line_terminator g p).
Proof.
  intros Hagree. induction 1 as [|g patterns Hg _ (b & IHb & IH)].
  - exists false. split; [reflexivity|].
    split; [discriminate | intros (g & [] & _)].
  - simpl.
    assert (Ht : test (Walker.glob_to_regex_source g) p
                 = Some (search (Glob.pieces g) p)).
    { unfold test. now rewrite parse_glob. }
    rewrite (Hagree _ _ _ Ht). simpl.
    assert (Hs : search (Glob.pieces g) p = true <->
                 Glob.matches_within Glob.not_line_terminator g p).
    { rewrite search_spec. unfold Glob.matches_within.
      split; intros (s0 & s1 & s2 & E & Hm); exists s0, s1, s2;
        (split; [assumption | now apply pieces_glob]). }
    destruct (search (Glob.pieces g) p).
    + exists true. split; [reflexivity|]. split; [|reflexivity].
      intros _. exists g. split; [now left | now apply Hs].
    + exists b. split; [assumption|]. rewrite IH. split.
      * intros (g' & Hin & Hm). exists g'. split; [now right | assumption].
      * intros (g' & [<-|Hin] & Hm).
        -- apply Hs in Hm. discriminate.
        -- exists g'. auto.
Qed.

(** Once the exclusion test has said no, the entry cannot leave through
    the exclusion branch. *)
Ltac entry_cases :=
  unfold bind_result, bind_attempt, attempt_of;
  repeat match goal with
         | |- context [match ?x with _ => _ end] => destruct x
         end;
  try discriminate;
  try (intros H; now apply filter_and_keep_not_extension in H).

Lemma try_entry_excluded get_blob engine decode token config item :
  Walker.try_entry get_blob engine decode token config item
  = Done (Walker.Skipped Walker.Excluded)
  <-> exists patterns,
        Walker.excludePatterns config = Some patterns /\
        Walker.some_pattern_matches engine patterns (Walker.item_path item)
        = Ok true.
Proof.
  unfold Walker.try_entry, Walker.excluded_by_pattern,
    Walker.skipped_for_extension.
  destruct (Walker.excludePatterns config) as [patterns|].
  - destruct (Walker.some_pattern_matches engine patterns
                (Walker.item_path item)) as [[|]|e] eqn:Hs; simpl.
    + split; [intros _; exists patterns; split; auto | reflexivity].
    + split; [|intros (ps & E & H); inversion E; subst; congruence].
      entry_cases.
    + split; [discriminate|].
      intros (ps & E & H); inversion E; subst; congruence.
  - simpl. split; [|intros (ps & E & _); discriminate].
    entry_cases.
Qed.

(** C2, as the code has it: for exclude patterns in which every character
    other than the star and the question mark has no special meaning in a
    regular expression, and an engine that treats the resulting sources
    as regular expressions, a blob entry is skipped as excluded exactly
    when one of the patterns, read as a glob whose star matches any run
    of characters and whose question mark matches any one character (line
    terminators apart), matches some contiguous part of the entry's path;
    and an entry skipped so adds one to the skip count and no file. *)
Theorem excluded_when_glob_matches_within :
  forall get_blob engine decode token config patterns item,
    agrees_on_fragment engine ->
    Walker.excludePatterns config = Some patterns ->
    Forall (fun g => Glob.plain g = true) patterns ->
    (Walker.try_entry get_blob engine decode token config item
     = Done (Walker.Skipped Walker.Excluded)
     <-> exists g, In g patterns /\
           Glob.matches_within Glob.not_line_terminator g
             (Walker.item_path item))
    /\ (Walker.try_entry get_blob engine decode token config item
        = Done (Walker.Skipped Walker.Excluded) ->
        Walker.item_type item = "blob" ->
        forall acc,
          Walker.walk_step get_blob engine decode token config acc item
          = Ok {| Walker.files := Walker.files acc;
                  Walker.skippedCount := S (Walker.skippedCount acc) |}).
Proof.
  intros get_blob engine decode token config patterns item Hagree Hc Hplain.
  split.
  - rewrite try_entry_excluded.
    destruct (some_pattern_matches_spec (Walker.item_path item)
                Hagree Hplain) as (b & Hb & Hiff).
    split.
    + intros (ps & E & H). rewrite Hc in E. inversion E; subst ps.
      apply Hiff. congruence.
    + intros H. exists patterns. split; [assumption|].
      apply Hiff in H. now subst b.
  - intros He Hb acc. unfold Walker.walk_step. now rewrite Hb, He.
Qed.

Lemma excluded_when_glob_matches_within_witness :
  Walker.try_entry (Example.get_blob "none") engine Example.decode "t0ken"
    (Example.only_patterns ["node_modules/*"; "dist/*"])
    (Example.blob_item "packages/ui/dist/index.js")
  = Done (Walker.Skipped Walker.Excluded).
Proof.
  assert (Hp : Forall (fun g => Glob.plain g = true)
                 ["node_modules/*"; "dist/*"])
    by (repeat constructor).
  apply (proj1 (excluded_when_glob_matches_within
                  (Example.get_blob "none") Example.decode "t0ken"
                  (Example.only_patterns ["node_modules/*"; "dist/*"])
                  (Example.blob_item "packages/ui/dist/index.js")
                  engine_agrees eq_refl Hp)).
  exists "dist/*". split; [simpl; tauto|].
  exists "packages/ui/", "dist/", "index.js". split; [reflexivity|].
  repeat (apply Glob.glob_literal; [discriminate | discriminate |]).
  apply Glob.glob_star_none. constructor.
Defined.

(** C2, as the claim words it, fails: under the pattern [dist/*] the entry
    [src/dist/a.js] is skipped as excluded, although the glob does not
    match that path as a whole. *)
Lemma exclude_pattern_is_not_a_full_match :
  Walker.try_entry (Example.get_blob "none") engine Example.decode "t0ken"
    (Example.only_patterns ["dist/*"]) (Example.blob_item "src/dist/a.js")
  = Done (Walker.Skipped Walker.Excluded)
  /\ Walker.walk (Example.get_blob "none") engine Example.decode "t0ken"
       (Example.only_patterns ["dist/*"]) [Example.blob_item "src/dist/a.js"]
     = Ok {| Walker.files := []; Walker.skippedCount := 1 |}
  /\ ~ Glob.glob_matches Glob.every_char "dist/*" "src/dist/a.js".
Proof.
  split; [reflexivity|]. split; [reflexivity|].
  intros H. inversion H; subst; congruence.
Qed.

Example unescaped_dot_in_pattern :
  Walker.try_entry (Example.get_blob "none") engine Example.decode "t0ken"
    (Example.only_patterns ["*.min.js"]) (Example.blob_item "admin.js")
  = Done (Walker.Skipped Walker.Excluded).
Proof. reflexivity. Qed.

(** ** The publisher: runs and their events *)

Section PublisherFacts.

Variable service_state : Type.
Variable respond : request -> service_state -> result response * service_state.

Abbreviation M := (M service_state).

Lemma bind_ok_inv {A B} (c : M A) (k : A -> M B) st b st' t :
  bind c k st = (Ok b, st', t) ->
  exists a st1 t1 t2,
    c st = (Ok a, st1, t1) /\ k a st1 = (Ok b, st', t2) /\ t = t1 ++ t2.
Proof.
  unfold bind. destruct (c st) as [[[a|e] st1] t1]; [|discriminate].
  destruct (k a st1) as [[r st2] t2] eqn:E. intros H. inversion H; subst.
  exists a, st1, t1, t2. auto.
Qed.

Lemma bind_ok {A B} (c : M A) (k : A -> M B) st a st1 t1 :
  c st = (Ok a, st1, t1) ->
  bind c k st = (fst (fst (k a st1)), snd (fst (k a st1)), t1 ++ snd (k a st1)).
Proof.
  intros H. unfold bind. rewrite H. now destruct (k a st1) as [[r st2] t2].
Qed.

Lemma bind_throw {A B} (c : M A) (k : A -> M B) st e st1 t1 :
  c st = (Throw e, st1, t1) -> bind c k st = (Throw e, st1, t1).
Proof. intros H. unfold bind. now rewrite H. Qed.

Lemma bind_assoc {A B C} (c : M A) (k : A -> M B) (h : B -> M C) st :
  bind (bind c k) h st = bind c (fun a => bind (k a) h) st.
Proof.
  unfold bind. destruct (c st) as [[[a|e] st1] t1]; [|reflexivity].
  destruct (k a st1) as [[[b|e] st2] t2]; [|reflexivity].
  destruct (h b st2) as [[r st3] t3]. now rewrite app_assoc.
Qed.

Lemma emits_only_ret {A} P (a : A) : emits_only P (ret (service_state := service_state) a).
Proof. intros st. constructor. Qed.

Lemma emits_only_throw {A} P e : emits_only P (@throw service_state A e).
Proof. intros st. constructor. Qed.

Lemma emits_only_bind {A B} P (c : M A) (k : A -> M B) :
  emits_only P c -> (forall a, emits_only P (k a)) -> emits_only P (bind c k).
Proof.
  intros Hc Hk st. unfold bind. specialize (Hc st).
  destruct (c st) as [[[a|e] st1] t1]; simpl in *; [|assumption].
  specialize (Hk a st1). destruct (k a st1) as [[r st2] t2]. simpl in *.
  apply Forall_app. auto.
Qed.

Lemma emits_only_try_catch {A} P (c : M A) (h : exn -> M A) :
  emits_only P c -> (forall e, emits_only P (h e)) ->
  emits_only P (try_catch c h).
Proof.
  intros Hc Hh st. unfold try_catch. specialize (Hc st).
  destruct (c st) as [[[a|e] st1] t1]; simpl in *; [assumption|].
  specialize (Hh e st1). destruct (h e st1) as [[r st2] t2]. simpl in *.
  apply Forall_app. auto.
Qed.

Lemma emits_only_axios (P : event -> Prop) rq :
  (forall rs, P (Called rq rs)) -> emits_only P (axios respond rq).
Proof.
  intros H st. unfold axios. destruct (respond rq st) as [rs st1]. simpl.
  constructor; [apply H | constructor].
Qed.

Lemma emits_only_sleep (P : event -> Prop) ms :
  P (Slept ms) -> emits_only P (sleep (service_state := service_state) ms).
Proof. intros H st. simpl. constructor; [assumption | constructor]. Qed.

Lemma emits_only_if {A} P (b : bool) (c d : M A) :
  emits_only P c -> emits_only P d -> emits_only P (if b then c else d).
Proof. now destruct b. Qed.

(** The outer [catch] throws, whatever it caught, and calls nothing. *)
Lemma push_catch_throws {A} e :
  exists e', forall st,
    @push_catch service_state A e st = (Throw e', st, []).
Proof.
  unfold push_catch. destruct e as [m [r|]|m|m|m]; try (eexists; reflexivity).
  destruct (status_is _ 422); eexists; reflexivity.
Qed.

Lemma push_catch_rethrows {A} e :
  status_is e 422 = false ->
  forall st, @push_catch service_state A e st = (Throw e, st, []).
Proof.
  intros H st. unfold push_catch.
  destruct e as [m [r|]|m|m|m]; try reflexivity. now rewrite H.
Qed.

Lemma status_is_exclusive e n m :
  status_is e n = true -> n <> m -> status_is e m = false.
Proof.
  unfold status_is. destruct (response_status e) as [k|]; [|discriminate].
  intros H Hne. apply N.eqb_eq in H. subst k. now apply N.eqb_neq.
Qed.

End PublisherFacts.

Ltac emits :=
  repeat first
    [ apply emits_only_ret
    | apply emits_only_throw
    | apply emits_only_sleep; reflexivity
    | apply emits_only_axios; intros; reflexivity
    | apply emits_only_bind; [|intros]
    | apply emits_only_try_catch; [|intros]
    | apply emits_only_if
    | match goal with
      | |- emits_only _ (match ?x with _ => _ end) => destruct x
      end ].

Section PublisherTraces.

Variable service_state : Type.
Variable respond : request -> service_state -> result response * service_state.

Lemma push_catch_silent {A} P e :
  emits_only P (@push_catch service_state A e).
Proof.
  intros st. destruct (@push_catch_throws service_state A e) as (e' & H).
  rewrite H. constructor.
Qed.

Lemma ensure_repository_writes_nothing owner repo token description :
  emits_only (fun ev => writes_object ev = false)
    (ensure_repository respond owner repo token description).
Proof. unfold ensure_repository, verifyToken, repositoryExists, createRepository. emits. Qed.

Lemma resolve_base_writes_nothing owner repo baseBranch newBranch token :
  emits_only (fun ev => writes_object ev = false)
    (resolve_base respond owner repo baseBranch newBranch token).
Proof. unfold resolve_base, getBranchSHA, createBranch. emits. Qed.

Lemma createTree_entries_utf8 owner repo files token tree :
  emits_only (fun ev => blob_is_utf8 ev = true)
    (createTree_entries respond owner repo files token tree).
Proof.
  revert tree. induction files as [|file files IH]; intros tree; simpl.
  - emits.
  - unfold createBlob. emits. apply IH.
Qed.

Lemma pushFilesAsCommit_utf8 owner repo baseBranch newBranch files
    commitMessage token description :
  emits_only (fun ev => blob_is_utf8 ev = true)
    (pushFilesAsCommit respond owner repo baseBranch newBranch files
       commitMessage token description).
Proof.
  unfold pushFilesAsCommit. apply emits_only_try_catch;
    [|intros; apply push_catch_silent].
  unfold ensure_repository, verifyToken, repositoryExists, createRepository,
    resolve_base, getBranchSHA, createBranch, commit_files, createTree,
    createCommit, updateBranch.
  emits; apply createTree_entries_utf8.
Qed.

End PublisherTraces.

(** C10: [createBlob] posts its content with the encoding utf-8 whatever
    the content is, and every blob posted in the course of
    [pushFilesAsCommit] is posted so: no run declares another encoding. *)
Theorem blobs_are_posted_as_utf8 :
  forall (service_state : Type)
         (respond : request -> service_state -> result response * service_state),
    (forall owner repo content token st,
        snd (createBlob respond owner repo content token st)
        = [Called {| req_method := POST;
                     req_url := api owner repo "/git/blobs";
                     req_body := BlobBody content "utf-8";
                     req_token := token |}
                  (fst (respond
                          {| req_method := POST;
                             req_url := api owner repo "/git/blobs";
                             req_body := BlobBody content "utf-8";
                             req_token := token |} st))])
    /\ (forall owner repo baseBranch newBranch files commitMessage token
               description,
           emits_only (fun ev => blob_is_utf8 ev = true)
             (pushFilesAsCommit respond owner repo baseBranch newBranch files
                commitMessage token description)).
Proof.
  intros service_state respond. split.
  - intros owner repo content token st. unfold createBlob, bind, axios.
    destruct (respond _ st) as [[res|e] st1]; reflexivity.
  - intros. apply pushFilesAsCommit_utf8.
Qed.

(** With [includeBinary], a payload that does not decode is kept as it
    came, and is what a later publish posts. *)
Lemma undecodable_payload_is_kept get_blob engine decode token config item
    res e :
  Walker.excludePatterns config = None ->
  Walker.includeExtensions config = None ->
  Walker.customFilter config = None ->
  Walker.includeBinary config = Some true ->
  get_blob (Walker.item_url item) token = Ok res ->
  (Walker.blob_size res <= Walker.maxFileSize_or_default config)%N ->
  decode (Walker.blob_content res) = Throw e ->
  Walker.try_entry get_blob engine decode token config item
  = Done (Walker.Fetched {| path := Walker.item_path item;
                            content := Walker.blob_content res |}).
Proof.
  intros Hx Hi Hf Hb Hg Hs Hd. unfold Walker.try_entry, Walker.excluded_by_pattern,
    Walker.skipped_for_extension.
  rewrite Hx, Hi. simpl. rewrite Hg. simpl.
  apply N.ltb_ge in Hs. rewrite Hs, Hd.
  unfold Walker.includeBinary_or_default, Walker.filter_and_keep.
  now rewrite Hb, Hf.
Qed.

(** C1: when validation leaves no file, the publish fails; no run posts a
    blob, a tree or a commit or updates a ref; and if the steps before
    validation succeed, the error is [No valid files to commit after
    validation] and the run ends with the events of those steps. *)
Theorem no_valid_files_fails_before_any_write :
  forall (service_state : Type)
         (respond : request -> service_state -> result response * service_state)
         owner repo baseBranch newBranch files commitMessage token description
         st,
    Validator.validate files = [] ->
    (forall r,
        fst (fst (pushFilesAsCommit respond owner repo baseBranch newBranch
                    files commitMessage token description st)) <> Ok r)
    /\ Forall (fun ev => writes_object ev = false)
         (snd (pushFilesAsCommit respond owner repo baseBranch newBranch
                 files commitMessage token description st))
    /\ (forall base st1 t1,
           bind (ensure_repository respond owner repo token description)
             (fun _ => resolve_base respond owner repo baseBranch newBranch
                         token) st
           = (Ok base, st1, t1) ->
           pushFilesAsCommit respond owner repo baseBranch newBranch
             files commitMessage token description st
           = (Throw (Error "No valid files to commit after validation"),
              st1, t1)).
Proof.
  intros service_state respond owner repo baseBranch newBranch files
    commitMessage token description st Hv.
  assert (Hcommit : forall base,
             commit_files respond owner repo base files commitMessage token
             = throw (Error "No valid files to commit after validation")).
  { intros base. unfold commit_files. now rewrite Hv. }
  split; [|split].
  - intros r H. unfold pushFilesAsCommit, try_catch in H.
    destruct (bind _ _ st) as [[[a|e] st1] t1] eqn:E.
    + apply bind_ok_inv in E as (u & st2 & t2 & t3 & _ & E & _).
      apply bind_ok_inv in E as (base & st3 & t4 & t5 & _ & E & _).
      rewrite Hcommit in E. discriminate.
    + destruct (@push_catch_throws service_state push_result e) as (e' & He).
      rewrite He in H. discriminate.
  - unfold pushFilesAsCommit. apply emits_only_try_catch;
      [|intros; apply push_catch_silent].
    apply emits_only_bind; [apply ensure_repository_writes_nothing|].
    intros _. apply emits_only_bind; [apply resolve_base_writes_nothing|].
    intros base. rewrite Hcommit. apply emits_only_throw.
  - intros base st1 t1 H. unfold pushFilesAsCommit, try_catch.
    rewrite <- bind_assoc.
    rewrite (bind_ok _ _ _ H), Hcommit. simpl.
    now rewrite !app_nil_r.
Qed.

Lemma no_valid_files_fails_before_any_write_witness :
  pushFilesAsCommit Example.ref_store "octo" "demo" "main" (Some "feature-x")
    [ {| path := "a.ts"; content := "   " |};
      {| path := "b?.ts"; content := "x" |} ]
    "update" "t0ken" None []
  = (Throw (Error "No valid files to commit after validation"),
     ["refs/heads/feature-x"],
     snd (bind (ensure_repository Example.ref_store "octo" "demo" "t0ken" None)
            (fun _ => resolve_base Example.ref_store "octo" "demo" "main"
                        (Some "feature-x") "t0ken") [])).
Proof.
  exact (proj2 (proj2 (no_valid_files_fails_before_any_write
           Example.ref_store "octo" "demo" "main" (Some "feature-x")
           [ {| path := "a.ts"; content := "   " |};
             {| path := "b?.ts"; content := "x" |} ]
           "update" "t0ken" None [] eq_refl)) _ _ _ eq_refl).
Defined.

(** ** The publisher: conflicts, branches *)

Lemma contains_append needle s t :
  contains needle t = true -> contains needle (s ++ t)%string = true.
Proof.
  intros H. induction s as [|c s IH]; [assumption|].
  simpl. rewrite IH. apply orb_true_r.
Qed.

(** C3, as the code has it: a 409 on the tree read of
    [fetchAllRepositoryFiles] is turned into an error of the core's own,
    [Repository owner/repo is empty]; a 409 on the branch-head read of
    [pushFilesAsCommit] (or anywhere else inside it) leaves the function
    as the transport's own error, unchanged. *)
Theorem conflict_on_read :
  (forall get_tree get_blob engine decode owner repo token branch config e,
      get_tree (Walker.tree_url owner repo
                  match branch with Some b => b | None => "main" end) token
      = Throw e ->
      status_is e 409 = true ->
      Walker.fetchAllRepositoryFiles get_tree get_blob engine decode
        owner repo token branch config
      = Throw (Error ("Repository " ++ owner ++ "/" ++ repo ++ " is empty"))
      /\ says_repository_is_empty
           (Error ("Repository " ++ owner ++ "/" ++ repo ++ " is empty"))
         = true)
  /\ (forall (service_state : Type)
             (respond : request -> service_state
                        -> result response * service_state)
             owner repo baseBranch newBranch files commitMessage token
             description st st1 t1 e st2,
         ensure_repository respond owner repo token description st
         = (Ok tt, st1, t1) ->
         respond {| req_method := GET;
                    req_url := api owner repo ("/git/refs/heads/" ++ baseBranch);
                    req_body := NoBody; req_token := token |} st1
         = (Throw e, st2) ->
         status_is e 409 = true ->
         pushFilesAsCommit respond owner repo baseBranch newBranch files
           commitMessage token description st
         = (Throw e, st2,
            t1 ++ [Called {| req_method := GET;
                             req_url := api owner repo
                                          ("/git/refs/heads/" ++ baseBranch);
                             req_body := NoBody; req_token := token |}
                          (Throw e)])).
Proof.
  split.
  - intros get_tree get_blob engine decode owner repo token branch config e
      Ht He.
    split.
    + unfold Walker.fetchAllRepositoryFiles, Walker.fetchAllRepositoryFiles_run.
      rewrite Ht. simpl.
      rewrite (status_is_exclusive e (m := 404%N) He), He by discriminate.
      reflexivity.
    + unfold says_repository_is_empty.
      do 4 apply contains_append. reflexivity.
  - intros service_state respond owner repo baseBranch newBranch files
      commitMessage token description st st1 t1 e st2 Hens Hr He.
    unfold pushFilesAsCommit, try_catch.
    rewrite (bind_ok _ _ _ Hens).
    unfold resolve_base, getBranchSHA.
    rewrite !bind_assoc.
    assert (Ha : axios respond
                   {| req_method := GET;
                      req_url := api owner repo ("/git/refs/heads/" ++ baseBranch);
                      req_body := NoBody; req_token := token |} st1
                 = (Throw e, st2,
                    [Called {| req_method := GET;
                               req_url := api owner repo
                                            ("/git/refs/heads/" ++ baseBranch);
                               req_body := NoBody; req_token := token |}
                            (Throw e)])).
    { unfold axios. now rewrite Hr. }
    rewrite (bind_throw _ _ _ Ha). simpl.
    rewrite push_catch_rethrows
      by (apply (status_is_exclusive e (n := 409%N)); [assumption | discriminate]).
    now rewrite app_nil_r.
Qed.

Lemma conflict_on_read_witness :
  pushFilesAsCommit Example.empty_repository "octo" "demo" "main" None
    [ {| path := "a.ts"; content := "x" |} ] "update" "t0ken" None tt
  = (Throw (Example.rejected 409 "409"), tt,
     snd (ensure_repository Example.empty_repository "octo" "demo" "t0ken"
            None tt)
     ++ [Called {| req_method := GET;
                   req_url := api "octo" "demo" ("/git/refs/heads/" ++ "main");
                   req_body := NoBody; req_token := "t0ken" |}
                (Throw (Example.rejected 409 "409"))]).
Proof.
  exact (proj2 conflict_on_read unit Example.empty_repository
           "octo" "demo" "main" None
           [ {| path := "a.ts"; content := "x" |} ] "update" "t0ken" None
           tt tt _ (Example.rejected 409 "409") tt eq_refl eq_refl eq_refl).
Defined.

(** C3, as the claim words it, fails on the publish path: against a
    repository whose branch-head read is answered with 409,
    [pushFilesAsCommit] throws the error of the transport, [Request
    failed with status code 409], and not an error that says the
    repository is empty. *)
Lemma publish_rethrows_the_conflict :
  fst (fst (pushFilesAsCommit Example.empty_repository "octo" "demo" "main"
              None [ {| path := "a.ts"; content := "x" |} ] "update" "t0ken"
              None tt))
  = Throw (AxiosError "Request failed with status code 409"
             (Some {| status := 409; data_message := None;
                      data_errors := None |}))
  /\ says_repository_is_empty
       (AxiosError "Request failed with status code 409"
          (Some {| status := 409; data_message := None;
                   data_errors := None |}))
     = false.
Proof. split; reflexivity. Qed.

(** C6: [createBranch] returns normally when the service accepts the
    creation and when it refuses it with 422 (the branch exists); it
    throws the service's error, unchanged, for any other refusal; and
    against a service that keeps the refs and refuses an existing one
    with 422, two calls in a row with the same name and base both
    return normally, the second leaving the service as it was. *)
Theorem createBranch_is_idempotent :
  (forall (service_state : Type)
          (respond : request -> service_state
                     -> result response * service_state)
          owner repo newBranch baseSHA token st rs st',
      respond {| req_method := POST; req_url := api owner repo "/git/refs";
                 req_body := RefCreateBody ("refs/heads/" ++ newBranch) baseSHA;
                 req_token := token |} st = (rs, st') ->
      (forall res, rs = Ok res ->
         fst (createBranch respond owner repo newBranch baseSHA token st)
         = (Ok tt, st'))
      /\ (forall e, rs = Throw e -> status_is e 422 = true ->
            fst (createBranch respond owner repo newBranch baseSHA token st)
            = (Ok tt, st'))
      /\ (forall e, rs = Throw e -> status_is e 422 = false ->
            fst (createBranch respond owner repo newBranch baseSHA token st)
            = (Throw e, st')))
  /\ (forall owner repo newBranch baseSHA token refs,
         let first :=
           createBranch Example.ref_store owner repo newBranch baseSHA token
             refs in
         let second :=
           createBranch Example.ref_store owner repo newBranch baseSHA token
             (snd (fst first)) in
         fst (fst first) = Ok tt /\ fst (fst second) = Ok tt
         /\ snd (fst second) = snd (fst first)).
Proof.
  split.
  - intros service_state respond owner repo newBranch baseSHA token st rs st'
      Hr.
    unfold createBranch, try_catch, bind, axios. rewrite Hr.
    repeat split.
    + intros res ->. reflexivity.
    + intros e -> He. rewrite He. reflexivity.
    + intros e -> He. rewrite He. reflexivity.
  - intros owner repo newBranch baseSHA token refs.
    set (bref := ("refs/heads/" ++ newBranch)%string).
    unfold createBranch, try_catch, bind, axios, Example.ref_store.
    fold bref. clearbody bref. cbn [req_method req_body].
    destruct (includes refs bref) eqn:E; cbn -[includes].
    + rewrite E. cbn. auto.
    + unfold includes. cbn. rewrite String.eqb_refl. cbn. auto.
Qed.

Lemma createBranch_is_idempotent_witness :
  fst (createBranch Example.ref_store "octo" "demo" "feature-x" "head0"
         "t0ken" ["refs/heads/feature-x"])
  = (Ok tt, ["refs/heads/feature-x"]).
Proof.
  exact (proj1 (proj2 (proj1 createBranch_is_idempotent
           (list string) Example.ref_store "octo" "demo" "feature-x" "head0"
           "t0ken" ["refs/heads/feature-x"] _ _ eq_refl))
           (Example.rejected 422 "422") eq_refl eq_refl).
Defined.

Section PublisherRuns.

Variable service_state : Type.
Variable respond : request -> service_state -> result response * service_state.

Lemma axios_inv rq st r st' t :
  axios respond rq st = (r, st', t) ->
  respond rq st = (r, st') /\ t = [Called rq r].
Proof.
  unfold axios. destruct (respond rq st) as [rs st1].
  intros H. inversion H; subst. auto.
Qed.

Lemma ret_inv {A} (a b : A) (st st' : service_state) t :
  ret a st = (Ok b, st', t) -> a = b /\ st = st' /\ t = [].
Proof. unfold ret. intros H. inversion H. auto. Qed.

Lemma pushFilesAsCommit_ok_inv owner repo baseBranch newBranch files
    commitMessage token description st r st' t :
  pushFilesAsCommit respond owner repo baseBranch newBranch files
    commitMessage token description st = (Ok r, st', t) ->
  exists st1 t1 base st2 t2 t3,
    ensure_repository respond owner repo token description st
    = (Ok tt, st1, t1)
    /\ resolve_base respond owner repo baseBranch newBranch token st1
       = (Ok base, st2, t2)
    /\ commit_files respond owner repo base files commitMessage token st2
       = (Ok r, st', t3)
    /\ t = t1 ++ t2 ++ t3.
Proof.
  unfold pushFilesAsCommit, try_catch.
  destruct (bind _ _ st) as [[[a|e] st1] t1] eqn:E.
  - intros H. inversion H; subst.
    apply bind_ok_inv in E as ([] & st2 & t2 & t3 & H1 & E & ->).
    apply bind_ok_inv in E as (base & st3 & t4 & t5 & H2 & H3 & ->).
    exists st2, t2, base, st3, t4, t5. auto.
  - destruct (@push_catch_throws service_state push_result e) as (e' & He).
    rewrite He. discriminate.
Qed.

Lemma createBranch_events owner repo newBranch baseSHA token st :
  exists rc,
    snd (createBranch respond owner repo newBranch baseSHA token st)
    = [Called {| req_method := POST; req_url := api owner repo "/git/refs";
                 req_body := RefCreateBody ("refs/heads/" ++ newBranch) baseSHA;
                 req_token := token |} rc].
Proof.
  unfold createBranch, try_catch, bind, axios.
  destruct (respond _ st) as [[res|e] st1]; simpl.
  - eexists; reflexivity.
  - destruct (status_is e 422); eexists; reflexivity.
Qed.

Lemma createTree_updates_no_ref owner repo baseTreeSHA files token :
  emits_only (fun ev => updates_ref ev = false)
    (createTree respond owner repo baseTreeSHA files token).
Proof.
  unfold createTree. apply emits_only_bind; [|intros; emits].
  generalize (@nil TreeEntry). induction files as [|file files IH];
    intros tree; simpl.
  - emits.
  - unfold createBlob. emits. apply IH.
Qed.

End PublisherRuns.

(** C5: in a publish that succeeds with a non-empty [newBranch], the
    events are: those of the token and repository steps, which write no
    object; the read of the base branch's head; the creation of
    [refs/heads/newBranch] from the commit that read returned; events
    that update no ref; and last the forced update of
    [refs/heads/newBranch] to the new commit.  The [branchUrl] returned
    ends in [/tree/newBranch]. *)
Theorem new_branch_is_created_and_targeted :
  forall (service_state : Type)
         (respond : request -> service_state -> result response * service_state)
         owner repo baseBranch newBranch files commitMessage token description
         st r st' t,
    newBranch <> "" ->
    pushFilesAsCommit respond owner repo baseBranch (Some newBranch) files
      commitMessage token description st = (Ok r, st', t) ->
    exists t0 head rc t1 rs,
      t = t0
          ++ Called {| req_method := GET;
                       req_url := api owner repo
                                    ("/git/refs/heads/" ++ baseBranch);
                       req_body := NoBody; req_token := token |} (Ok head)
          :: Called {| req_method := POST;
                       req_url := api owner repo "/git/refs";
                       req_body := RefCreateBody ("refs/heads/" ++ newBranch)
                                     (data_object_sha head);
                       req_token := token |} rc
          :: t1
          ++ [Called {| req_method := PATCH;
                        req_url := api owner repo
                                     ("/git/refs/heads/" ++ newBranch);
                        req_body := RefUpdateBody (commitSHA r) true;
                        req_token := token |} (Ok rs)]
      /\ Forall (fun ev => writes_object ev = false) t0
      /\ Forall (fun ev => updates_ref ev = false) t1
      /\ branchUrl r
         = ("https://github.com/" ++ owner ++ "/" ++ repo ++ "/tree/"
            ++ newBranch)%string.
Proof.
  intros service_state respond owner repo baseBranch newBranch files
    commitMessage token description st r st' t Hne Hrun.
  apply pushFilesAsCommit_ok_inv in Hrun
    as (st1 & t0 & base & st2 & t2 & t3 & Hens & Hres & Hcom & ->).
  destruct newBranch as [|a nb]; [congruence|].
  (* the base branch and the new branch *)
  unfold resolve_base in Hres.
  apply bind_ok_inv in Hres as (baseSHA & st3 & u1 & u2 & Hget & Hres & ->).
  unfold getBranchSHA in Hget.
  apply bind_ok_inv in Hget as (head & st4 & v1 & v2 & Hax & Hret & ->).
  apply axios_inv in Hax as [_ ->].
  apply ret_inv in Hret as (<- & <- & ->).
  apply bind_ok_inv in Hres as (target & st5 & u3 & u4 & Hbr & Hres & ->).
  apply bind_ok_inv in Hbr as ([] & st6 & v3 & v4 & Hcb & Hret & ->).
  apply ret_inv in Hret as (<- & <- & ->).
  destruct (createBranch_events respond owner repo (String a nb)
              (data_object_sha head) token st4) as (rc & Hev).
  rewrite Hcb in Hev. simpl in Hev. subst v3.
  apply bind_ok_inv in Hres as (res & st7 & u5 & u6 & Hax & Hret & ->).
  apply axios_inv in Hax as [_ ->].
  apply ret_inv in Hret as (<- & <- & ->).
  (* the tree, the commit and the ref *)
  unfold commit_files in Hcom. cbn [base_sha target_branch base_tree_sha] in Hcom.
  destruct (Validator.validate files) as [|f fs]; [discriminate|].
  apply bind_ok_inv in Hcom as (tree & st8 & w1 & w2 & Htree & Hcom & ->).
  apply bind_ok_inv in Hcom as (commit & st9 & w3 & w4 & Hc & Hcom & ->).
  apply bind_ok_inv in Hcom as ([] & st10 & w5 & w6 & Hup & Hret & ->).
  apply ret_inv in Hret as (<- & <- & ->).
  unfold updateBranch in Hup.
  apply bind_ok_inv in Hup as (rs & st11 & x1 & x2 & Hax & Hret & ->).
  apply axios_inv in Hax as [_ ->].
  apply ret_inv in Hret as (_ & _ & ->).
  unfold createCommit in Hc.
  apply bind_ok_inv in Hc as (rcm & st12 & y1 & y2 & Hax & Hret & ->).
  apply axios_inv in Hax as [_ ->].
  apply ret_inv in Hret as (<- & _ & ->).
  pose proof (createTree_updates_no_ref respond owner repo
                (data_tree_sha res) (f :: fs) token) as Htr.
  match type of Htree with
  | createTree _ _ _ _ _ _ ?s = _ => specialize (Htr s)
  end.
  rewrite Htree in Htr. simpl in Htr.
  exists t0, head, rc.
  eexists (Called _ (Ok res) :: w1 ++ [Called _ (Ok rcm)]), rs.
  split; [|split; [|split]].
  - rewrite ?app_nil_r. cbn [app commitSHA]. rewrite <- ?app_assoc.
    cbn [app]. rewrite <- ?app_assoc. reflexivity.
  - pose proof (ensure_repository_writes_nothing respond owner repo token
                  description st) as H.
    rewrite Hens in H. exact H.
  - constructor; [reflexivity|]. apply Forall_app. split; [assumption|].
    constructor; [reflexivity | constructor].
  - reflexivity.
Qed.

Lemma new_branch_is_created_and_targeted_witness :
  exists t0 head rc t1 rs,
    snd (pushFilesAsCommit Example.ref_store "octo" "demo" "main"
           (Some "feature-x") [ {| path := "a.ts"; content := "x" |} ]
           "update" "t0ken" None [])
    = t0
      ++ Called {| req_method := GET;
                   req_url := api "octo" "demo" ("/git/refs/heads/" ++ "main");
                   req_body := NoBody; req_token := "t0ken" |} (Ok head)
      :: Called {| req_method := POST;
                   req_url := api "octo" "demo" "/git/refs";
                   req_body := RefCreateBody ("refs/heads/" ++ "feature-x")
                                 (data_object_sha head);
                   req_token := "t0ken" |} rc
      :: t1
      ++ [Called {| req_method := PATCH;
                    req_url := api "octo" "demo"
                                 ("/git/refs/heads/" ++ "feature-x");
                    req_body := RefUpdateBody "5ha" true;
                    req_token := "t0ken" |} (Ok rs)]
    /\ Forall (fun ev => writes_object ev = false) t0
    /\ Forall (fun ev => updates_ref ev = false) t1
    /\ "https://github.com/octo/demo/tree/feature-x"
       = ("https://github.com/" ++ "octo" ++ "/" ++ "demo" ++ "/tree/"
          ++ "feature-x")%string.
Proof.
  assert (Hne : "feature-x" <> "") by discriminate.
  exact (@new_branch_is_created_and_targeted (list string) Example.ref_store
           "octo" "demo" "main" "feature-x"
           [ {| path := "a.ts"; content := "x" |} ]
           "update" "t0ken" None []
           {| commitSHA := "5ha";
              repoUrl := "https://github.com/octo/demo";
              branchUrl := "https://github.com/octo/demo/tree/feature-x" |}
           _ _ Hne eq_refl).
Defined.

(* ===================================================================== *)
(** * Further properties of the walker                                    *)
(* ===================================================================== *)

(** X1: a tree read refused with 404 becomes the error [Repository
    owner/repo or branch b not found]; a failure that is neither a 404
    nor a 409, a network failure without any reply among them, leaves
    [fetchAllRepositoryFiles] unchanged. *)
Theorem tree_read_errors :
  forall get_tree get_blob engine decode owner repo token branch config e,
    get_tree (Walker.tree_url owner repo
                match branch with Some b => b | None => "main" end) token
    = Throw e ->
    (status_is e 404 = true ->
     Walker.fetchAllRepositoryFiles get_tree get_blob engine decode
       owner repo token branch config
     = Throw (Error ("Repository " ++ owner ++ "/" ++ repo ++ " or branch "
                     ++ match branch with Some b => b | None => "main" end
                     ++ " not found")))
    /\ (status_is e 404 = false -> status_is e 409 = false ->
        Walker.fetchAllRepositoryFiles get_tree get_blob engine decode
          owner repo token branch config
        = Throw e)
    /\ (forall message, e = AxiosError message None ->
        Walker.fetchAllRepositoryFiles get_tree get_blob engine decode
          owner repo token branch config
        = Throw e).
Proof.
  intros get_tree get_blob engine decode owner repo token branch config e Ht.
  unfold Walker.fetchAllRepositoryFiles, Walker.fetchAllRepositoryFiles_run.
  rewrite Ht. simpl. repeat split.
  - intros ->. reflexivity.
  - intros -> ->. reflexivity.
  - intros message ->. reflexivity.
Qed.

Lemma tree_read_errors_witness :
  Walker.fetchAllRepositoryFiles
    (fun _ _ => Throw (Example.rejected 404 "404")) (Example.get_blob "none")
    RegExpFragment.engine Example.decode "octo" "demo" "t0ken" None None
  = Throw (Error "Repository octo/demo or branch main not found").
Proof.
  exact (proj1 (tree_read_errors
                  (fun _ _ => Throw (Example.rejected 404 "404"))
                  (Example.get_blob "none") RegExpFragment.engine
                  Example.decode "octo" "demo" "t0ken" None None eq_refl)
           eq_refl).
Defined.

Lemma contribution_non_blob get_blob engine decode token config item :
  is_blob_item item = false ->
  Walker.contribution get_blob engine decode token config item = ([], 0).
Proof.
  unfold Walker.contribution, is_blob_item. now intros ->.
Qed.

Lemma contribution_blob get_blob engine decode token config item :
  is_blob_item item = true ->
  List.length (fst (Walker.contribution get_blob engine decode token config item))
  + snd (Walker.contribution get_blob engine decode token config item) = 1.
Proof.
  unfold Walker.contribution, is_blob_item. intros ->.
  destruct (Walker.try_entry _ _ _ _ _ item) as [[why|f]|e]; reflexivity.
Qed.

Lemma stops_at_non_blob get_blob engine decode token config item :
  is_blob_item item = false ->
  Walker.stops_at get_blob engine decode token config item = None.
Proof.
  unfold Walker.stops_at, is_blob_item. now intros ->.
Qed.

(** X2: entries that are not blobs (directories, submodules) change
    nothing, not even the skip count; and every blob entry of a walk
    that returns is either among the files returned or counted as
    skipped, so the two numbers add up to the number of blob entries of
    the tree.  The walk returns when no entry throws [null] or
    [undefined]. *)
Theorem every_blob_is_accounted_for :
  forall get_blob engine decode token config tree,
    Walker.walk get_blob engine decode token config tree
    = Walker.walk get_blob engine decode token config
        (filter is_blob_item tree)
    /\ (forall w,
          Walker.walk get_blob engine decode token config tree = Ok w ->
          List.length (Walker.files w) + Walker.skippedCount w
          = List.length (filter is_blob_item tree))
    /\ ((forall item,
            In item tree ->
            Walker.try_entry get_blob engine decode token config item
            <> Raised Null
            /\ Walker.try_entry get_blob engine decode token config item
               <> Raised Undefined) ->
        exists w,
          Walker.walk get_blob engine decode token config tree = Ok w).
Proof.
  intros get_blob engine decode token config tree.
  split; [|split].
  - rewrite !walk_spec. induction tree as [|item tree IH]; [reflexivity|].
    simpl. destruct (is_blob_item item) eqn:E.
    + simpl. destruct (Walker.stops_at _ _ _ _ _ item); [reflexivity|].
      destruct (Walker.first_stop _ _ _ _ _ tree);
        destruct (Walker.first_stop _ _ _ _ _ (filter is_blob_item tree));
        try discriminate; try exact IH; try reflexivity.
      inversion IH as [[IH1 IH2]]. now rewrite IH1, IH2.
    + rewrite (stops_at_non_blob _ _ _ _ _ _ E).
      rewrite (contribution_non_blob _ _ _ _ _ _ E). simpl. exact IH.
  - intros w Hw. apply walk_ok in Hw as [-> ->].
    induction tree as [|item tree IH]; [reflexivity|].
    simpl. rewrite length_app. destruct (is_blob_item item) eqn:E.
    + pose proof (contribution_blob get_blob engine decode token config
                    _ E). simpl. lia.
    + rewrite (contribution_non_blob _ _ _ _ _ _ E). simpl. exact IH.
  - apply walk_returns.
Qed.

Lemma every_blob_is_accounted_for_witness :
  List.length
    [ {| path := "a.ts"; content := "content" |};
      {| path := "c.md"; content := "content" |} ] + 1
  = List.length (filter is_blob_item Example.three_files).
Proof.
  exact (proj1 (proj2 (every_blob_is_accounted_for (Example.get_blob "b.py")
                         RegExpFragment.engine Example.decode "t0ken"
                         Walker.no_config Example.three_files))
           {| Walker.files := [ {| path := "a.ts"; content := "content" |};
                                {| path := "c.md"; content := "content" |} ];
              Walker.skippedCount := 1 |}
           eq_refl).
Defined.

(** X3: the files come back in the order of the tree: their paths are
    the paths of a selection of the tree's entries, in tree order. *)
Theorem files_keep_tree_order :
  forall get_blob engine decode token config tree,
    exists selected : Walker.tree_item -> bool,
      forall w,
        Walker.walk get_blob engine decode token config tree = Ok w ->
        map path (Walker.files w)
        = map Walker.item_path (filter selected tree).
Proof.
  intros get_blob engine decode token config tree.
  exists (fun i =>
            match fst (Walker.contribution get_blob engine decode token
                         config i) with
            | [] => false
            | _ => true
            end).
  intros w Hw. apply walk_ok in Hw as [-> _].
  induction tree as [|item tree IH]; [reflexivity|].
  simpl. rewrite map_app, IH.
  unfold Walker.contribution at 1 3.
  destruct (String.eqb (Walker.item_type item) "blob"); [|reflexivity].
  destruct (Walker.try_entry _ _ _ _ _ item) as [[why|f]|e] eqn:E;
    try reflexivity.
  simpl. f_equal.
  unfold Walker.try_entry, Walker.excluded_by_pattern,
    Walker.skipped_for_extension in E. revert E.
  unfold bind_attempt, attempt_of.
  repeat match goal with
         | |- context [match ?x with _ => _ end] => destruct x
         end; try discriminate;
    intros E; now apply filter_and_keep_fetched in E.
Qed.

Lemma files_keep_tree_order_witness :
  exists selected : Walker.tree_item -> bool,
    map path [ {| path := "a.ts"; content := "content" |};
               {| path := "c.md"; content := "content" |} ]
    = map Walker.item_path (filter selected Example.three_files).
Proof.
  destruct (files_keep_tree_order (Example.get_blob "b.py")
              RegExpFragment.engine Example.decode "t0ken"
              Walker.no_config Example.three_files) as [selected H].
  exists selected.
  exact (H {| Walker.files := [ {| path := "a.ts"; content := "content" |};
                                {| path := "c.md"; content := "content" |} ];
              Walker.skippedCount := 1 |} eq_refl).
Defined.

Lemma filter_and_keep_not_large config item c :
  Walker.filter_and_keep config item c
  <> Done (Walker.Skipped Walker.LargeFile).
Proof.
  unfold Walker.filter_and_keep.
  destruct (Walker.customFilter config) as [flt|]; [|discriminate].
  destruct (flt (Walker.item_path item) c) as [[|]|e]; discriminate.
Qed.

(** X4: the size limit is strict and comes before decoding and the
    custom filter: under every configuration, an entry is skipped as too
    large exactly when no exclude pattern matched it, the extension
    check let it through, its content read succeeded and the size the
    service reports exceeds [maxFileSize]; so a blob of exactly
    [maxFileSize] bytes is not skipped for its size.  Without a
    configured limit the limit is 1048576. *)
Theorem size_limit_is_strict :
  forall get_blob engine decode token config item,
    (Walker.try_entry get_blob engine decode token config item
     = Done (Walker.Skipped Walker.LargeFile)
     <-> Walker.excluded_by_pattern engine config item = Ok false
         /\ Walker.skipped_for_extension config item = false
         /\ exists res,
              get_blob (Walker.item_url item) token = Ok res
              /\ (Walker.maxFileSize_or_default config
                  < Walker.blob_size res)%N)
    /\ (forall res,
          get_blob (Walker.item_url item) token = Ok res ->
          Walker.blob_size res = Walker.maxFileSize_or_default config ->
          Walker.try_entry get_blob engine decode token config item
          <> Done (Walker.Skipped Walker.LargeFile))
    /\ (Walker.maxFileSize config = None ->
        Walker.maxFileSize_or_default config = 1048576%N).
Proof.
  intros get_blob engine decode token config item.
  assert (H : Walker.try_entry get_blob engine decode token config item
              = Done (Walker.Skipped Walker.LargeFile)
              <-> Walker.excluded_by_pattern engine config item = Ok false
                  /\ Walker.skipped_for_extension config item = false
                  /\ exists res,
                       get_blob (Walker.item_url item) token = Ok res
                       /\ (Walker.maxFileSize_or_default config
                           < Walker.blob_size res)%N).
  { unfold Walker.try_entry.
    destruct (Walker.excluded_by_pattern engine config item) as [[|]|e];
      simpl.
    - split; [discriminate | intros [H _]; discriminate].
    - destruct (Walker.skipped_for_extension config item).
      + split; [discriminate | intros (_ & H & _); discriminate].
      + destruct (get_blob (Walker.item_url item) token) as [res|e]; simpl.
        * destruct (_ <? _)%N eqn:E.
          -- apply N.ltb_lt in E. split; [|reflexivity].
             intros _. repeat split. exists res. auto.
          -- apply N.ltb_ge in E. split.
             ++ destruct (decode (Walker.blob_content res)) as [c|e].
                ** intros H. now apply filter_and_keep_not_large in H.
                ** destruct (negb _); [discriminate|].
                   intros H. now apply filter_and_keep_not_large in H.
             ++ intros (_ & _ & res' & Hr & Hlt).
                inversion Hr; subst res'. lia.
        * split; [discriminate|].
          intros (_ & _ & res & Hr & _). discriminate.
    - split; [discriminate | intros [H _]; discriminate]. }
  split; [exact H|]. split.
  - intros res Hg Hs Ht. apply H in Ht as (_ & _ & res' & Hg' & Hlt).
    rewrite Hg in Hg'. inversion Hg'; subst res'. lia.
  - unfold Walker.maxFileSize_or_default. now intros ->.
Qed.

Lemma size_limit_is_strict_witness :
  Walker.try_entry
    (fun _ _ => Ok {| Walker.blob_size := 100; Walker.blob_content := "eA==" |})
    RegExpFragment.engine Example.decode "t0ken"
    {| Walker.includeExtensions := Some ["bin"];
       Walker.excludePatterns := Some ["dist/*"];
       Walker.maxFileSize := Some 100%N; Walker.includeBinary := None;
       Walker.customFilter := None |}
    (Example.blob_item "big.bin")
  <> Done (Walker.Skipped Walker.LargeFile).
Proof.
  exact (proj1 (proj2 (size_limit_is_strict
                  (fun _ _ => Ok {| Walker.blob_size := 100;
                                    Walker.blob_content := "eA==" |})
                  RegExpFragment.engine Example.decode "t0ken"
                  {| Walker.includeExtensions := Some ["bin"];
                     Walker.excludePatterns := Some ["dist/*"];
                     Walker.maxFileSize := Some 100%N;
                     Walker.includeBinary := None;
                     Walker.customFilter := None |}
                  (Example.blob_item "big.bin")))
           {| Walker.blob_size := 100; Walker.blob_content := "eA==" |}
           eq_refl eq_refl).
Defined.

(** X5: exclusion and the extension check are decided before the
    entry's content is read: an entry skipped as excluded or for its
    extension is skipped in the same way whatever the content read
    would answer, a failure included. *)
Theorem filters_precede_the_read :
  forall get_blob get_blob' engine decode token config item why,
    why = Walker.Excluded \/ why = Walker.NonMatchingExtension ->
    Walker.try_entry get_blob engine decode token config item
    = Done (Walker.Skipped why) ->
    Walker.try_entry get_blob' engine decode token config item
    = Done (Walker.Skipped why).
Proof.
  intros get_blob get_blob' engine decode token config item why Hw.
  unfold Walker.try_entry, Walker.excluded_by_pattern,
    Walker.skipped_for_extension.
  destruct (match Walker.excludePatterns config with
            | Some ps => Walker.some_pattern_matches engine ps
                           (Walker.item_path item)
            | None => Ok false
            end) as [[|]|e]; simpl; auto.
  destruct (match Walker.includeExtensions config with
            | Some ((_ :: _) as exts) =>
                negb (Walker.extension_allowed exts (Walker.item_path item))
            | _ => false
            end); auto.
  intros H. exfalso. revert H. unfold bind_attempt, attempt_of.
  destruct Hw as [-> | ->];
    repeat match goal with
           | |- context [match ?x with _ => _ end] => destruct x
           end; try discriminate;
    intros H; now apply filter_and_keep_not_extension in H.
Qed.

Lemma filters_precede_the_read_witness :
  Walker.try_entry (Example.get_blob "b.py") RegExpFragment.engine
    Example.decode "t0ken" (Example.only_extensions ["ts"; "md"])
    (Example.blob_item "b.py")
  = Done (Walker.Skipped Walker.NonMatchingExtension).
Proof.
  exact (filters_precede_the_read (Example.get_blob "none")
           (Example.get_blob "b.py") RegExpFragment.engine Example.decode
           "t0ken" (Example.only_extensions ["ts"; "md"])
           (Example.blob_item "b.py") (or_intror eq_refl) eq_refl).
Defined.

(** X6: a path that ends in a dot has the empty extension, and the
    extension check rejects it under every allow-list, one that lists
    the empty string included. *)
Theorem trailing_dot_is_never_allowed :
  forall stem exts,
    Walker.fileExtension (stem ++ ".") = Some ""
    /\ Walker.extension_allowed exts (stem ++ ".") = false.
Proof.
  intros stem exts.
  assert (H : Walker.fileExtension (stem ++ ".") = Some "").
  { apply (@fileExtension_after_last_dot stem ""). intros []. }
  split; [exact H|].
  unfold Walker.extension_allowed. now rewrite H.
Qed.








Lemma some_pattern_matches_hit engine patterns p g r :
  agrees_on_fragment engine ->
  Forall (fun h => parse (Walker.glob_to_regex_source h) <> None) patterns ->
  In g patterns ->
  parse (Walker.glob_to_regex_source g) = Some r ->
  search r p = true ->
  Walker.some_pattern_matches engine patterns p = Ok true.
Proof.
  intros Hagree Hall Hin Hg Hs.
  induction Hall as [|h patterns Hh _ IH]; [destruct Hin|].
  simpl. destruct (parse (Walker.glob_to_regex_source h)) as [rh|] eqn:E;
    [|congruence].
  assert (Ht : test (Walker.glob_to_regex_source h) p = Some (search rh p)).
  { unfold test. now rewrite E. }
  rewrite (Hagree _ _ _ Ht). simpl.
  destruct (search rh p) eqn:Es; [reflexivity|].
  destruct Hin as [->|Hin]; [congruence | now apply IH].
Qed.

(** X8: with the presets of [fetchSourceCodeFiles], an entry whose path
    has [node_modules/], [dist/] or [build/] anywhere in it, at any
    depth and also as the end of a longer directory name, is skipped as
    excluded. *)
Theorem preset_excludes_directories_at_any_depth :
  forall get_blob engine decode token item dir before after,
    agrees_on_fragment engine ->
    In dir ["node_modules/"; "dist/"; "build/"] ->
    Walker.item_path item = (before ++ dir ++ after)%string ->
    Walker.try_entry get_blob engine decode token Walker.source_config item
    = Done (Walker.Skipped Walker.Excluded).
Proof.
  intros get_blob engine decode token item dir before after Hagree Hdir Hp.
  apply try_entry_excluded. eexists. split; [reflexivity|].
  assert (Hall : Forall
            (fun h => parse (Walker.glob_to_regex_source h) <> None)
            [ "node_modules/*"; "dist/*"; "build/*"; "*.min.js";
              "*.min.css"; "package-lock.json"; "yarn.lock" ]).
  { repeat constructor; discriminate. }
  rewrite Hp.
  assert (Hm : exists g r,
             In g [ "node_modules/*"; "dist/*"; "build/*"; "*.min.js";
                    "*.min.css"; "package-lock.json"; "yarn.lock" ]
             /\ parse (Walker.glob_to_regex_source g) = Some r
             /\ matches r dir).
  { simpl in Hdir. destruct Hdir as [<-|[<-|[<-|[]]]].
    - exists "node_modules/*". eexists. split; [simpl; tauto|].
      split; [reflexivity|].
      repeat (apply matches_one; [reflexivity|]).
      apply matches_many_stop. constructor.
    - exists "dist/*". eexists. split; [simpl; tauto|].
      split; [reflexivity|].
      repeat (apply matches_one; [reflexivity|]).
      apply matches_many_stop. constructor.
    - exists "build/*". eexists. split; [simpl; tauto|].
      split; [reflexivity|].
      repeat (apply matches_one; [reflexivity|]).
      apply matches_many_stop. constructor. }
  destruct Hm as (g & r & Hin & Hparse & Hmatch).
  apply (@some_pattern_matches_hit engine _ _ g r Hagree Hall Hin Hparse).
  apply search_spec. exists before, dir, after. auto.
Qed.

Lemma preset_excludes_directories_at_any_depth_witness :
  Walker.try_entry (Example.get_blob "none") engine Example.decode "t0ken"
    Walker.source_config
    (Example.blob_item "packages/rebuild/index.ts")
  = Done (Walker.Skipped Walker.Excluded).
Proof.
  apply (@preset_excludes_directories_at_any_depth
           (Example.get_blob "none") engine Example.decode "t0ken"
           (Example.blob_item "packages/rebuild/index.ts")
           "build/" "packages/re" "index.ts" engine_agrees).
  - simpl. tauto.
  - reflexivity.
Defined.

(* ===================================================================== *)
(** * Further properties of the validator                                 *)
(* ===================================================================== *)

Lemma replaceAll_absent c r s :
  ~ occurs c s -> replaceAll c r s = s.
Proof.
  induction s as [|d s IH]; simpl; [reflexivity|]. intros H.
  destruct (Ascii.eqb d c) eqn:E.
  - apply Ascii.eqb_eq in E. tauto.
  - rewrite IH by tauto. reflexivity.
Qed.

Lemma normalize_fixpoint f :
  Validator.keep f = true ->
  Validator.keep (Validator.normalize f) = true
  /\ Validator.normalize (Validator.normalize f) = Validator.normalize f.
Proof.
  intros Hk. apply keep_true in Hk as (Hc & Hp & Hi).
  set (p := trim (replaceAll Validator.backslash "/" (path f))).
  assert (Hne : p <> "").
  { unfold p. rewrite trim_empty. intros H.
    apply replace_backslash_keeps_text in H. apply Hp. now apply trim_empty. }
  assert (Hnb : ~ occurs Validator.backslash p).
  { intros H. apply occurs_trim, occurs_replaceAll_char in H.
    destruct H as [H|[_ H]]; [discriminate | now apply H]. }
  assert (Hinv : str_exists Validator.invalidChars p = false).
  { apply str_exists_false. intros c H.
    apply occurs_trim, occurs_replaceAll_char in H.
    destruct H as [->|[H _]]; [reflexivity|].
    now apply (proj1 (str_exists_false _ _) Hi). }
  assert (Htrim : trim p = p) by apply trim_idempotent.
  split.
  - unfold Validator.keep, Validator.normalize. simpl. fold p.
    rewrite Htrim, Hinv.
    destruct (content f) as [|c0 s0] eqn:Ec; [now elim Hc|].
    rewrite <- Ec. simpl.
    destruct (trim (content f)) eqn:Et; [congruence|].
    rewrite Ec. simpl. destruct p; [congruence | reflexivity].
  - unfold Validator.normalize. simpl. fold p.
    now rewrite (@replaceAll_absent Validator.backslash "/" p Hnb), Htrim.
Qed.

Lemma validate_kept l :
  (forall g, In g l -> Validator.keep g = true) ->
  map Validator.normalize
    (filter Validator.keep (map Validator.normalize l))
  = map Validator.normalize l.
Proof.
  induction l as [|f l IH]; intros Hall; [reflexivity|].
  destruct (normalize_fixpoint f (Hall f (or_introl eq_refl))) as [H1 H2].
  simpl. rewrite H1. simpl. rewrite H2. f_equal.
  apply IH. intros g Hg. apply Hall. now right.
Qed.

(** X9: validating twice is validating once: a list that the validator
    returned passes through it unchanged, so no record is dropped and no
    path is rewritten a second time. *)
Theorem validate_is_idempotent :
  forall files,
    Validator.validate (Validator.validate files) = Validator.validate files.
Proof.
  intros files. unfold Validator.validate. apply validate_kept.
  intros g Hg. now apply filter_In in Hg.
Qed.

(* ===================================================================== *)
(** * Further properties of the object store client                       *)
(* ===================================================================== *)

Section ClientFacts.

Variable service_state : Type.
Variable respond : request -> service_state -> result response * service_state.

Lemma axios_run rq st :
  axios respond rq st
  = (fst (respond rq st), snd (respond rq st),
     [Called rq (fst (respond rq st))]).
Proof. unfold axios. now destruct (respond rq st). Qed.

Lemma createTree_entries_ok owner repo token files :
  forall tree st out st' t,
    createTree_entries respond owner repo files token tree st
    = (Ok out, st', t) ->
    exists replies,
      List.length replies = List.length files
      /\ out = tree ++ tree_entries files replies
      /\ t = blob_calls owner repo token files replies.
Proof.
  induction files as [|file files IH]; intros tree st out st' t H.
  - simpl in H. apply ret_inv in H as (<- & _ & ->).
    exists []. now rewrite app_nil_r.
  - simpl in H.
    apply bind_ok_inv in H as (sha & st1 & t1 & t2 & Hb & H & ->).
    unfold createBlob in Hb.
    apply bind_ok_inv in Hb as (res & st2 & u1 & u2 & Hax & Hret & ->).
    apply axios_inv in Hax as [_ ->].
    apply ret_inv in Hret as (<- & _ & ->).
    apply IH in H as (replies & Hlen & -> & ->).
    exists (res :: replies). simpl. rewrite Hlen, <- app_assoc.
    repeat split.
Qed.

Lemma createBlob_events owner repo content token st :
  snd (createBlob respond owner repo content token st)
  = [Called (blob_post owner repo token content)
            (fst (respond (blob_post owner repo token content) st))]
  /\ (forall e, fst (fst (createBlob respond owner repo content token st))
                = Throw e ->
                fst (respond (blob_post owner repo token content) st)
                = Throw e).
Proof.
  unfold createBlob, bind. rewrite axios_run. fold (blob_post owner repo token content).
  destruct (respond (blob_post owner repo token content) st) as [[res|e0] st1];
    simpl; split; try reflexivity; intros e H; congruence.
Qed.

Lemma createTree_entries_throw owner repo token files :
  forall tree st e st' t,
    createTree_entries respond owner repo files token tree st
    = (Throw e, st', t) ->
    Forall (fun ev => posts_blob ev = true) t
    /\ List.length t <= List.length files
    /\ exists content, last t (Slept 0)
                       = Called (blob_post owner repo token content) (Throw e).
Proof.
  induction files as [|file files IH]; intros tree st e st' t H.
  - discriminate.
  - simpl in H.
    destruct (createBlob_events owner repo (content file) token st)
      as [Hev Hthrow].
    destruct (createBlob respond owner repo (content file) token st)
      as [[[sha|e0] st1] t1] eqn:Hb; simpl in Hev, Hthrow.
    + rewrite (bind_ok _ _ _ Hb) in H.
      destruct (createTree_entries _ _ _ _ _ _ st1) as [[[o|e1] st2] t2]
        eqn:Hrest; simpl in H; [discriminate|].
      inversion H; subst. apply IH in Hrest as (Hall & Hlen & c & Hlast).
      repeat split.
      * constructor; [reflexivity | assumption].
      * simpl. lia.
      * exists c. destruct t2 as [|ev t2]; [discriminate Hlast|].
        exact Hlast.
    + rewrite (bind_throw _ _ _ Hb) in H. inversion H; subst.
      rewrite (Hthrow e eq_refl). repeat split.
      * constructor; [reflexivity | constructor].
      * simpl. lia.
      * exists (content file). reflexivity.
Qed.

End ClientFacts.

Lemma createTree_keeps_the_order_of_files_aux
    (service_state : Type)
    (respond : request -> service_state -> result response * service_state)
    owner repo baseTreeSHA files token st sha st' t :
  createTree respond owner repo baseTreeSHA files token st
  = (Ok sha, st', t) ->
  exists replies answer,
    List.length replies = List.length files
    /\ t = blob_calls owner repo token files replies
           ++ [Called (tree_post owner repo token baseTreeSHA
                         (tree_entries files replies)) (Ok answer)]
    /\ sha = data_sha answer.
Proof.
  intros H. unfold createTree in H.
  apply bind_ok_inv in H as (tree & st1 & t1 & t2 & He & H & ->).
  apply createTree_entries_ok in He as (replies & Hlen & -> & ->).
  apply bind_ok_inv in H as (answer & st2 & u1 & u2 & Hax & Hret & ->).
  apply axios_inv in Hax as [_ ->].
  apply ret_inv in Hret as (<- & _ & ->).
  exists replies, answer. cbn [app]. rewrite ?app_nil_r. auto.
Qed.

(** X10: a [createTree] that returns has posted one blob per file, in
    the order of the files and each with that file's content, and then
    one tree anchored at [baseTreeSHA] whose entries are, in the same
    order, the files' paths with mode 100644, type blob and the sha the
    service gave for that file's blob; what it returns is the sha of
    that tree. *)
Theorem createTree_keeps_the_order_of_files :
  forall (service_state : Type)
         (respond : request -> service_state -> result response * service_state)
         owner repo baseTreeSHA files token st sha st' t,
    createTree respond owner repo baseTreeSHA files token st
    = (Ok sha, st', t) ->
    exists replies answer,
      List.length replies = List.length files
      /\ t = blob_calls owner repo token files replies
             ++ [Called (tree_post owner repo token baseTreeSHA
                           (tree_entries files replies)) (Ok answer)]
      /\ sha = data_sha answer.
Proof.
  intros service_state respond owner repo baseTreeSHA files token st sha st'
    t H.
  now apply createTree_keeps_the_order_of_files_aux in H.
Qed.

Lemma createTree_keeps_the_order_of_files_witness :
  exists replies answer,
    List.length replies = 2
    /\ snd (createTree Example.ref_store "octo" "demo" "tree0"
              [ {| path := "b.ts"; content := "two" |};
                {| path := "a.ts"; content := "one" |} ] "t0ken" [])
       = blob_calls "octo" "demo" "t0ken"
           [ {| path := "b.ts"; content := "two" |};
             {| path := "a.ts"; content := "one" |} ] replies
         ++ [Called (tree_post "octo" "demo" "t0ken" "tree0"
                       (tree_entries
                          [ {| path := "b.ts"; content := "two" |};
                            {| path := "a.ts"; content := "one" |} ]
                          replies)) (Ok answer)]
    /\ "5ha" = data_sha answer.
Proof.
  exact (@createTree_keeps_the_order_of_files (list string) Example.ref_store
           "octo" "demo" "tree0"
           [ {| path := "b.ts"; content := "two" |};
             {| path := "a.ts"; content := "one" |} ] "t0ken" [] "5ha"
           _ _ eq_refl).
Defined.

(** X11: when the service refuses a blob, [createTree] stops there: it
    throws that error, it has posted blobs only (no tree), at most one
    per file, and the refused blob is its last request. *)
Theorem createTree_stops_at_a_refused_blob :
  forall (service_state : Type)
         (respond : request -> service_state -> result response * service_state)
         owner repo baseTreeSHA files token st e st' t,
    createTree_entries respond owner repo files token [] st
    = (Throw e, st', t) ->
    createTree respond owner repo baseTreeSHA files token st
    = (Throw e, st', t)
    /\ Forall (fun ev => posts_blob ev = true) t
    /\ List.length t <= List.length files
    /\ exists content,
         last t (Slept 0)
         = Called (blob_post owner repo token content) (Throw e).
Proof.
  intros service_state respond owner repo baseTreeSHA files token st e st' t
    H.
  split.
  - unfold createTree. now rewrite (bind_throw _ _ _ H).
  - now apply createTree_entries_throw in H.
Qed.

Lemma createTree_stops_at_a_refused_blob_witness :
  createTree (fun rq (st : unit) => (Throw (Example.rejected 500 "500"), st))
    "octo" "demo" "tree0"
    [ {| path := "a.ts"; content := "one" |};
      {| path := "b.ts"; content := "two" |} ] "t0ken" tt
  = (Throw (Example.rejected 500 "500"), tt,
     [Called (blob_post "octo" "demo" "t0ken" "one")
             (Throw (Example.rejected 500 "500"))]).
Proof.
  exact (proj1 (@createTree_stops_at_a_refused_blob unit
                  (fun rq st => (Throw (Example.rejected 500 "500"), st))
                  "octo" "demo" "tree0"
                  [ {| path := "a.ts"; content := "one" |};
                    {| path := "b.ts"; content := "two" |} ] "t0ken" tt
                  _ _ _ eq_refl)).
Defined.

(** X12: [commitFilesToBranch] uses the files as they are given, without
    validation: when it returns, it has read the branch head and that
    commit's tree, posted one blob per given file in order, one tree on
    the commit's tree, one commit whose only parent is the head read and
    whose tree is the new tree, and has forced the branch to that
    commit, whose sha it returns.  With no file at all this is still
    done, with an empty list of entries. *)
Theorem commitFilesToBranch_trace :
  forall (service_state : Type)
         (respond : request -> service_state -> result response * service_state)
         owner repo branch files message token st sha st' t,
    commitFilesToBranch respond owner repo branch files message token st
    = (Ok sha, st', t) ->
    exists head commit replies answer made rs,
      List.length replies = List.length files
      /\ t = Called (head_request owner repo branch token) (Ok head)
             :: Called (commit_request owner repo (data_object_sha head) token)
                       (Ok commit)
             :: blob_calls owner repo token files replies
             ++ [ Called (tree_post owner repo token (data_tree_sha commit)
                            (tree_entries files replies)) (Ok answer);
                  Called (commit_post owner repo token message
                            (data_object_sha head) (data_sha answer))
                         (Ok made);
                  Called (ref_patch owner repo token branch (data_sha made))
                         (Ok rs) ]
      /\ sha = data_sha made.
Proof.
  intros service_state respond owner repo branch files message token st sha
    st' t H.
  unfold commitFilesToBranch in H.
  apply bind_ok_inv in H as (baseSHA & st1 & t1 & t2 & Hh & H & ->).
  unfold getBranchSHA in Hh.
  apply bind_ok_inv in Hh as (head & st2 & u1 & u2 & Hax & Hret & ->).
  apply axios_inv in Hax as [_ ->]. apply ret_inv in Hret as (<- & _ & ->).
  apply bind_ok_inv in H as (baseTree & st3 & t3 & t4 & Hc & H & ->).
  unfold getCommitTreeSHA in Hc.
  apply bind_ok_inv in Hc as (commit & st4 & u3 & u4 & Hax & Hret & ->).
  apply axios_inv in Hax as [_ ->]. apply ret_inv in Hret as (<- & _ & ->).
  apply bind_ok_inv in H as (newTree & st5 & t5 & t6 & Ht & H & ->).
  apply createTree_keeps_the_order_of_files_aux in Ht
    as (replies & answer & Hlen & -> & ->).
  apply bind_ok_inv in H as (csha & st6 & t7 & t8 & Hc & H & ->).
  unfold createCommit in Hc.
  apply bind_ok_inv in Hc as (made & st7 & u5 & u6 & Hax & Hret & ->).
  apply axios_inv in Hax as [_ ->]. apply ret_inv in Hret as (<- & _ & ->).
  apply bind_ok_inv in H as ([] & st8 & t9 & t10 & Hu & Hret & ->).
  apply ret_inv in Hret as (<- & _ & ->).
  unfold updateBranch in Hu.
  apply bind_ok_inv in Hu as (rs & st9 & u7 & u8 & Hax & Hret & ->).
  apply axios_inv in Hax as [_ ->]. apply ret_inv in Hret as (_ & _ & ->).
  exists head, commit, replies, answer, made, rs.
  split; [assumption|]. split; [|reflexivity].
  rewrite ?app_nil_r. cbn [app]. rewrite <- ?app_assoc. reflexivity.
Qed.

Lemma commitFilesToBranch_trace_witness :
  exists head commit replies answer made rs,
    List.length replies = 0
    /\ snd (commitFilesToBranch Example.ref_store "octo" "demo" "main" []
              "empty" "t0ken" [])
       = Called (head_request "octo" "demo" "main" "t0ken") (Ok head)
         :: Called (commit_request "octo" "demo" (data_object_sha head)
                      "t0ken") (Ok commit)
         :: blob_calls "octo" "demo" "t0ken" [] replies
         ++ [ Called (tree_post "octo" "demo" "t0ken" (data_tree_sha commit)
                        (tree_entries [] replies)) (Ok answer);
              Called (commit_post "octo" "demo" "t0ken" "empty"
                        (data_object_sha head) (data_sha answer)) (Ok made);
              Called (ref_patch "octo" "demo" "t0ken" "main" (data_sha made))
                     (Ok rs) ]
    /\ "5ha" = data_sha made.
Proof.
  exact (@commitFilesToBranch_trace (list string) Example.ref_store
           "octo" "demo" "main" [] "empty" "t0ken" [] "5ha" _ _ eq_refl).
Defined.

(* ===================================================================== *)
(** * Further properties of the publisher                                 *)
(* ===================================================================== *)

Section PublishFacts.

Variable service_state : Type.
Variable respond : request -> service_state -> result response * service_state.

(** The branch the publish works on: [baseBranch] after the
    reassignment. *)
Lemma resolve_base_ok owner repo baseBranch newBranch token st base st' t :
  resolve_base respond owner repo baseBranch newBranch token st
  = (Ok base, st', t) ->
  exists head commit,
    base = {| base_sha := data_object_sha head;
              target_branch :=
                match newBranch with
                | Some (String a nb) => String a nb
                | _ => baseBranch
                end;
              base_tree_sha := data_tree_sha commit |}
    /\ match newBranch with
       | Some (String a nb) =>
           exists rc,
             t = [ Called (head_request owner repo baseBranch token) (Ok head);
                   Called (ref_post owner repo token (String a nb)
                             (data_object_sha head)) rc;
                   Called (commit_request owner repo (data_object_sha head)
                             token) (Ok commit) ]
       | _ =>
           t = [ Called (head_request owner repo baseBranch token) (Ok head);
                 Called (commit_request owner repo (data_object_sha head)
                           token) (Ok commit) ]
       end.
Proof.
  intros H. unfold resolve_base in H.
  apply bind_ok_inv in H as (baseSHA & st1 & t1 & t2 & Hh & H & ->).
  unfold getBranchSHA in Hh.
  apply bind_ok_inv in Hh as (head & st2 & u1 & u2 & Hax & Hret & ->).
  apply axios_inv in Hax as [_ ->]. apply ret_inv in Hret as (<- & <- & ->).
  apply bind_ok_inv in H as (target & st3 & t3 & t4 & Hb & H & ->).
  apply bind_ok_inv in H as (commit & st4 & t5 & t6 & Hax & Hret & ->).
  apply axios_inv in Hax as [_ ->]. apply ret_inv in Hret as (<- & _ & ->).
  exists head, commit.
  destruct newBranch as [[|a nb]|].
  - apply ret_inv in Hb as (<- & _ & ->). split; reflexivity.
  - apply bind_ok_inv in Hb as ([] & st5 & v1 & v2 & Hcb & Hret & ->).
    apply ret_inv in Hret as (<- & _ & ->).
    destruct (createBranch_events respond owner repo (String a nb)
                (data_object_sha head) token st2) as (rc & Hev).
    rewrite Hcb in Hev. simpl in Hev. subst v1.
    split; [reflexivity|]. exists rc. reflexivity.
  - apply ret_inv in Hb as (<- & _ & ->). split; reflexivity.
Qed.

Lemma commit_files_ok owner repo base files commitMessage token st r st' t :
  commit_files respond owner repo base files commitMessage token st
  = (Ok r, st', t) ->
  exists replies answer made rs,
    Validator.validate files <> []
    /\ List.length replies = List.length (Validator.validate files)
    /\ t = blob_calls owner repo token (Validator.validate files) replies
           ++ [ Called (tree_post owner repo token (base_tree_sha base)
                          (tree_entries (Validator.validate files) replies))
                       (Ok answer);
                Called (commit_post owner repo token commitMessage
                          (base_sha base) (data_sha answer)) (Ok made);
                Called (ref_patch owner repo token (target_branch base)
                          (data_sha made)) (Ok rs) ]
    /\ r = {| commitSHA := data_sha made;
              repoUrl := "https://github.com/" ++ owner ++ "/" ++ repo;
              branchUrl := "https://github.com/" ++ owner ++ "/" ++ repo
                           ++ "/tree/" ++ target_branch base |}.
Proof.
  intros H. unfold commit_files in H.
  destruct (Validator.validate files) as [|f fs] eqn:Ev; [discriminate|].
  apply bind_ok_inv in H as (newTree & st1 & t1 & t2 & Ht & H & ->).
  apply createTree_keeps_the_order_of_files_aux in Ht
    as (replies & answer & Hlen & -> & ->).
  apply bind_ok_inv in H as (csha & st2 & t3 & t4 & Hc & H & ->).
  unfold createCommit in Hc.
  apply bind_ok_inv in Hc as (made & st3 & u1 & u2 & Hax & Hret & ->).
  apply axios_inv in Hax as [_ ->]. apply ret_inv in Hret as (<- & _ & ->).
  apply bind_ok_inv in H as ([] & st4 & t5 & t6 & Hu & Hret & ->).
  apply ret_inv in Hret as (<- & _ & ->).
  unfold updateBranch in Hu.
  apply bind_ok_inv in Hu as (rs & st5 & u3 & u4 & Hax & Hret & ->).
  apply axios_inv in Hax as [_ ->]. apply ret_inv in Hret as (_ & _ & ->).
  exists replies, answer, made, rs.
  split; [discriminate|]. split; [assumption|]. split; [|reflexivity].
  rewrite ?app_nil_r. cbn [app]. rewrite <- ?app_assoc. reflexivity.
Qed.

End PublishFacts.

(** X13: a publish that returns has, after the token and repository
    steps and the resolution of the base, posted one blob per validated
    file, in the order of the input and with the normalised records'
    content, then one tree on the tree of the base head's commit with
    one entry per validated file in that order, then one commit whose
    only parent is the base head and whose tree is the new tree, and has
    last forced the target branch to that commit; it returns that
    commit's sha and the repository's URL. *)
Theorem publish_trace :
  forall (service_state : Type)
         (respond : request -> service_state -> result response * service_state)
         owner repo baseBranch newBranch files commitMessage token description
         st r st' t,
    pushFilesAsCommit respond owner repo baseBranch newBranch files
      commitMessage token description st = (Ok r, st', t) ->
    exists before base replies answer made rs,
      Validator.validate files <> []
      /\ List.length replies = List.length (Validator.validate files)
      /\ Forall (fun ev => writes_object ev = false) before
      /\ t = before
             ++ blob_calls owner repo token (Validator.validate files) replies
             ++ [ Called (tree_post owner repo token (base_tree_sha base)
                            (tree_entries (Validator.validate files) replies))
                         (Ok answer);
                  Called (commit_post owner repo token commitMessage
                            (base_sha base) (data_sha answer)) (Ok made);
                  Called (ref_patch owner repo token (target_branch base)
                            (data_sha made)) (Ok rs) ]
      /\ (exists head commit,
             In (Called (head_request owner repo baseBranch token) (Ok head))
                before
             /\ In (Called (commit_request owner repo (data_object_sha head)
                              token) (Ok commit)) before
             /\ base_sha base = data_object_sha head
             /\ base_tree_sha base = data_tree_sha commit)
      /\ commitSHA r = data_sha made
      /\ repoUrl r = ("https://github.com/" ++ owner ++ "/" ++ repo)%string.
Proof.
  intros service_state respond owner repo baseBranch newBranch files
    commitMessage token description st r st' t H.
  apply pushFilesAsCommit_ok_inv in H
    as (st1 & t0 & base & st2 & t2 & t3 & Hens & Hres & Hcom & ->).
  apply commit_files_ok in Hcom
    as (replies & answer & made & rs & Hne & Hlen & -> & ->).
  pose proof (ensure_repository_writes_nothing respond owner repo token
                description st) as H0.
  rewrite Hens in H0. simpl in H0.
  pose proof (resolve_base_writes_nothing respond owner repo baseBranch
                newBranch token st1) as H2.
  rewrite Hres in H2. simpl in H2.
  apply resolve_base_ok in Hres as (head & commit & Hb & Ht).
  exists (t0 ++ t2), base, replies, answer, made, rs.
  split; [assumption|]. split; [assumption|].
  split; [now apply Forall_app|].
  split; [now rewrite <- app_assoc|].
  split; [|split; reflexivity].
  exists head, commit. subst base. simpl.
  destruct newBranch as [[|a nb]|]; [|destruct Ht as (rc & Ht)|];
    subst t2; repeat split; apply in_or_app; right; simpl; tauto.
Qed.

Lemma publish_trace_witness :
  exists before base replies answer made rs,
    Validator.validate
      [ {| path := "src\a.ts"; content := "one" |};
        {| path := "b.ts"; content := "" |} ] <> []
    /\ List.length replies
       = List.length (Validator.validate
                        [ {| path := "src\a.ts"; content := "one" |};
                          {| path := "b.ts"; content := "" |} ])
    /\ Forall (fun ev => writes_object ev = false) before
    /\ snd (pushFilesAsCommit Example.ref_store "octo" "demo" "main" None
              [ {| path := "src\a.ts"; content := "one" |};
                {| path := "b.ts"; content := "" |} ]
              "update" "t0ken" None [])
       = before
         ++ blob_calls "octo" "demo" "t0ken"
              (Validator.validate
                 [ {| path := "src\a.ts"; content := "one" |};
                   {| path := "b.ts"; content := "" |} ]) replies
         ++ [ Called (tree_post "octo" "demo" "t0ken" (base_tree_sha base)
                        (tree_entries
                           (Validator.validate
                              [ {| path := "src\a.ts"; content := "one" |};
                                {| path := "b.ts"; content := "" |} ])
                           replies)) (Ok answer);
              Called (commit_post "octo" "demo" "t0ken" "update"
                        (base_sha base) (data_sha answer)) (Ok made);
              Called (ref_patch "octo" "demo" "t0ken" (target_branch base)
                        (data_sha made)) (Ok rs) ]
    /\ (exists head commit,
           In (Called (head_request "octo" "demo" "main" "t0ken") (Ok head))
              before
           /\ In (Called (commit_request "octo" "demo" (data_object_sha head)
                            "t0ken") (Ok commit)) before
           /\ base_sha base = data_object_sha head
           /\ base_tree_sha base = data_tree_sha commit)
    /\ "5ha" = data_sha made
    /\ "https://github.com/octo/demo"
       = ("https://github.com/" ++ "octo" ++ "/" ++ "demo")%string.
Proof.
  exact (@publish_trace (list string) Example.ref_store
           "octo" "demo" "main" None
           [ {| path := "src\a.ts"; content := "one" |};
             {| path := "b.ts"; content := "" |} ]
           "update" "t0ken" None []
           {| commitSHA := "5ha"; repoUrl := "https://github.com/octo/demo";
              branchUrl := "https://github.com/octo/demo/tree/main" |}
           _ _ eq_refl).
Defined.

Lemma ensure_repository_creates_no_ref (service_state : Type)
    (respond : request -> service_state -> result response * service_state)
    owner repo token description :
  emits_only (fun ev => creates_ref ev = false)
    (ensure_repository respond owner repo token description).
Proof.
  unfold ensure_repository, verifyToken, repositoryExists, createRepository.
  emits.
Qed.

Lemma last_of_three {A} (l : list A) a b c d :
  last (l ++ [a; b; c]) d = c.
Proof.
  replace (l ++ [a; b; c]) with ((l ++ [a; b]) ++ [c])
    by (now rewrite <- app_assoc).
  apply last_last.
Qed.

Lemma blob_calls_are_blob_posts owner repo token files replies :
  Forall (fun ev => posts_blob ev = true)
    (blob_calls owner repo token files replies).
Proof.
  unfold blob_calls. apply Forall_forall. intros ev Hin.
  apply in_map_iff in Hin as (fr & <- & _). reflexivity.
Qed.

(** X14: without a new branch, [newBranch] undefined or the empty
    string, a publish that returns has created no ref at all, its last
    request is the forced update of [baseBranch] itself, and the
    [branchUrl] it returns ends in [/tree/baseBranch]. *)
Theorem publish_without_new_branch :
  forall (service_state : Type)
         (respond : request -> service_state -> result response * service_state)
         owner repo baseBranch newBranch files commitMessage token description
         st r st' t,
    newBranch = None \/ newBranch = Some "" ->
    pushFilesAsCommit respond owner repo baseBranch newBranch files
      commitMessage token description st = (Ok r, st', t) ->
    Forall (fun ev => creates_ref ev = false) t
    /\ (exists rs,
          last t (Slept 0)
          = Called (ref_patch owner repo token baseBranch (commitSHA r))
                   (Ok rs))
    /\ branchUrl r
       = ("https://github.com/" ++ owner ++ "/" ++ repo ++ "/tree/"
          ++ baseBranch)%string.
Proof.
  intros service_state respond owner repo baseBranch newBranch files
    commitMessage token description st r st' t Hnb H.
  apply pushFilesAsCommit_ok_inv in H
    as (st1 & t0 & base & st2 & t2 & t3 & Hens & Hres & Hcom & ->).
  apply commit_files_ok in Hcom
    as (replies & answer & made & rs & Hne & Hlen & -> & ->).
  pose proof (ensure_repository_creates_no_ref respond owner repo token
                description st) as H0.
  rewrite Hens in H0. simpl in H0.
  apply resolve_base_ok in Hres as (head & commit & Hb & Ht).
  assert (Htarget : target_branch base = baseBranch
                    /\ Forall (fun ev => creates_ref ev = false) t2).
  { subst base. destruct Hnb as [-> | ->]; subst t2; simpl;
      (split; [reflexivity | repeat constructor]). }
  destruct Htarget as [Htarget Ht2]. rewrite Htarget.
  split; [|split].
  - repeat (apply Forall_app; split); try assumption.
    + eapply Forall_impl; [|apply blob_calls_are_blob_posts].
      intros [rq rs'|ms]; simpl; [|discriminate].
      destruct (req_body rq); simpl; congruence.
    + repeat constructor.
  - exists rs. rewrite !app_assoc. apply last_of_three.
  - reflexivity.
Qed.

Lemma publish_without_new_branch_witness :
  Forall (fun ev => creates_ref ev = false)
    (snd (pushFilesAsCommit Example.ref_store "octo" "demo" "main" (Some "")
            [ {| path := "a.ts"; content := "x" |} ] "update" "t0ken" None
            []))
  /\ (exists rs,
        last (snd (pushFilesAsCommit Example.ref_store "octo" "demo" "main"
                     (Some "") [ {| path := "a.ts"; content := "x" |} ]
                     "update" "t0ken" None [])) (Slept 0)
        = Called (ref_patch "octo" "demo" "t0ken" "main" "5ha") (Ok rs))
  /\ "https://github.com/octo/demo/tree/main"
     = ("https://github.com/" ++ "octo" ++ "/" ++ "demo" ++ "/tree/"
        ++ "main")%string.
Proof.
  exact (@publish_without_new_branch (list string) Example.ref_store
           "octo" "demo" "main" (Some "")
           [ {| path := "a.ts"; content := "x" |} ] "update" "t0ken" None []
           {| commitSHA := "5ha"; repoUrl := "https://github.com/octo/demo";
              branchUrl := "https://github.com/octo/demo/tree/main" |}
           _ _ (or_intror eq_refl) eq_refl).
Defined.

Section RefUpdate.

Variable service_state : Type.
Variable respond : request -> service_state -> result response * service_state.
Variables owner repo token : string.

Lemma quiet_then_update {A B} (c : M service_state A)
    (k : A -> M service_state B) :
  emits_only (fun ev => updates_ref ev = false) c ->
  (forall a st, exists t1 t2,
      snd (k a st) = t1 ++ t2
      /\ Forall (fun ev => updates_ref ev = false) t1
      /\ (t2 = [] \/ exists branch sha rs,
             t2 = [Called (ref_patch owner repo token branch sha) rs])) ->
  forall st, exists t1 t2,
      snd (bind c k st) = t1 ++ t2
      /\ Forall (fun ev => updates_ref ev = false) t1
      /\ (t2 = [] \/ exists branch sha rs,
             t2 = [Called (ref_patch owner repo token branch sha) rs]).
Proof.
  intros Hc Hk st. unfold bind. specialize (Hc st).
  destruct (c st) as [[[a|e] st1] t0]; simpl in Hc.
  - destruct (Hk a st1) as (t1 & t2 & E & H1 & H2).
    destruct (k a st1) as [[r st2] tk]. simpl in *. subst tk.
    exists (t0 ++ t1), t2. rewrite app_assoc.
    split; [reflexivity|]. split; [now apply Forall_app | assumption].
  - exists t0, []. rewrite app_nil_r. simpl. auto.
Qed.

Lemma quiet_is_enough {A} (c : M service_state A) :
  emits_only (fun ev => updates_ref ev = false) c ->
  forall st, exists t1 t2,
      snd (c st) = t1 ++ t2
      /\ Forall (fun ev => updates_ref ev = false) t1
      /\ (t2 = [] \/ exists branch sha rs,
             t2 = [Called (ref_patch owner repo token branch sha) rs]).
Proof.
  intros Hc st. exists (snd (c st)), []. rewrite app_nil_r. auto.
Qed.

End RefUpdate.

Section RefCreation.

Variable service_state : Type.
Variable respond : request -> service_state -> result response * service_state.

Lemma emits_only_weaken {A} (P Q : event -> Prop) (c : M service_state A) :
  (forall ev, Q ev -> P ev) -> emits_only Q c -> emits_only P c.
Proof.
  intros H Hc st. eapply Forall_impl; [exact H | apply Hc].
Qed.

Lemma createTree_creates_no_ref owner repo baseTreeSHA files token :
  emits_only (fun ev => creates_ref ev = false)
    (createTree respond owner repo baseTreeSHA files token).
Proof.
  unfold createTree. apply emits_only_bind; [|intros; emits].
  generalize (@nil TreeEntry). induction files as [|file files IH];
    intros tree; simpl.
  - emits.
  - unfold createBlob. emits. apply IH.
Qed.

(** The one request of a publish that creates a ref is the creation of
    [refs/heads/newBranch]. *)
Lemma pushFilesAsCommit_ref_creations owner repo baseBranch newBranch files
    commitMessage token description :
  emits_only
    (fun ev =>
       creates_ref ev = true ->
       exists nb sha rs,
         newBranch = Some nb /\ nb <> ""
         /\ ev = Called (ref_post owner repo token nb sha) rs)
    (pushFilesAsCommit respond owner repo baseBranch newBranch files
       commitMessage token description).
Proof.
  assert (Hq : forall A (c : M service_state A),
             emits_only (fun ev => creates_ref ev = false) c ->
             emits_only
               (fun ev =>
                  creates_ref ev = true ->
                  exists nb sha rs,
                    newBranch = Some nb /\ nb <> ""
                    /\ ev = Called (ref_post owner repo token nb sha) rs) c).
  { intros A c. apply emits_only_weaken. intros ev -> H. discriminate. }
  unfold pushFilesAsCommit. apply emits_only_try_catch;
    [|intros; apply push_catch_silent].
  apply emits_only_bind.
  { apply Hq. unfold ensure_repository, verifyToken, repositoryExists,
      createRepository. emits. }
  intros _. apply emits_only_bind.
  - unfold resolve_base. apply emits_only_bind.
    { apply Hq. unfold getBranchSHA. emits. }
    intros baseSHA. apply emits_only_bind; [|intros; apply Hq; emits].
    destruct newBranch as [[|c nb]|];
      [apply Hq; emits | | apply Hq; emits].
    apply emits_only_bind; [|intros; apply emits_only_ret].
    unfold createBranch. apply emits_only_try_catch.
    + apply emits_only_bind; [|intros; apply emits_only_ret].
      apply emits_only_axios. intros rs _.
      exists (String c nb), baseSHA, rs.
      split; [reflexivity|]. split; [discriminate | reflexivity].
    + intros e. destruct (status_is e 422);
        [apply emits_only_ret | apply emits_only_throw].
  - intros base. apply Hq. unfold commit_files.
    destruct (Validator.validate files) as [|f fs]; [emits|].
    apply emits_only_bind; [apply createTree_creates_no_ref|].
    intros. unfold createCommit, updateBranch. emits.
Qed.

End RefCreation.

(** X15: in every run of [pushFilesAsCommit], whether it returns or
    throws, a ref is updated at most once, by a forced update, and that
    update is the last request of the run, so that a run which fails
    earlier has updated no ref.  Every request of a run that asks for
    the creation of a ref is the POST of [refs/heads/newBranch], sent
    only when a non-empty [newBranch] is given; it comes before
    validation, so a run that fails after it can leave that new branch
    behind. *)
Theorem ref_update_is_the_last_request :
  forall (service_state : Type)
         (respond : request -> service_state -> result response * service_state)
         owner repo baseBranch newBranch files commitMessage token description
         st,
  (exists t1 t2,
      snd (pushFilesAsCommit respond owner repo baseBranch newBranch files
             commitMessage token description st) = t1 ++ t2
      /\ Forall (fun ev => updates_ref ev = false) t1
      /\ (t2 = [] \/ exists branch sha rs,
             t2 = [Called (ref_patch owner repo token branch sha) rs]))
  /\ Forall
       (fun ev =>
          creates_ref ev = true ->
          exists nb sha rs,
            newBranch = Some nb /\ nb <> ""
            /\ ev = Called (ref_post owner repo token nb sha) rs)
       (snd (pushFilesAsCommit respond owner repo baseBranch newBranch files
               commitMessage token description st)).
Proof.
  intros service_state respond owner repo baseBranch newBranch files
    commitMessage token description st.
  split; [|apply pushFilesAsCommit_ref_creations].
  assert (Hbody : forall st, exists t1 t2,
    snd (bind (ensure_repository respond owner repo token description)
           (fun _ =>
              bind (resolve_base respond owner repo baseBranch newBranch token)
                (fun base =>
                   commit_files respond owner repo base files commitMessage
                     token)) st) = t1 ++ t2
    /\ Forall (fun ev => updates_ref ev = false) t1
    /\ (t2 = [] \/ exists branch sha rs,
           t2 = [Called (ref_patch owner repo token branch sha) rs])).
  { apply quiet_then_update.
    { unfold ensure_repository, verifyToken, repositoryExists,
        createRepository. emits. }
    intros _. apply quiet_then_update.
    { unfold resolve_base, getBranchSHA, createBranch. emits. }
    intros base. unfold commit_files.
    destruct (Validator.validate files) as [|f fs].
    { apply quiet_is_enough. apply emits_only_throw. }
    apply quiet_then_update; [apply createTree_updates_no_ref|].
    intros newTree. apply quiet_then_update.
    { unfold createCommit. emits. }
    intros commit st0. unfold updateBranch, bind. rewrite axios_run.
    exists [], [Called (ref_patch owner repo token (target_branch base) commit)
                  (fst (respond (ref_patch owner repo token
                                   (target_branch base) commit) st0))].
    split.
    - unfold ref_patch.
      destruct (respond _ st0) as [[res|e] st1]; reflexivity.
    - split; [constructor|]. right. eauto. }
  unfold pushFilesAsCommit, try_catch.
  destruct (Hbody st) as (t1 & t2 & E & H1 & H2).
  destruct (bind _ _ st) as [[[r|e] st1] tb]; simpl in E; subst tb.
  - exists t1, t2. auto.
  - destruct (@push_catch_throws service_state push_result e) as (e' & He).
    rewrite He. simpl. rewrite app_nil_r. exists t1, t2. auto.
Qed.

(** A publish to a new branch that fails at validation has already
    created the branch. *)
Example failed_publish_leaves_the_new_branch :
  pushFilesAsCommit Example.ref_store "octo" "demo" "main" (Some "feature-x")
    [ {| path := ""; content := "x" |} ] "update" "t0ken" None []
  = (Throw (Error "No valid files to commit after validation"),
     ["refs/heads/feature-x"],
     snd (pushFilesAsCommit Example.ref_store "octo" "demo" "main"
            (Some "feature-x") [ {| path := ""; content := "x" |} ]
            "update" "t0ken" None []))
  /\ Exists (fun ev => creates_ref ev = true)
       (snd (pushFilesAsCommit Example.ref_store "octo" "demo" "main"
               (Some "feature-x") [ {| path := ""; content := "x" |} ]
               "update" "t0ken" None [])).
Proof.
  split; [reflexivity|].
  vm_compute. do 3 apply Exists_cons_tl. apply Exists_cons_hd. reflexivity.
Qed.

(** X16: when the token check fails, whatever the reason and whatever
    the status of the reply, [pushFilesAsCommit] throws [GitHub token
    verification failed: ...] with the transport's message, and the
    check is the only request it has made. *)
Theorem rejected_token_stops_the_publish :
  forall (service_state : Type)
         (respond : request -> service_state -> result response * service_state)
         owner repo baseBranch newBranch files commitMessage token description
         st e st1,
    respond (user_request token) st = (Throw e, st1) ->
    pushFilesAsCommit respond owner repo baseBranch newBranch files
      commitMessage token description st
    = (Throw (Error ("GitHub token verification failed: " ++ exn_message e)),
       st1, [Called (user_request token) (Throw e)]).
Proof.
  intros service_state respond owner repo baseBranch newBranch files
    commitMessage token description st e st1 H.
  unfold pushFilesAsCommit, try_catch, ensure_repository.
  assert (Hv : verifyToken respond token st
               = (Throw (Error ("GitHub token verification failed: "
                                ++ exn_message e)),
                  st1, [Called (user_request token) (Throw e)])).
  { unfold verifyToken, try_catch, bind. rewrite axios_run.
    fold (user_request token). rewrite H. reflexivity. }
  rewrite (bind_throw _ _ _ (bind_throw _ _ _ Hv)).
  reflexivity.
Qed.

Lemma rejected_token_stops_the_publish_witness :
  pushFilesAsCommit
    (fun rq (st : unit) => (Throw (Example.rejected 422 "422"), st))
    "octo" "demo" "main" None [ {| path := "a.ts"; content := "x" |} ]
    "update" "bad" None tt
  = (Throw (Error ("GitHub token verification failed: "
                   ++ "Request failed with status code 422")),
     tt, [Called (user_request "bad") (Throw (Example.rejected 422 "422"))]).
Proof.
  exact (@rejected_token_stops_the_publish unit
           (fun rq st => (Throw (Example.rejected 422 "422"), st))
           "octo" "demo" "main" None [ {| path := "a.ts"; content := "x" |} ]
           "update" "bad" None tt (Example.rejected 422 "422") tt eq_refl).
Defined.

(** X17: after a successful token check, the repository step reads the
    repository once.  If that read succeeds nothing is created.  If it
    is refused with 404, one repository is posted under the user, public
    and auto-initialised, described by [repoDescription] or, when that
    is undefined or empty, by [Generated repository from v0], and the
    run then waits 2000 ms; a refusal of that post is thrown before any
    wait.  If the read fails otherwise, that error is thrown and nothing
    is created. *)
Theorem repository_is_created_only_after_404 :
  forall (service_state : Type)
         (respond : request -> service_state -> result response * service_state)
         owner repo token description st user st1 rs st2,
    respond (user_request token) st = (Ok user, st1) ->
    respond (repository_request owner repo token) st1 = (rs, st2) ->
    (forall found, rs = Ok found ->
       ensure_repository respond owner repo token description st
       = (Ok tt, st2,
          [ Called (user_request token) (Ok user);
            Called (repository_request owner repo token) rs ]))
    /\ (forall e, rs = Throw e -> status_is e 404 = false ->
          ensure_repository respond owner repo token description st
          = (Throw e, st2,
             [ Called (user_request token) (Ok user);
               Called (repository_request owner repo token) rs ]))
    /\ (forall e made st3,
          rs = Throw e -> status_is e 404 = true ->
          respond (repository_post repo
                     (or_else description "Generated repository from v0")
                     token) st2 = (made, st3) ->
          ensure_repository respond owner repo token description st
          = (match made with Ok _ => Ok tt | Throw e' => Throw e' end, st3,
             [ Called (user_request token) (Ok user);
               Called (repository_request owner repo token) rs;
               Called (repository_post repo
                         (or_else description "Generated repository from v0")
                         token) made ]
             ++ match made with Ok _ => [Slept 2000] | Throw _ => [] end)).
Proof.
  intros service_state respond owner repo token description st user st1 rs
    st2 Hu Hr.
  assert (Hv : verifyToken respond token st
               = (Ok {| login := data_login user;
                        scopes := map trim
                                    (split comma
                                       (or_else (header_oauth_scopes user) "")) |},
                  st1, [Called (user_request token) (Ok user)])).
  { unfold verifyToken, try_catch, bind. rewrite axios_run.
    fold (user_request token). rewrite Hu. reflexivity. }
  unfold ensure_repository. rewrite (bind_ok _ _ _ Hv).
  unfold repositoryExists, try_catch, bind. rewrite axios_run.
  fold (repository_request owner repo token). rewrite Hr.
  repeat split.
  - intros found ->. reflexivity.
  - intros e -> He. cbn. rewrite He. reflexivity.
  - intros e made st3 -> He Hp. cbn. rewrite He. cbn.
    unfold createRepository, try_catch, bind. rewrite axios_run.
    fold (repository_post repo
            (or_else description "Generated repository from v0") token).
    rewrite Hp. destruct made as [res|e']; reflexivity.
Qed.

Lemma repository_is_created_only_after_404_witness :
  ensure_repository
    (fun rq (st : unit) =>
       match req_method rq with
       | GET => if String.eqb (req_url rq) "https://api.github.com/user"
                then (Ok Example.ok_response, st)
                else (Throw (Example.rejected 404 "404"), st)
       | _ => (Ok Example.ok_response, st)
       end)
    "octo" "demo" "t0ken" (Some "") tt
  = (Ok tt, tt,
     [ Called (user_request "t0ken") (Ok Example.ok_response);
       Called (repository_request "octo" "demo" "t0ken")
              (Throw (Example.rejected 404 "404"));
       Called (repository_post "demo" "Generated repository from v0" "t0ken")
              (Ok Example.ok_response);
       Slept 2000 ]).
Proof.
  exact (proj2 (proj2 (@repository_is_created_only_after_404 unit
           (fun rq st =>
              match req_method rq with
              | GET => if String.eqb (req_url rq) "https://api.github.com/user"
                       then (Ok Example.ok_response, st)
                       else (Throw (Example.rejected 404 "404"), st)
              | _ => (Ok Example.ok_response, st)
              end)
           "octo" "demo" "t0ken" (Some "") tt Example.ok_response tt
           (Throw (Example.rejected 404 "404")) tt eq_refl eq_refl))
           (Example.rejected 404 "404") (Ok Example.ok_response) tt
           eq_refl eq_refl eq_refl).
Defined.

Lemma append_empty s : (s ++ "")%string = s.
Proof. induction s as [|c s IH]; simpl; [reflexivity | now rewrite IH]. Qed.

(** X18: [pushFilesAsCommit] never throws an error that still carries
    the status 422: such an error is replaced by an [Error] whose
    message starts with [GitHub API validation error: ] followed by the
    service's message, or by [Validation failed] when there is none. *)
Theorem publish_never_throws_a_422 :
  forall (service_state : Type)
         (respond : request -> service_state -> result response * service_state)
         owner repo baseBranch newBranch files commitMessage token description
         st e,
    fst (fst (pushFilesAsCommit respond owner repo baseBranch newBranch files
                commitMessage token description st)) = Throw e ->
    status_is e 422 = false
    /\ forall (A : Type) m r st0,
         status r = 422%N ->
         exists rest,
           @push_catch service_state A (AxiosError m (Some r)) st0
           = (Throw (Error ("GitHub API validation error: "
                            ++ or_else (data_message r) "Validation failed"
                            ++ rest)), st0, []).
Proof.
  intros service_state respond owner repo baseBranch newBranch files
    commitMessage token description st e H.
  split.
  - unfold pushFilesAsCommit, try_catch in H.
    destruct (bind _ _ st) as [[[r|e0] st1] t1]; [discriminate|].
    unfold push_catch in H.
    destruct e0 as [m [r|]|m|m|m]; simpl in H;
      try (inversion H; reflexivity).
    destruct (status_is (AxiosError m (Some r)) 422) eqn:E;
      simpl in H; inversion H; subst; [reflexivity | exact E].
  - intros A m r st0 Hs. unfold push_catch, status_is. simpl.
    rewrite Hs. simpl.
    destruct (data_errors r) as [[|d ds]|].
    + exists "". now rewrite append_empty.
    + eexists. reflexivity.
    + exists "". now rewrite append_empty.
Qed.

Lemma publish_never_throws_a_422_witness :
  fst (fst (pushFilesAsCommit
              (fun rq (st : unit) =>
                 match req_body rq with
                 | BlobBody _ _ =>
                     (Throw (AxiosError "Request failed with status code 422"
                               (Some {| status := 422;
                                        data_message := Some "Invalid request";
                                        data_errors := None |})), st)
                 | _ => (Ok Example.ok_response, st)
                 end)
              "octo" "demo" "main" None
              [ {| path := "a.ts"; content := "x" |} ] "update" "t0ken" None
              tt))
  = Throw (Error "GitHub API validation error: Invalid request")
  /\ status_is (Error "GitHub API validation error: Invalid request") 422
     = false.
Proof.
  split; [reflexivity|].
  exact (proj1 (@publish_never_throws_a_422 unit
           (fun rq st =>
              match req_body rq with
              | BlobBody _ _ =>
                  (Throw (AxiosError "Request failed with status code 422"
                            (Some {| status := 422;
                                     data_message := Some "Invalid request";
                                     data_errors := None |})), st)
              | _ => (Ok Example.ok_response, st)
              end)
           "octo" "demo" "main" None
           [ {| path := "a.ts"; content := "x" |} ] "update" "t0ken" None tt
           (Error "GitHub API validation error: Invalid request") eq_refl)).
Defined.

(** X19: [getGithubOwner] makes no request when [GITHUB_TOKEN] is
    undefined or empty and throws [GITHUB_TOKEN is not set]; with a
    token it makes the one token check and returns the login of the
    reply, or throws the [GitHub token verification failed: ...] error
    of that check. *)
Theorem getGithubOwner_needs_a_token :
  forall (service_state : Type)
         (respond : request -> service_state -> result response * service_state)
         st,
    (forall env, env = None \/ env = Some "" ->
       getGithubOwner respond env st
       = (Throw (Error "GITHUB_TOKEN is not set"), st, []))
    /\ (forall token rs st1,
          token <> "" ->
          respond (user_request token) st = (rs, st1) ->
          getGithubOwner respond (Some token) st
          = (match rs with
             | Ok user => Ok (data_login user)
             | Throw e =>
                 Throw (Error ("GitHub token verification failed: "
                               ++ exn_message e))
             end, st1, [Called (user_request token) rs])).
Proof.
  intros service_state respond st. split.
  - intros env [-> | ->]; reflexivity.
  - intros token rs st1 Hne Hr.
    destruct token as [|a token]; [congruence|].
    unfold getGithubOwner, verifyToken, try_catch, bind.
    rewrite axios_run. fold (user_request (String a token)). rewrite Hr.
    destruct rs as [user|e]; reflexivity.
Qed.

Lemma getGithubOwner_needs_a_token_witness :
  getGithubOwner Example.ref_store (Some "t0ken") []
  = (Ok "octo", [], [Called (user_request "t0ken") (Ok Example.ok_response)]).
Proof.
  assert (Hne : "t0ken" <> "") by discriminate.
  exact (proj2 (@getGithubOwner_needs_a_token (list string)
                  Example.ref_store [])
           "t0ken" (Ok Example.ok_response) [] Hne eq_refl).
Defined.

Lemma trim_in_map_trim s l : In s (map trim l) -> trim s = s.
Proof.
  intros H. apply in_map_iff in H as (x & <- & _). apply trim_idempotent.
Qed.

Lemma join_split sep s : join (String sep "") (split sep s) = s.
Proof.
  induction s as [|c s IH]; [reflexivity|]. simpl.
  pose proof (@split_not_nil sep s) as Hne.
  destruct (Ascii.eqb c sep) eqn:E.
  - apply Ascii.eqb_eq in E. subst c.
    destruct (split sep s) as [|w ws]; [congruence|].
    simpl in *. now rewrite IH.
  - destruct (split sep s) as [|w ws]; [congruence|].
    destruct ws as [|w' ws]; simpl in *; now rewrite <- IH.
Qed.

Lemma split_pieces_have_no_separator sep s :
  forall p, In p (split sep s) -> ~ occurs sep p.
Proof.
  induction s as [|c s IH]; simpl.
  - intros p [<-|[]]. simpl. tauto.
  - destruct (Ascii.eqb c sep) eqn:E.
    + intros p [<-|H]; [simpl; tauto | now apply IH].
    + apply Ascii.eqb_neq in E.
      destruct (split sep s) as [|w ws].
      * intros p [<-|[]]. simpl. tauto.
      * intros p [<-|H].
        -- simpl. intros [H|H]; [congruence|].
           exact (IH w (or_introl eq_refl) H).
        -- apply IH. now right.
Qed.

(** The pieces between separators are determined by the string. *)
Lemma pieces_are_unique sep :
  forall l1 l2,
    l1 <> [] -> l2 <> [] ->
    (forall p, In p l1 -> ~ occurs sep p) ->
    (forall p, In p l2 -> ~ occurs sep p) ->
    join (String sep "") l1 = join (String sep "") l2 ->
    l1 = l2.
Proof.
  assert (Hhead : forall x l,
             join (String sep "") (x :: l)
             = (x ++ match l with
                     | [] => ""
                     | _ => String sep (join (String sep "") l)
                     end)%string).
  { intros x [|y l]; simpl; [|reflexivity].
    induction x as [|c x IH]; simpl; [reflexivity | now rewrite <- IH]. }
  assert (Hcut : forall x y r1 r2,
             ~ occurs sep x -> ~ occurs sep y ->
             (r1 = "" \/ exists t, r1 = String sep t) ->
             (r2 = "" \/ exists t, r2 = String sep t) ->
             (x ++ r1 = y ++ r2)%string -> x = y /\ r1 = r2).
  { induction x as [|c x IH]; intros [|d y] r1 r2 Hx Hy H1 H2 E; simpl in *.
    - auto.
    - exfalso. destruct H1 as [->|[t ->]]; [discriminate|].
      inversion E; subst. tauto.
    - exfalso. destruct H2 as [->|[t ->]]; [discriminate|].
      inversion E; subst. tauto.
    - inversion E; subst.
      destruct (IH y r1 r2) as [-> ->]; auto. }
  induction l1 as [|x l1 IH]; intros [|y l2] H1 H2 Hp1 Hp2 E;
    try congruence.
  rewrite !Hhead in E.
  apply Hcut in E.
  - destruct E as [-> E]. f_equal.
    destruct l1 as [|x1 l1], l2 as [|y1 l2]; try discriminate; [reflexivity|].
    inversion E as [E']. apply IH; try discriminate; auto.
    + intros p Hp. apply Hp1. now right.
    + intros p Hp. apply Hp2. now right.
  - apply Hp1. now left.
  - apply Hp2. now left.
  - destruct l1; [now left | right; eexists; reflexivity].
  - destruct l2; [now left | right; eexists; reflexivity].
Qed.

(** X20: the scopes [verifyToken] returns are the pieces of the
    [x-oauth-scopes] header between its commas, in order, each with its
    leading and trailing whitespace removed: the header is cut into the
    one non-empty list of comma-free pieces that, joined by commas, give
    the header back, and the scopes are those pieces trimmed.  There is
    always at least one scope, and when the header is missing or empty
    the only scope is the empty string. *)
Theorem verifyToken_scopes :
  forall (service_state : Type)
         (respond : request -> service_state -> result response * service_state)
         token st user st1,
    respond (user_request token) st = (Ok user, st1) ->
    exists info pieces,
      fst (fst (verifyToken respond token st)) = Ok info
      /\ login info = data_login user
      /\ pieces <> []
      /\ join "," pieces = or_else (header_oauth_scopes user) ""
      /\ (forall p, In p pieces -> ~ occurs comma p)
      /\ (forall others,
            others <> [] ->
            (forall p, In p others -> ~ occurs comma p) ->
            join "," others = or_else (header_oauth_scopes user) "" ->
            others = pieces)
      /\ scopes info = map trim pieces
      /\ (forall s, In s (scopes info) -> trim s = s)
      /\ (header_oauth_scopes user = None
          \/ header_oauth_scopes user = Some "" ->
          scopes info = [""]).
Proof.
  intros service_state respond token st user st1 Hr.
  eexists. exists (split comma (or_else (header_oauth_scopes user) "")).
  split.
  - unfold verifyToken, try_catch, bind. rewrite axios_run.
    fold (user_request token). rewrite Hr. reflexivity.
  - simpl. split; [reflexivity|]. split; [apply split_not_nil|].
    split; [apply (join_split comma)|].
    split; [apply split_pieces_have_no_separator|].
    split.
    { intros others Hne Hp Hj.
      apply (@pieces_are_unique comma); auto.
      - apply split_not_nil.
      - apply split_pieces_have_no_separator.
      - change (String comma "") with ",".
        rewrite Hj. symmetry. apply (join_split comma). }
    split; [reflexivity|]. split.
    + intros s. apply trim_in_map_trim.
    + intros [-> | ->]; reflexivity.
Qed.

Lemma verifyToken_scopes_witness :
  exists info,
    fst (fst (verifyToken Example.ref_store "t0ken" [])) = Ok info
    /\ login info = "octo"
    /\ scopes info = ["repo"; "gist"].
Proof.
  destruct (@verifyToken_scopes (list string) Example.ref_store "t0ken" []
              Example.ok_response [] eq_refl)
    as (info & pieces & Hi & Hl & _ & _ & _ & Hu & Hs & _).
  exists info. split; [exact Hi|]. split; [exact Hl|].
  rewrite Hs.
  rewrite <- (Hu ["repo"; " gist"]).
  - reflexivity.
  - discriminate.
  - intros p [<-|[<-|[]]]; simpl; intros H;
      repeat (destruct H as [H|H]; [discriminate|]); exact H.
  - reflexivity.
Defined.

(* ===================================================================== *)
(** * Properties of the task file                                         *)
(* ===================================================================== *)

Section TasksFacts.

Variable existsSync : string -> bool.
Variable read_file : string -> result Tasks.parsed.
Variable write_file : string -> Tasks.TasksData -> result unit.
Variable clock : nat -> string.

Variables (subtaskId completionTime : string) (notes : option string).

Abbreviation complete_in_task :=
  (Tasks.complete_in_task clock subtaskId completionTime notes).
Abbreviation complete_in_tasks :=
  (Tasks.complete_in_tasks clock subtaskId completionTime notes).

Lemma complete_in_task_found task found ticks :
  snd (fst (complete_in_task task found ticks))
  = found || Tasks.task_matches subtaskId task.
Proof.
  unfold Tasks.complete_in_task, Tasks.task_matches.
  destruct (Tasks.subtasks task) as [[|s subs]|]; simpl;
    try reflexivity;
    destruct (String.eqb _ subtaskId); simpl;
    now rewrite ?orb_true_r, ?orb_false_r.
Qed.

Lemma complete_in_tasks_spec l :
  forall found ticks,
    snd (fst (complete_in_tasks l found ticks))
    = found || existsb (Tasks.task_matches subtaskId) l
    /\ Forall2 (fun task task' =>
                  exists f n, fst (fst (complete_in_task task f n)) = task')
         l (fst (fst (complete_in_tasks l found ticks))).
Proof.
  induction l as [|task l IH]; intros found ticks; simpl.
  - rewrite orb_false_r. split; [reflexivity | constructor].
  - pose proof (complete_in_task_found task found ticks) as Hf.
    destruct (complete_in_task task found ticks) as [[task' found'] ticks']
      eqn:E.
    destruct (IH found' ticks') as [IH1 IH2].
    destruct (complete_in_tasks l found' ticks') as [[l' found''] ticks''].
    simpl in *. subst. split.
    + now rewrite orb_assoc.
    + constructor; [|assumption]. exists found, ticks. now rewrite E.
Qed.

End TasksFacts.

Lemma update_ok_inv existsSync read_file write_file clock options d :
  Tasks.outcome
    (Tasks.updateSubtaskCompleted existsSync read_file write_file clock options)
  = Ok d ->
  exists file l ticks,
    read_file match Tasks.tasksPath options with
              | Some p => p
              | None => Tasks.DEFAULT_TASKS_PATH
              end = Ok (Tasks.Parsed file)
    /\ Tasks.parsed_tasks file = Some l
    /\ existsb (Tasks.task_matches (Tasks.subtaskId options)) l = true
    /\ Tasks.tasks d
       = fst (fst (Tasks.complete_in_tasks clock (Tasks.subtaskId options)
                     match Tasks.completionTime options with
                     | Some t => t
                     | None => clock 0
                     end
                     (Tasks.option_notes options) l false ticks))
    /\ Tasks.written
         (Tasks.updateSubtaskCompleted existsSync read_file write_file clock
            options)
       = [(match Tasks.tasksPath options with
           | Some p => p
           | None => Tasks.DEFAULT_TASKS_PATH
           end, d)].
Proof.
  unfold Tasks.updateSubtaskCompleted.
  set (p := match Tasks.tasksPath options with
            | Some p => p
            | None => Tasks.DEFAULT_TASKS_PATH
            end).
  destruct (Tasks.completionTime options) as [t|];
    (destruct (negb (existsSync p)); [discriminate|];
     destruct (read_file p) as [[|file]|e]; [discriminate| |discriminate];
     destruct (Tasks.parsed_tasks file) as [l|] eqn:El; [|discriminate];
     match goal with
     | |- context [Tasks.complete_in_tasks ?c ?i ?t ?n l false ?k] =>
         pose proof (proj1 (complete_in_tasks_spec c i t n l false k)) as Hf;
         destruct (Tasks.complete_in_tasks c i t n l false k)
           as [[l' found] ticks'] eqn:E
     end;
     simpl in Hf; subst found;
     destruct (existsb _ l) eqn:Hm; simpl; [|discriminate];
     destruct (write_file p _) as [[]|e]; simpl; [|discriminate];
     intros H; inversion H; subst d; simpl;
     eexists file, l, _; rewrite E; repeat split; auto).
Qed.

(** X21: [updateSubtaskCompleted] looks for the id among the subtasks of
    the tasks that have subtasks and among the ids of the tasks that
    have none; a task that has subtasks is not found by its own id.
    When the file is there and well formed and nothing is found so, the
    call throws [Task or subtask with ID ... not found] and writes
    nothing; when something is found, the error is not thrown. *)
Theorem unknown_id_writes_nothing :
  forall existsSync read_file write_file clock options file l,
    existsSync match Tasks.tasksPath options with
               | Some p => p
               | None => Tasks.DEFAULT_TASKS_PATH
               end = true ->
    read_file match Tasks.tasksPath options with
              | Some p => p
              | None => Tasks.DEFAULT_TASKS_PATH
              end = Ok (Tasks.Parsed file) ->
    Tasks.parsed_tasks file = Some l ->
    (existsb (Tasks.task_matches (Tasks.subtaskId options)) l = false ->
     Tasks.updateSubtaskCompleted existsSync read_file write_file clock options
     = {| Tasks.outcome :=
            Throw (Error ("Task or subtask with ID "
                          ++ String Tasks.dquote (Tasks.subtaskId options)
                          ++ String Tasks.dquote " not found"));
          Tasks.written := [] |})
    /\ (existsb (Tasks.task_matches (Tasks.subtaskId options)) l = true ->
        List.length
          (Tasks.written
             (Tasks.updateSubtaskCompleted existsSync read_file write_file
                clock options)) = 1).
Proof.
  intros existsSync read_file write_file clock options file l He Hr Hp.
  unfold Tasks.updateSubtaskCompleted. rewrite He, Hr, Hp. simpl.
  destruct (Tasks.completionTime options) as [t|];
    match goal with
    | |- context [Tasks.complete_in_tasks ?c ?i ?t ?n l false ?k] =>
        pose proof (proj1 (complete_in_tasks_spec c i t n l false k)) as Hf;
        destruct (Tasks.complete_in_tasks c i t n l false k)
          as [[l' found] ticks'] eqn:E
    end;
    simpl in Hf; subst found;
    (split; intros Hm; rewrite Hm; simpl; [reflexivity|];
     destruct (write_file _ _); reflexivity).
Qed.

Lemma unknown_id_writes_nothing_witness :
  Tasks.updateSubtaskCompleted (fun _ => true)
    (fun _ => Ok (Tasks.Parsed
                    {| Tasks.parsed_tasks :=
                      Some [ {| Tasks.id := Tasks.IdNumber "1";
                                Tasks.title := "Set up";
                                Tasks.status := Tasks.pending;
                                Tasks.subtasks :=
                                  Some [ {| Tasks.sub_id := "1.1";
                                            Tasks.sub_title := "Install";
                                            Tasks.sub_status := Tasks.pending;
                                            Tasks.sub_completedAt := None;
                                            Tasks.sub_notes := None |} ];
                                Tasks.createdAt := None;
                                Tasks.updatedAt := None;
                                Tasks.description := None;
                                Tasks.dependencies := None;
                                Tasks.group := None;
                                Tasks.notes := None |} ];
                    Tasks.parsed_lastUpdated := None |}))
    (fun _ _ => Ok tt) (fun _ => "2025-01-01T00:00:00.000Z")
    {| Tasks.tasksPath := None; Tasks.subtaskId := "1";
       Tasks.completionTime := None; Tasks.option_notes := None |}
  = {| Tasks.outcome :=
         Throw (Error ("Task or subtask with ID "
                       ++ String Tasks.dquote "1"
                       ++ String Tasks.dquote " not found"));
       Tasks.written := [] |}.
Proof.
  match goal with
  | |- Tasks.updateSubtaskCompleted ?e ?r ?w ?c ?o = _ =>
      let f := eval cbv beta in (r "./tasks.json") in
      match f with
      | Ok (Tasks.Parsed ?file) =>
          let l := eval cbv in (Tasks.parsed_tasks file) in
          match l with
          | Some ?l0 =>
              exact (proj1 (@unknown_id_writes_nothing e r w c o file l0
                              eq_refl eq_refl eq_refl) eq_refl)
          end
      end
  end.
Defined.

Section TaskFacts.

Variable clock : nat -> string.
Variables (subtaskId completionTime : string) (notes : option string).

Lemma complete_in_task_frame task f n :
  let task' :=
    fst (fst (Tasks.complete_in_task clock subtaskId completionTime notes
                task f n)) in
  Tasks.id task' = Tasks.id task
  /\ Tasks.title task' = Tasks.title task
  /\ Tasks.createdAt task' = Tasks.createdAt task
  /\ Tasks.description task' = Tasks.description task
  /\ Tasks.dependencies task' = Tasks.dependencies task
  /\ Tasks.group task' = Tasks.group task
  /\ Tasks.subtasks task'
     = option_map (map (Tasks.complete_subtask subtaskId completionTime notes))
         (Tasks.subtasks task).
Proof.
  unfold Tasks.complete_in_task.
  destruct (Tasks.subtasks task) as [[|s subs]|] eqn:E; simpl;
    try (destruct (String.eqb _ subtaskId); simpl; rewrite ?E;
         repeat split; reflexivity).
  repeat split; reflexivity.
Qed.

Lemma complete_in_task_status task f n :
  let task' :=
    fst (fst (Tasks.complete_in_task clock subtaskId completionTime notes
                task f n)) in
  (forall subs,
      Tasks.subtasks task' = Some subs -> subs <> [] ->
      forallb (fun st => Tasks.status_eqb (Tasks.sub_status st) Tasks.completed)
        subs = true ->
      Tasks.status task' = Tasks.completed)
  /\ (Tasks.status task = Tasks.completed ->
      Tasks.status task' = Tasks.completed).
Proof.
  unfold Tasks.complete_in_task.
  destruct (Tasks.subtasks task) as [[|s subs]|] eqn:E.
  - destruct (String.eqb _ subtaskId); simpl; rewrite ?E; split; auto;
      intros subs' H; inversion H; congruence.
  - cbv zeta. cbn [fst snd Tasks.subtasks Tasks.status]. split.
    + intros subs' H _ Hall. inversion H; subst subs'.
      cbn [map] in *. rewrite Hall.
      destruct (Tasks.status task); simpl; rewrite ?andb_false_r;
        reflexivity.
    + intros ->. simpl. now rewrite !andb_false_r.
  - destruct (String.eqb _ subtaskId); simpl; rewrite ?E; split; auto;
      discriminate.
Qed.

Lemma complete_in_task_touch task f n :
  let task' :=
    fst (fst (Tasks.complete_in_task clock subtaskId completionTime notes
                task f n)) in
  (Tasks.has_subtasks task = true ->
   Tasks.updatedAt task' = Some (clock n))
  /\ (Tasks.has_subtasks task = false ->
      Tasks.task_matches subtaskId task = false -> task' = task)
  /\ (Tasks.has_subtasks task = false ->
      Tasks.task_matches subtaskId task = true ->
      Tasks.status task' = Tasks.completed
      /\ Tasks.updatedAt task' = Some (clock n)).
Proof.
  unfold Tasks.complete_in_task, Tasks.has_subtasks, Tasks.task_matches.
  destruct (Tasks.subtasks task) as [[|s subs]|];
    try destruct (String.eqb (Tasks.id_toString (Tasks.id task)) subtaskId);
    simpl; repeat split; intros; try discriminate; reflexivity.
Qed.

Lemma complete_subtask_spec st :
  let st' := Tasks.complete_subtask subtaskId completionTime notes st in
  Tasks.sub_id st' = Tasks.sub_id st
  /\ Tasks.sub_title st' = Tasks.sub_title st
  /\ (Tasks.sub_id st = subtaskId ->
      Tasks.sub_status st' = Tasks.completed
      /\ Tasks.sub_completedAt st' = Some completionTime)
  /\ (Tasks.sub_id st <> subtaskId -> st' = st).
Proof.
  unfold Tasks.complete_subtask.
  destruct (String.eqb (Tasks.sub_id st) subtaskId) eqn:E; simpl.
  - apply String.eqb_eq in E. repeat split; auto; intros; congruence.
  - apply String.eqb_neq in E. repeat split; auto; intros; congruence.
Qed.

End TaskFacts.

Lemma Forall2_weaken {A B} (P Q : A -> B -> Prop) l l' :
  (forall a b, P a b -> Q a b) -> Forall2 P l l' -> Forall2 Q l l'.
Proof. intros H. induction 1; constructor; auto. Qed.

(** X22: an update that returns keeps the tasks in number and order and
    changes, of a task, neither id, title, creation time, description,
    dependencies nor group; the subtasks of every task are the old ones
    with each subtask of the given id set to completed at the completion
    time, every other subtask being kept as it was. *)
Theorem update_changes_only_the_matching_subtasks :
  forall existsSync read_file write_file clock options file l d,
    read_file match Tasks.tasksPath options with
              | Some p => p
              | None => Tasks.DEFAULT_TASKS_PATH
              end = Ok (Tasks.Parsed file) ->
    Tasks.parsed_tasks file = Some l ->
    Tasks.outcome
      (Tasks.updateSubtaskCompleted existsSync read_file write_file clock
         options) = Ok d ->
    let finished :=
      Tasks.complete_subtask (Tasks.subtaskId options)
        match Tasks.completionTime options with
        | Some t => t
        | None => clock 0
        end (Tasks.option_notes options) in
    Forall2 (fun task task' =>
               Tasks.id task' = Tasks.id task
               /\ Tasks.title task' = Tasks.title task
               /\ Tasks.createdAt task' = Tasks.createdAt task
               /\ Tasks.description task' = Tasks.description task
               /\ Tasks.dependencies task' = Tasks.dependencies task
               /\ Tasks.group task' = Tasks.group task
               /\ Tasks.subtasks task'
                  = option_map (map finished) (Tasks.subtasks task))
      l (Tasks.tasks d)
    /\ forall st,
         Tasks.sub_id (finished st) = Tasks.sub_id st
         /\ Tasks.sub_title (finished st) = Tasks.sub_title st
         /\ (Tasks.sub_id st = Tasks.subtaskId options ->
             Tasks.sub_status (finished st) = Tasks.completed
             /\ Tasks.sub_completedAt (finished st)
                = Some match Tasks.completionTime options with
                       | Some t => t
                       | None => clock 0
                       end)
         /\ (Tasks.sub_id st <> Tasks.subtaskId options -> finished st = st).
Proof.
  intros existsSync read_file write_file clock options file l d Hr Hp Hd
    finished.
  split; [|intros st; apply complete_subtask_spec].
  apply update_ok_inv in Hd as (file' & l' & ticks & Hr' & Hp' & _ & Ht & _).
  rewrite Hr in Hr'. inversion Hr'; subst file'.
  rewrite Hp in Hp'. inversion Hp'; subst l'.
  rewrite Ht.
  eapply Forall2_weaken; [|apply complete_in_tasks_spec].
  intros task task' (f & n & <-). apply complete_in_task_frame.
Qed.

Lemma update_changes_only_the_matching_subtasks_witness :
  exists d,
    Tasks.outcome
      (Tasks.updateSubtaskCompleted TasksExample.present TasksExample.read
         TasksExample.write TasksExample.clock (TasksExample.finish "1.2"))
    = Ok d
    /\ Forall2 (fun task task' =>
                  Tasks.id task' = Tasks.id task
                  /\ Tasks.title task' = Tasks.title task
                  /\ Tasks.createdAt task' = Tasks.createdAt task
                  /\ Tasks.description task' = Tasks.description task
                  /\ Tasks.dependencies task' = Tasks.dependencies task
                  /\ Tasks.group task' = Tasks.group task
                  /\ Tasks.subtasks task'
                     = option_map
                         (map (Tasks.complete_subtask "1.2"
                                 "2025-01-01T00:00:00.000Z" None))
                         (Tasks.subtasks task))
         [TasksExample.setup; TasksExample.docs] (Tasks.tasks d).
Proof.
  eexists. split; [reflexivity|].
  exact (proj1 (@update_changes_only_the_matching_subtasks
                  TasksExample.present TasksExample.read TasksExample.write
                  TasksExample.clock (TasksExample.finish "1.2")
                  TasksExample.file [TasksExample.setup; TasksExample.docs]
                  _ eq_refl eq_refl eq_refl)).
Defined.

(** X23: after an update that returns, every task that has subtasks, all
    of them completed, is itself completed, whichever task the update
    was for; and no task that was completed before has another status
    after. *)
Theorem update_rolls_the_status_up :
  forall existsSync read_file write_file clock options file l d,
    read_file match Tasks.tasksPath options with
              | Some p => p
              | None => Tasks.DEFAULT_TASKS_PATH
              end = Ok (Tasks.Parsed file) ->
    Tasks.parsed_tasks file = Some l ->
    Tasks.outcome
      (Tasks.updateSubtaskCompleted existsSync read_file write_file clock
         options) = Ok d ->
    Forall2 (fun task task' =>
               (forall subs,
                   Tasks.subtasks task' = Some subs -> subs <> [] ->
                   forallb (fun st => Tasks.status_eqb (Tasks.sub_status st)
                                        Tasks.completed) subs = true ->
                   Tasks.status task' = Tasks.completed)
               /\ (Tasks.status task = Tasks.completed ->
                   Tasks.status task' = Tasks.completed))
      l (Tasks.tasks d).
Proof.
  intros existsSync read_file write_file clock options file l d Hr Hp Hd.
  apply update_ok_inv in Hd as (file' & l' & ticks & Hr' & Hp' & _ & Ht & _).
  rewrite Hr in Hr'. inversion Hr'; subst file'.
  rewrite Hp in Hp'. inversion Hp'; subst l'.
  rewrite Ht.
  eapply Forall2_weaken; [|apply complete_in_tasks_spec].
  intros task task' (f & n & <-). apply complete_in_task_status.
Qed.

Lemma update_rolls_the_status_up_witness :
  exists d,
    Tasks.outcome
      (Tasks.updateSubtaskCompleted TasksExample.present TasksExample.read
         TasksExample.write TasksExample.clock (TasksExample.finish "1.2"))
    = Ok d
    /\ map Tasks.status (Tasks.tasks d) = [Tasks.completed; Tasks.pending]
    /\ Forall2 (fun task task' =>
                  (forall subs,
                      Tasks.subtasks task' = Some subs -> subs <> [] ->
                      forallb (fun st =>
                                 Tasks.status_eqb (Tasks.sub_status st)
                                   Tasks.completed) subs = true ->
                      Tasks.status task' = Tasks.completed)
                  /\ (Tasks.status task = Tasks.completed ->
                      Tasks.status task' = Tasks.completed))
         [TasksExample.setup; TasksExample.docs] (Tasks.tasks d).
Proof.
  eexists. split; [reflexivity|]. split; [reflexivity|].
  exact (@update_rolls_the_status_up
           TasksExample.present TasksExample.read TasksExample.write
           TasksExample.clock (TasksExample.finish "1.2")
           TasksExample.file [TasksExample.setup; TasksExample.docs]
           _ eq_refl eq_refl eq_refl).
Defined.

(** X24: an update that returns stamps a new [updatedAt] on every task
    that has subtasks, also on those none of whose subtasks has the
    given id; a task without subtasks is returned exactly as it was
    unless its own id is the given one, in which case it is completed
    and stamped. *)
Theorem update_stamps_every_task_with_subtasks :
  forall existsSync read_file write_file clock options file l d,
    read_file match Tasks.tasksPath options with
              | Some p => p
              | None => Tasks.DEFAULT_TASKS_PATH
              end = Ok (Tasks.Parsed file) ->
    Tasks.parsed_tasks file = Some l ->
    Tasks.outcome
      (Tasks.updateSubtaskCompleted existsSync read_file write_file clock
         options) = Ok d ->
    Forall2 (fun task task' =>
               (Tasks.has_subtasks task = true ->
                exists n, Tasks.updatedAt task' = Some (clock n))
               /\ (Tasks.has_subtasks task = false ->
                   Tasks.task_matches (Tasks.subtaskId options) task = false ->
                   task' = task)
               /\ (Tasks.has_subtasks task = false ->
                   Tasks.task_matches (Tasks.subtaskId options) task = true ->
                   Tasks.status task' = Tasks.completed
                   /\ exists n, Tasks.updatedAt task' = Some (clock n)))
      l (Tasks.tasks d).
Proof.
  intros existsSync read_file write_file clock options file l d Hr Hp Hd.
  apply update_ok_inv in Hd as (file' & l' & ticks & Hr' & Hp' & _ & Ht & _).
  rewrite Hr in Hr'. inversion Hr'; subst file'.
  rewrite Hp in Hp'. inversion Hp'; subst l'.
  rewrite Ht.
  eapply Forall2_weaken; [|apply complete_in_tasks_spec].
  intros task task' (f & n & <-).
  destruct (complete_in_task_touch clock (Tasks.subtaskId options)
              match Tasks.completionTime options with
              | Some t => t
              | None => clock 0
              end (Tasks.option_notes options) task f n) as (H1 & H2 & H3).
  repeat split; eauto.
  - now apply H3.
  - exists n. now apply H3.
Qed.

Lemma update_stamps_every_task_with_subtasks_witness :
  exists d,
    Tasks.outcome
      (Tasks.updateSubtaskCompleted TasksExample.present TasksExample.read
         TasksExample.write TasksExample.clock (TasksExample.finish "docs"))
    = Ok d
    /\ map Tasks.updatedAt (Tasks.tasks d) = [Some "0"; Some "1"]
    /\ Forall2 (fun task task' =>
                  (Tasks.has_subtasks task = true ->
                   exists n, Tasks.updatedAt task'
                             = Some (TasksExample.clock n))
                  /\ (Tasks.has_subtasks task = false ->
                      Tasks.task_matches "docs" task = false ->
                      task' = task)
                  /\ (Tasks.has_subtasks task = false ->
                      Tasks.task_matches "docs" task = true ->
                      Tasks.status task' = Tasks.completed
                      /\ exists n, Tasks.updatedAt task'
                                   = Some (TasksExample.clock n)))
         [TasksExample.setup; TasksExample.docs] (Tasks.tasks d).
Proof.
  eexists. split; [reflexivity|]. split; [reflexivity|].
  exact (@update_stamps_every_task_with_subtasks
           TasksExample.present TasksExample.read TasksExample.write
           TasksExample.clock (TasksExample.finish "docs")
           TasksExample.file [TasksExample.setup; TasksExample.docs]
           _ eq_refl eq_refl eq_refl).
Defined.

(** X25: [updateSubtaskCompleted] throws without writing when the file
    is missing ([Tasks file not found at path: ...]), when it cannot be
    read or parsed ([Failed to parse tasks.json file: ...] with the
    cause's message), when what it holds is a value other than [null]
    without a [tasks] array ([Invalid tasks.json structure: ...]) and
    when it holds [null], where the error is the TypeError of reading
    [tasks] of [null] and not one of the function's own; [readTasksFile]
    throws in the first two cases but returns a value without a [tasks]
    array, [null] included, as it is. *)
Theorem bad_task_file_is_refused :
  forall existsSync read_file write_file clock options,
    let p := match Tasks.tasksPath options with
             | Some p => p
             | None => Tasks.DEFAULT_TASKS_PATH
             end in
    (existsSync p = false ->
     Tasks.updateSubtaskCompleted existsSync read_file write_file clock options
     = {| Tasks.outcome :=
            Throw (Error ("Tasks file not found at path: " ++ p));
          Tasks.written := [] |}
     /\ Tasks.readTasksFile existsSync read_file (Tasks.tasksPath options)
        = Throw (Error ("Tasks file not found at path: " ++ p)))
    /\ (forall e,
          existsSync p = true -> read_file p = Throw e ->
          Tasks.updateSubtaskCompleted existsSync read_file write_file clock
            options
          = {| Tasks.outcome :=
                 Throw (Error ("Failed to parse tasks.json file: "
                               ++ exn_message e));
               Tasks.written := [] |}
          /\ Tasks.readTasksFile existsSync read_file (Tasks.tasksPath options)
             = Throw (Error ("Failed to read or parse tasks.json file: "
                             ++ exn_message e)))
    /\ (forall file,
          existsSync p = true -> read_file p = Ok (Tasks.Parsed file) ->
          Tasks.parsed_tasks file = None ->
          Tasks.updateSubtaskCompleted existsSync read_file write_file clock
            options
          = {| Tasks.outcome :=
                 Throw (Error "Invalid tasks.json structure: missing or invalid tasks array");
               Tasks.written := [] |}
          /\ Tasks.readTasksFile existsSync read_file (Tasks.tasksPath options)
             = Ok (Tasks.Parsed file))
    /\ (existsSync p = true -> read_file p = Ok Tasks.ParsedNull ->
        Tasks.updateSubtaskCompleted existsSync read_file write_file clock
          options
        = {| Tasks.outcome :=
               Throw (TypeError
                        "Cannot read properties of null (reading 'tasks')");
             Tasks.written := [] |}
        /\ Tasks.readTasksFile existsSync read_file (Tasks.tasksPath options)
           = Ok Tasks.ParsedNull).
Proof.
  intros existsSync read_file write_file clock options p.
  unfold Tasks.updateSubtaskCompleted, Tasks.readTasksFile. fold p.
  repeat split.
  - rewrite H. destruct (Tasks.completionTime options); reflexivity.
  - now rewrite H.
  - rewrite H, H0. destruct (Tasks.completionTime options); reflexivity.
  - now rewrite H, H0.
  - rewrite H, H0, H1. destruct (Tasks.completionTime options); reflexivity.
  - now rewrite H, H0.
  - rewrite H, H0. destruct (Tasks.completionTime options); reflexivity.
  - now rewrite H, H0.
Qed.

Lemma bad_task_file_is_refused_witness :
  Tasks.updateSubtaskCompleted (fun _ => false) TasksExample.read
    TasksExample.write TasksExample.clock (TasksExample.finish "1.2")
  = {| Tasks.outcome :=
         Throw (Error ("Tasks file not found at path: " ++ "./tasks.json"));
       Tasks.written := [] |}
  /\ Tasks.updateSubtaskCompleted TasksExample.present
       (fun _ => Ok Tasks.ParsedNull)
       TasksExample.write TasksExample.clock (TasksExample.finish "1.2")
     = {| Tasks.outcome :=
            Throw (TypeError
                     "Cannot read properties of null (reading 'tasks')");
          Tasks.written := [] |}.
Proof.
  split.
  - exact (proj1 (proj1 (@bad_task_file_is_refused (fun _ => false)
                           TasksExample.read TasksExample.write
                           TasksExample.clock (TasksExample.finish "1.2"))
                    eq_refl)).
  - exact (proj1 (proj2 (proj2 (proj2
             (@bad_task_file_is_refused TasksExample.present
                (fun _ => Ok Tasks.ParsedNull) TasksExample.write
                TasksExample.clock (TasksExample.finish "1.2"))))
             eq_refl eq_refl)).
Defined.

(** X26: [updateSubtaskCompleted] attempts at most one write, to
    [tasksPath]; what it writes is what it returns, or, when the write
    fails, what it would have returned, the call then throwing [Failed
    to write updated tasks.json file: ...]; every other failure leaves
    the file untouched. *)
Theorem update_writes_what_it_returns :
  forall existsSync read_file write_file clock options,
    let r := Tasks.updateSubtaskCompleted existsSync read_file write_file
               clock options in
    (Tasks.written r = [] /\ forall d, Tasks.outcome r <> Ok d)
    \/ exists d,
         Tasks.written r
         = [(match Tasks.tasksPath options with
             | Some p => p
             | None => Tasks.DEFAULT_TASKS_PATH
             end, d)]
         /\ (Tasks.outcome r = Ok d
             \/ exists e,
                  write_file match Tasks.tasksPath options with
                             | Some p => p
                             | None => Tasks.DEFAULT_TASKS_PATH
                             end d = Throw e
                  /\ Tasks.outcome r
                     = Throw (Error ("Failed to write updated tasks.json file: "
                                     ++ exn_message e))).
Proof.
  intros existsSync read_file write_file clock options.
  unfold Tasks.updateSubtaskCompleted.
  set (p := match Tasks.tasksPath options with
            | Some p => p
            | None => Tasks.DEFAULT_TASKS_PATH
            end).
  destruct (Tasks.completionTime options) as [t|];
    (destruct (negb (existsSync p)); [left; split; [reflexivity|discriminate]|];
     destruct (read_file p) as [[|file]|e];
       [left; split; [reflexivity|discriminate]|
       |left; split; [reflexivity|discriminate]];
     destruct (Tasks.parsed_tasks file) as [l|];
       [|left; split; [reflexivity|discriminate]];
     destruct (Tasks.complete_in_tasks _ _ _ _ l false _)
       as [[l' found] ticks'];
     destruct (negb found); [left; split; [reflexivity|discriminate]|];
     right; eexists; destruct (write_file p _) as [[]|e] eqn:W; simpl;
     (split; [reflexivity|]); [left; reflexivity|];
     right; exists e; split; [exact W | reflexivity]).
Qed.
